(** * animations.js: the scroll-triggered section tracker

    A shallow embedding of [src/animations.js].  The script keeps three
    closure variables ([isInitialized], [container], [sections]), queries
    the document once, registers an intersection observer (or a scroll
    fallback), and toggles the class [is-visible] on the section that is
    closest to the centre of the snap container.

    The page is an explicit [world]: the document's elements (a reference
    to an element is its index in document order, so two references are
    the same object exactly when the indices are equal), the closure
    variables, the registered listeners and observers, the timer queue of
    the event loop with a virtual clock, the console, and a trace of the
    DOM calls the script makes.  Every function of the script is a
    [world -> completion]: it either returns normally or stops with an
    uncaught [TypeError] (a member access on [null]).

    The coordinates of a bounding rectangle and everything the script
    computes from them are JavaScript numbers: IEEE 754 binary64 values
    ([spec_float] at precision 53), with their rounding, their overflow
    to [Infinity] and their [NaN].  The scan of [checkVisibleSection] is
    therefore modelled with its three outcomes: a section is selected, or
    no distance is [< Infinity] and nothing is.  The intersection ratio of
    an observer entry is only ever compared with the two literals [0.3]
    and [0.1]; it is kept as an exact rational.  Time is in milliseconds;
    a timer fires when the clock reaches its due time, in the order of due
    times and, among equals, of creation. *)

From Stdlib Require Import QArith Lqa.
From Stdlib Require Import SpecFloat.
From stdpp Require Import base list strings.

Open Scope string_scope.
Open Scope list_scope.

(** ** Numbers *)

(** A JavaScript number is a binary64 value. *)
Definition number : Type := spec_float.

Definition prec : Z := 53.
Definition emax : Z := 1024.

Definition Infinity : number := S754_infinity false.

(** The number an integer literal denotes. *)
Definition of_Z (z : Z) : number := binary_normalize prec emax z 0 false.

(** [x + y], [x - y], [x / y] and [Math.abs(x)], correctly rounded. *)
Definition add (x y : number) : number := SFadd prec emax x y.
Definition sub (x y : number) : number := SFsub prec emax x y.
Definition div (x y : number) : number := SFdiv prec emax x y.
Definition abs (x : number) : number := SFabs x.

(** [x < y], [x <= y] and [x == y]: all three are false when an operand
    is [NaN], and [Infinity < Infinity] is false. *)
Definition lt_number (x y : number) : bool := SFltb x y.
Definition le_number (x y : number) : bool := SFleb x y.
Definition eq_number (x y : number) : bool := SFeqb x y.

(** The comparison of intersection ratios. *)
Definition Qltb (x y : Q) : bool := negb (Qle_bool y x).

(** ** The document *)

Record DOMRect := { rect_left : number; rect_width : number }.

Record element := {
  localName : string;
  classList : list string;
  boundingClientRect : DOMRect
}.

Definition with_classList (f : list string -> list string) (e : element) : element :=
  {| localName := localName e;
     classList := f (classList e);
     boundingClientRect := boundingClientRect e |}.

(** [DOMTokenList]: an ordered set of tokens. *)
Definition token_contains (c : string) (l : list string) : bool :=
  bool_decide (c ∈ l).
Definition token_remove (c : string) (l : list string) : list string :=
  filter (λ x, x ≠ c) l.
Definition token_add (c : string) (l : list string) : list string :=
  if token_contains c l then l else (l ++ [c])%list.

(** ** The script's own state and the page around it *)

Record tracker := {
  isInitialized : bool;
  container : option nat;
  sections : list nat
}.

Inductive callback :=
| CbInit                  (* setTimeout(init, 100) *)
| CbCheckVisibleSection   (* setTimeout(checkVisibleSection, ...) *)
| CbScrollCheck           (* () => { checkVisibleSection(); }, the observer-mode scroll timer *)
| CbMarkFirst.            (* () => { if (sections[0]) ... }, the 50 ms timer of init *)

Inductive handler :=
| HInit                   (* init as the DOMContentLoaded listener *)
| HLoad                   (* the window load listener *)
| HScroll                 (* the observer-mode scroll listener *)
| HTouchEnd               (* the observer-mode touchend listener *)
| HHandleScroll.          (* handleScroll of the fallback *)

Inductive eventTarget :=
| Document
| Window
| Element (el : nat).

Record listener := {
  l_target : eventTarget;
  l_type : string;
  l_handler : handler
}.

Record timer := {
  t_id : nat;
  t_due : nat;
  t_callback : callback
}.

(** The DOM calls the script makes, in program order. *)
Inductive effect :=
| QuerySelector (selector : string)
| QuerySelectorAll (selector : string)
| GetBoundingClientRect (el : nat)
| OffsetWidth (el : nat)
| ClassRemove (el : nat) (c : string)
| ClassAdd (el : nat) (c : string)
| Recompute.   (* ghost: checkVisibleSection got past its null guard *)

Record world := {
  now : nat;
  hasIntersectionObserver : bool;
  dom : list element;
  state : tracker;
  scrollTimer : option nat;
  observers : list (list nat);
  listeners : list listener;
  timers : list timer;
  nextTimer : nat;
  console : list string;
  trace : list effect
}.

Definition set_now (t : nat) (w : world) : world :=
  {| now := t; hasIntersectionObserver := hasIntersectionObserver w;
     dom := dom w; state := state w; scrollTimer := scrollTimer w;
     observers := observers w; listeners := listeners w; timers := timers w;
     nextTimer := nextTimer w; console := console w; trace := trace w |}.

Definition set_dom (d : list element) (w : world) : world :=
  {| now := now w; hasIntersectionObserver := hasIntersectionObserver w;
     dom := d; state := state w; scrollTimer := scrollTimer w;
     observers := observers w; listeners := listeners w; timers := timers w;
     nextTimer := nextTimer w; console := console w; trace := trace w |}.

Definition set_state (s : tracker) (w : world) : world :=
  {| now := now w; hasIntersectionObserver := hasIntersectionObserver w;
     dom := dom w; state := s; scrollTimer := scrollTimer w;
     observers := observers w; listeners := listeners w; timers := timers w;
     nextTimer := nextTimer w; console := console w; trace := trace w |}.

Definition set_scrollTimer (t : option nat) (w : world) : world :=
  {| now := now w; hasIntersectionObserver := hasIntersectionObserver w;
     dom := dom w; state := state w; scrollTimer := t;
     observers := observers w; listeners := listeners w; timers := timers w;
     nextTimer := nextTimer w; console := console w; trace := trace w |}.

Definition set_observers (o : list (list nat)) (w : world) : world :=
  {| now := now w; hasIntersectionObserver := hasIntersectionObserver w;
     dom := dom w; state := state w; scrollTimer := scrollTimer w;
     observers := o; listeners := listeners w; timers := timers w;
     nextTimer := nextTimer w; console := console w; trace := trace w |}.

Definition set_listeners (l : list listener) (w : world) : world :=
  {| now := now w; hasIntersectionObserver := hasIntersectionObserver w;
     dom := dom w; state := state w; scrollTimer := scrollTimer w;
     observers := observers w; listeners := l; timers := timers w;
     nextTimer := nextTimer w; console := console w; trace := trace w |}.

Definition set_timers (ts : list timer) (n : nat) (w : world) : world :=
  {| now := now w; hasIntersectionObserver := hasIntersectionObserver w;
     dom := dom w; state := state w; scrollTimer := scrollTimer w;
     observers := observers w; listeners := listeners w; timers := ts;
     nextTimer := n; console := console w; trace := trace w |}.

Definition set_console (c : list string) (w : world) : world :=
  {| now := now w; hasIntersectionObserver := hasIntersectionObserver w;
     dom := dom w; state := state w; scrollTimer := scrollTimer w;
     observers := observers w; listeners := listeners w; timers := timers w;
     nextTimer := nextTimer w; console := c; trace := trace w |}.

Definition set_trace (t : list effect) (w : world) : world :=
  {| now := now w; hasIntersectionObserver := hasIntersectionObserver w;
     dom := dom w; state := state w; scrollTimer := scrollTimer w;
     observers := observers w; listeners := listeners w; timers := timers w;
     nextTimer := nextTimer w; console := console w; trace := t |}.

Definition record (e : effect) (w : world) : world :=
  set_trace (trace w ++ [e]) w.

(** ** Completions *)

Inductive completion :=
| Normal (w : world)
| Throw (w : world).

Definition action := world -> completion.

Definition andThen (a b : action) : action :=
  fun w => match a w with
           | Normal w' => b w'
           | Throw w' => Throw w'
           end.

Notation "a >> b" := (andThen a b) (at level 65, right associativity).

Definition ret : action := Normal.

Definition pure (f : world -> world) : action := fun w => Normal (f w).

(** [Array.prototype.forEach] *)
Fixpoint forEach {A} (f : A -> action) (l : list A) : action :=
  match l with
  | [] => ret
  | x :: r => f x >> forEach f r
  end.

(** The world a completion leaves behind, thrown or not. *)
Definition after (c : completion) : world :=
  match c with Normal w => w | Throw w => w end.

(** ** DOM primitives *)

Definition marker : string := "is-visible".

Definition classList_remove (el : nat) (c : string) : action :=
  pure (fun w =>
    record (ClassRemove el c)
      (set_dom (alter (with_classList (token_remove c)) el (dom w)) w)).

Definition classList_add (el : nat) (c : string) : action :=
  pure (fun w =>
    record (ClassAdd el c)
      (set_dom (alter (with_classList (token_add c)) el (dom w)) w)).

Definition classList_contains (el : nat) (c : string) (w : world) : bool :=
  match dom w !! el with
  | Some e => token_contains c (classList e)
  | None => false
  end.

(** [void el.offsetWidth]: a synchronous layout read, nothing written. *)
Definition offsetWidth (el : nat) : action :=
  pure (record (OffsetWidth el)).

Definition zero_rect : DOMRect := {| rect_left := of_Z 0; rect_width := of_Z 0 |}.

(** The rectangle the layout currently reports for [el]; references
    handed out by the queries below are always in range. *)
Definition rect_of (w : world) (el : nat) : DOMRect :=
  match dom w !! el with
  | Some e => boundingClientRect e
  | None => zero_rect
  end.

(** [rect.left + rect.width / 2] *)
Definition center (r : DOMRect) : number :=
  add (rect_left r) (div (rect_width r) (of_Z 2)).

(** ** checkVisibleSection *)

Record scan := {
  closestSection : option nat;
  minDistance : number
}.

(** The body of the first [forEach], lines 127-136. *)
Definition scan_step (viewportCenter : number) (acc : world * scan) (section : nat)
  : world * scan :=
  let '(w, s) := acc in
  let rect := rect_of w section in
  let w := record (GetBoundingClientRect section) w in
  let sectionCenter := center rect in
  let distance := abs (sub sectionCenter viewportCenter) in
  if lt_number distance (minDistance s)
  then (w, {| closestSection := Some section; minDistance := distance |})
  else (w, s).

(** The body of the second [forEach], lines 139-143:
    [if (section !== closestSection) section.classList.remove('is-visible')]. *)
Definition reset_others (closest : option nat) (section : nat) : action :=
  if decide (Some section = closest) then ret
  else classList_remove section marker.

(** Remove the class, force a reflow, add the class: lines 148-152, and
    lines 69-72 of the observer callback. *)
Definition retrigger (el : nat) : action :=
  classList_remove el marker >> offsetWidth el >> classList_add el marker.

(** Lines 121-136: the container's centre and the scan for the closest
    section. *)
Definition findClosest (c : nat) (w : world) : world * scan :=
  let containerRect := rect_of w c in
  let w := record (GetBoundingClientRect c) w in
  let viewportCenter := center containerRect in
  fold_left (scan_step viewportCenter) (sections (state w))
            (w, {| closestSection := None; minDistance := Infinity |}).

(** Lines 118-154.  [Recompute] marks in the trace that the call got
    past [if (!container) return]. *)
Definition checkVisibleSection : action := fun w =>
  match container (state w) with
  | None => Normal w
  | Some c =>
    let w := record Recompute w in
    let '(w, s) := findClosest c w in
    (forEach (reset_others (closestSection s)) (sections (state w)) >>
     match closestSection s with
     | Some el => retrigger el
     | None => ret
     end) w
  end.

(** ** Queries *)

(** [document.querySelector('.snap-container')]: the first element in
    document order that carries the class. *)
Definition is_snap_container (e : element) : Prop :=
  "snap-container" ∈ classList e.

Definition querySelector_container (d : list element) : option nat :=
  fst <$> list_find is_snap_container d.

(** [document.querySelectorAll('section.snap-page')], in document order. *)
Definition is_snap_page (e : element) : bool :=
  bool_decide (localName e = "section") && token_contains "snap-page" (classList e).

Definition selects_snap_page (d : list element) (i : nat) : Prop :=
  match d !! i with
  | Some e => is_snap_page e = true
  | None => False
  end.

#[global] Instance selects_snap_page_dec d i : Decision (selects_snap_page d i).
Proof. unfold selects_snap_page. destruct (d !! i); apply _. Defined.

Definition querySelectorAll_sections (d : list element) : list nat :=
  filter (selects_snap_page d) (seq 0 (length d)).

(** ** Timers, listeners, observers *)

Definition scrollDebounce : nat := 100.   (* CONFIG.scrollDebounce *)

(** [setTimeout] returns a fresh handle; [clearTimeout] removes the timer
    with that handle, if it is still pending. *)
Definition setTimeout (cb : callback) (delay : nat) (w : world) : nat * world :=
  let id := nextTimer w in
  (id, set_timers
         (timers w ++ [{| t_id := id; t_due := now w + delay; t_callback := cb |}])
         (S id) w).

Definition clearTimeout (handle : option nat) (w : world) : world :=
  match handle with
  | None => w                      (* clearTimeout(undefined) *)
  | Some i => set_timers (filter (λ t, t_id t ≠ i) (timers w)) (nextTimer w) w
  end.

(** Every listener of the script is a fresh closure or is registered once
    per target, so registration never meets an equal listener. *)
Definition addEventListener (t : eventTarget) (ty : string) (h : handler) : action :=
  pure (fun w =>
    set_listeners (listeners w ++ [{| l_target := t; l_type := ty; l_handler := h |}]) w).

(** [container.addEventListener(...)]: a [TypeError] when [container] is [null]. *)
Definition container_addEventListener (ty : string) (h : handler) : action :=
  fun w => match container (state w) with
           | None => Throw w
           | Some c => addEventListener (Element c) ty h w
           end.

(** [new IntersectionObserver(...)]: a new observer, watching nothing
    yet; [observer.observe(el)] adds a target once. *)
Definition newIntersectionObserver (w : world) : nat * world :=
  (length (observers w), set_observers (observers w ++ [[]]) w).

Definition observe (observer : nat) (el : nat) : action :=
  pure (fun w =>
    set_observers
      (alter (λ targets, if bool_decide (el ∈ targets) then targets else (targets ++ [el])%list)
             observer (observers w)) w).

Definition console_warn (msg : string) : action :=
  pure (fun w => set_console (console w ++ [msg]) w).

Definition set_isInitialized (b : bool) (w : world) : world :=
  set_state {| isInitialized := b; container := container (state w);
               sections := sections (state w) |} w.
Definition set_container (c : option nat) (w : world) : world :=
  set_state {| isInitialized := isInitialized (state w); container := c;
               sections := sections (state w) |} w.
Definition set_sections (s : list nat) (w : world) : world :=
  set_state {| isInitialized := isInitialized (state w);
               container := container (state w); sections := s |} w.

(** ** The intersection observer's callback, lines 64-78 *)

Record entry := {
  target : nat;
  isIntersecting : bool;
  intersectionRatio : Q
}.

(** The body of [entries.forEach]:
    [if (entry.isIntersecting && entry.intersectionRatio >= 0.3) ...
     else if (entry.intersectionRatio < 0.1) ...]. *)
Definition observerEntry (e : entry) : action :=
  if isIntersecting e && Qle_bool (3 # 10) (intersectionRatio e)
  then retrigger (target e)
  else if Qltb (intersectionRatio e) (1 # 10)
  then classList_remove (target e) marker
  else ret.

Definition observerCallback (entries : list entry) : action :=
  forEach observerEntry entries.

(** ** Setup *)

(** Lines 57-95. *)
Definition setupIntersectionObserver : action := fun w =>
  let '(observer, w) := newIntersectionObserver w in
  (forEach (observe observer) (sections (state w)) >>
   pure (set_scrollTimer None) >>                      (* let scrollTimer; *)
   container_addEventListener "scroll" HScroll >>
   container_addEventListener "touchend" HTouchEnd) w.

(** Lines 100-113. *)
Definition setupScrollFallback : action :=
  pure (set_scrollTimer None) >>                       (* let scrollTimer; *)
  container_addEventListener "scroll" HHandleScroll >>
  addEventListener Window "resize" HHandleScroll >>
  checkVisibleSection.

(** The 50 ms timer of [init], lines 45-49. *)
Definition markFirst : action := fun w =>
  match sections (state w) !! 0%nat with
  | Some el => classList_add el marker w
  | None => Normal w
  end.

Definition warning : string := "Animation system: container or sections not found".

(** Lines 28-29: both closure variables are assigned before the check. *)
Definition queryDocument (w : world) : world :=
  let w := record (QuerySelector ".snap-container") w in
  let w := set_container (querySelector_container (dom w)) w in
  let w := record (QuerySelectorAll "section.snap-page") w in
  set_sections (querySelectorAll_sections (dom w)) w.

(** Lines 25-52. *)
Definition init : action := fun w =>
  if isInitialized (state w) then Normal w
  else
    let w := queryDocument w in
    if negb (bool_decide (is_Some (container (state w))))
       || (length (sections (state w)) =? 0)%nat
    then console_warn warning w
    else
      ((if hasIntersectionObserver w
        then setupIntersectionObserver
        else setupScrollFallback) >>
       pure (fun w => snd (setTimeout CbMarkFirst 50 w)) >>
       pure (set_isInitialized true)) w.

(** ** Listeners and timer callbacks *)

(** What a timer runs when it fires. *)
Definition run_callback (cb : callback) : action :=
  match cb with
  | CbInit => init
  | CbCheckVisibleSection => checkVisibleSection
  | CbScrollCheck => checkVisibleSection
  | CbMarkFirst => markFirst
  end.

(** [clearTimeout(scrollTimer); scrollTimer = setTimeout(cb, CONFIG.scrollDebounce)] *)
Definition debounce (cb : callback) : action :=
  pure (fun w =>
    let w := clearTimeout (scrollTimer w) w in
    let '(id, w) := setTimeout cb scrollDebounce w in
    set_scrollTimer (Some id) w).

(** What a listener runs when its event is dispatched. *)
Definition run_handler (h : handler) : action :=
  match h with
  | HInit => init
  | HLoad =>
      pure (fun w => snd (setTimeout CbInit 100 w)) >>
      pure (fun w => snd (setTimeout CbCheckVisibleSection 200 w))
  | HScroll => debounce CbScrollCheck
  | HTouchEnd => pure (fun w => snd (setTimeout CbCheckVisibleSection 200 w))
  | HHandleScroll => debounce CbCheckVisibleSection
  end.

(** ** The event loop *)

Definition listens (t : eventTarget) (ty : string) (l : listener) : Prop :=
  l_target l = t ∧ l_type l = ty.

#[global] Instance eventTarget_eq_dec : EqDecision eventTarget.
Proof. solve_decision. Defined.

#[global] Instance listens_dec t ty l : Decision (listens t ty l).
Proof. unfold listens. apply _. Defined.

(** An event dispatched at the current time: the listeners registered for
    it run in registration order; an uncaught exception in one is reported
    and the next one still runs. *)
Definition dispatch (t : eventTarget) (ty : string) (w : world) : world :=
  fold_left (fun w l => after (run_handler (l_handler l) w))
            (filter (listens t ty) (listeners w)) w.

(** The pending timer that fires first: least due time, creation order
    among equals. *)
Fixpoint earliest (ts : list timer) : option timer :=
  match ts with
  | [] => None
  | x :: r =>
      match earliest r with
      | Some y => if (t_due y <? t_due x)%nat then Some y else Some x
      | None => Some x
      end
  end.

Definition due_timer (t : nat) (w : world) : option timer :=
  match earliest (timers w) with
  | Some x => if (t_due x <=? t)%nat then Some x else None
  | None => None
  end.

(** A timer fires: the clock is at its due time (or later), the timer
    has left the queue, its callback runs; an uncaught exception is
    reported and the loop goes on. *)
Definition fire (x : timer) (w : world) : world :=
  let w := set_now (Nat.max (now w) (t_due x)) w in
  let w := clearTimeout (Some (t_id x)) w in
  after (run_callback (t_callback x) w).

(** Let the clock run to time [t], firing every timer that comes due on
    the way; [None] only when [fuel] timers were not enough. *)
Fixpoint advance (fuel : nat) (t : nat) (w : world) : option world :=
  match due_timer t w with
  | None => Some (set_now (Nat.max (now w) t) w)
  | Some x =>
      match fuel with
      | O => None
      | S fuel => advance fuel t (fire x w)
      end
  end.

(** A browser event: when it happens, on what, and of which type. *)
Record event := {
  e_time : nat;
  e_target : eventTarget;
  e_type : string
}.

(** Run a schedule of events: the clock runs to each event's time, then
    the event is dispatched. *)
Fixpoint play (fuel : nat) (events : list event) (w : world) : option world :=
  match events with
  | [] => Some w
  | e :: rest =>
      match advance fuel (e_time e) w with
      | Some w' => play fuel rest (dispatch (e_target e) (e_type e) w')
      | None => None
      end
  end.

(** ** The module body, lines 159-180 *)

Definition main (loading : bool) : action :=
  (if loading                                (* document.readyState === 'loading' *)
   then addEventListener Document "DOMContentLoaded" HInit
   else init) >>
  addEventListener Window "load" HLoad.

Record snapshot := {
  snap_isInitialized : bool;
  sectionsCount : nat;
  visibleSections : nat
}.

(** [window.__weddingAnimations.getState()] *)
Definition getState (w : world) : snapshot :=
  {| snap_isInitialized := isInitialized (state w);
     sectionsCount := length (sections (state w));
     visibleSections :=
       length (filter (λ s, classList_contains s marker w = true) (sections (state w))) |}.

(** A page as the browser hands it to the script. *)
Definition page (d : list element) (io : bool) : world :=
  {| now := 0; hasIntersectionObserver := io; dom := d;
     state := {| isInitialized := false; container := None; sections := [] |};
     scrollTimer := None; observers := []; listeners := []; timers := [];
     nextTimer := 1; console := []; trace := [] |}.

(** * The vocabulary of the properties *)

(** ** Decidable equality of events, timers and listeners *)

#[global] Instance effect_eq_dec : EqDecision effect.
Proof. solve_decision. Defined.

#[global] Instance callback_eq_dec : EqDecision callback.
Proof. solve_decision. Defined.

#[global] Instance timer_eq_dec : EqDecision timer.
Proof. solve_decision. Defined.

#[global] Instance handler_eq_dec : EqDecision handler.
Proof. solve_decision. Defined.

#[global] Instance listener_eq_dec : EqDecision listener.
Proof. solve_decision. Defined.

(** ** The scan, without the world it threads *)

(** [Math.abs(sectionCenter - viewportCenter)] for section [el] and
    container [c] in the layout of [w]. *)
Definition distance (w : world) (c el : nat) : number :=
  abs (sub (center (rect_of w el)) (center (rect_of w c))).

(** One step of the scan on its two locals, for distances [d]. *)
Definition pick (d : nat -> number) (s : scan) (x : nat) : scan :=
  if lt_number (d x) (minDistance s)
  then {| closestSection := Some x; minDistance := d x |}
  else s.

(** [closestSection = null; minDistance = Infinity] *)
Definition scan0 : scan := {| closestSection := None; minDistance := Infinity |}.

(** The section the scan of [checkVisibleSection] ends on. *)
Definition closest (w : world) (c : nat) : option nat :=
  closestSection (fold_left (pick (distance w c)) (sections (state w)) scan0).

(** The distance of [el] is a number below [Infinity]: not [NaN], and
    neither centre nor their difference has overflowed. *)
Definition finite_distance (w : world) (c el : nat) : Prop :=
  lt_number (distance w c el) Infinity = true.

(** Some tracked section has a distance below [Infinity].  The layout of
    a browser reports bounded coordinates, for which this holds as soon
    as there is a section; the scan selects nothing without it. *)
Definition selectable (w : world) (c : nat) : Prop :=
  Exists (finite_distance w c) (sections (state w)).

#[global] Instance selectable_dec w c : Decision (selectable w c).
Proof. unfold selectable, finite_distance. apply Exists_dec. intros x. apply _. Defined.

(** ** The order of the numbers

    [<] and [<=] compare two numbers that are not [NaN] by sign, then by
    exponent, then by mantissa, as the position in this key. *)

Definition is_nan (x : number) : bool :=
  match x with S754_nan => true | _ => false end.

Definition key (x : number) : Z * Z * Z :=
  match x with
  | S754_infinity true => (-2, 0, 0)
  | S754_finite true m e => (-1, - e, - Zpos m)
  | S754_zero _ => (0, 0, 0)
  | S754_finite false m e => (1, e, Zpos m)
  | S754_infinity false => (2, 0, 0)
  | S754_nan => (3, 0, 0)
  end%Z.

Definition key_lt (a b : Z * Z * Z) : Prop :=
  (a.1.1 < b.1.1 \/
   (a.1.1 = b.1.1 /\ (a.1.2 < b.1.2 \/ (a.1.2 = b.1.2 /\ a.2 < b.2))))%Z.

Definition key_le (a b : Z * Z * Z) : Prop :=
  (a.1.1 < b.1.1 \/
   (a.1.1 = b.1.1 /\ (a.1.2 < b.1.2 \/ (a.1.2 = b.1.2 /\ a.2 <= b.2))))%Z.

(** ** Worlds that differ in the document and the trace only *)

Definition append_trace (l : list effect) (w : world) : world :=
  set_trace (trace w ++ l) w.

(** [w] with document [d] and with [t] appended to its trace. *)
Definition upd (d : list element) (t : list effect) (w : world) : world :=
  set_trace (trace w ++ t) (set_dom d w).

(** [classList.remove('is-visible')] and [classList.add('is-visible')] on
    one element. *)
Definition unmark : element -> element := with_classList (token_remove marker).
Definition mark : element -> element := with_classList (token_add marker).

(** The trace of a retrigger: remove, layout read, add. *)
Definition cycle (el : nat) : list effect :=
  [ClassRemove el marker; OffsetWidth el; ClassAdd el marker].

(** The document after the second [forEach] of [checkVisibleSection] has
    removed the marker from the elements [els]. *)
Definition clear_marker (els : list nat) (d : list element) : list element :=
  fold_left (fun d el => alter unmark el d) els d.

(** The sections that are not the selected one. *)
Definition others (cl : option nat) (l : list nat) : list nat :=
  filter (λ x, Some x ≠ cl) l.

(** The document and the trace one recompute leaves behind. *)
Definition recompute_dom (w : world) (c : nat) : list element :=
  let d := clear_marker (others (closest w c) (sections (state w))) (dom w) in
  match closest w c with
  | Some el => alter mark el (alter unmark el d)
  | None => d
  end.

Definition recompute_trace (w : world) (c : nat) : list effect :=
  Recompute :: GetBoundingClientRect c ::
    map GetBoundingClientRect (sections (state w)) ++
    map (fun x => ClassRemove x marker) (others (closest w c) (sections (state w))) ++
    match closest w c with
    | Some el => cycle el
    | None => []
    end.

(** Effect [e] writes to the classes of element [s]. *)
Definition writes_to (s : nat) (e : effect) : Prop :=
  match e with
  | ClassRemove el _ | ClassAdd el _ => el = s
  | _ => False
  end.

(** ** Well-formed references *)

(** The section references are distinct elements of the document, as
    [querySelectorAll] returns them. *)
Definition wf (w : world) : Prop :=
  NoDup (sections (state w)) /\
  Forall (λ s, (s < length (dom w))%nat) (sections (state w)).

#[global] Instance wf_dec (w : world) : Decision (wf w).
Proof. unfold wf. apply _. Defined.

(** ** Observer entries *)

(** What the browser guarantees of an entry: a positive intersection
    ratio means the target intersects the root. *)
Definition entry_consistent (e : entry) : Prop :=
  (0 < intersectionRatio e)%Q -> isIntersecting e = true.

#[global] Instance entry_consistent_dec (e : entry) : Decision (entry_consistent e).
Proof.
  unfold entry_consistent.
  destruct (Qlt_le_dec 0 (intersectionRatio e)) as [Hlt|Hle].
  - destruct (isIntersecting e); [left; done | right; intros H; by specialize (H Hlt)].
  - left. intros Hlt. exfalso. exact (Qlt_not_le _ _ Hlt Hle).
Defined.

(** ** What an operation may change *)

(** [e'] is [e] up to the presence of the marker class: same name, same
    layout, same other classes in the same order. *)
Definition same_but_marker (e e' : element) : Prop :=
  localName e' = localName e /\
  boundingClientRect e' = boundingClientRect e /\
  token_remove marker (classList e') = token_remove marker (classList e).

(** Document [d'] is [d] up to the marker class on the elements of [S]. *)
Definition marker_only (S : list nat) (d d' : list element) : Prop :=
  length d' = length d /\
  forall i e e', d !! i = Some e -> d' !! i = Some e' ->
                 same_but_marker e e' /\ (i ∉ S -> e' = e).

(** The class writes of a trace are writes of the marker to elements of [S]. *)
Definition allowed (S : list nat) (e : effect) : Prop :=
  match e with
  | ClassRemove el c | ClassAdd el c => el ∈ S /\ c = marker
  | _ => True
  end.

(** World [w'] is [w] up to the marker class on the elements of [S] (and
    the trace of the calls that did it): the script's variables, the
    listeners, observers, timers and console are those of [w]. *)
Definition class_only (S : list nat) (w w' : world) : Prop :=
  exists d t, w' = upd d t w /\ marker_only S (dom w) d /\ Forall (allowed S) t.

(** ** Initialisation *)

(** The listeners a successful [init] registers, by detection mode. *)
Definition setup_listeners (io : bool) (c : nat) : list listener :=
  if io
  then [ {| l_target := Element c; l_type := "scroll"; l_handler := HScroll |};
         {| l_target := Element c; l_type := "touchend"; l_handler := HTouchEnd |} ]
  else [ {| l_target := Element c; l_type := "scroll"; l_handler := HHandleScroll |};
         {| l_target := Window; l_type := "resize"; l_handler := HHandleScroll |} ].

(** The trace of the two queries of [init]. *)
Definition queries : list effect :=
  [QuerySelector ".snap-container"; QuerySelectorAll "section.snap-page"].

(** ** Timers and events *)

(** How many recomputes a trace holds. *)
Definition recomputes (t : list effect) : nat :=
  length (filter (λ e, e = Recompute) t).

(** A timer whose callback is a recompute. *)
Definition is_check (x : timer) : Prop :=
  t_callback x = CbCheckVisibleSection \/ t_callback x = CbScrollCheck.

#[global] Instance is_check_dec (x : timer) : Decision (is_check x).
Proof. unfold is_check. apply _. Defined.

(** The recompute timers that are pending. *)
Definition pending_checks (w : world) : list timer :=
  filter is_check (timers w).

(** The queue after [clearTimeout(handle)]. *)
Definition without (handle : option nat) (l : list timer) : list timer :=
  match handle with
  | None => l
  | Some i => filter (λ t, t_id t ≠ i) l
  end.

(** An initialised tracker with container [c] and a timer queue with
    distinct, already issued handles. *)
Definition running (c : nat) (w : world) : Prop :=
  isInitialized (state w) = true /\
  container (state w) = Some c /\
  NoDup (t_id <$> timers w) /\
  Forall (λ x, (t_id x < nextTimer w)%nat) (timers w).

#[global] Instance running_dec (c : nat) (w : world) : Decision (running c w).
Proof. unfold running. apply _. Defined.

Definition scroll_listener (c : nat) : listener :=
  {| l_target := Element c; l_type := "scroll"; l_handler := HScroll |}.
Definition touchend_listener (c : nat) : listener :=
  {| l_target := Element c; l_type := "touchend"; l_handler := HTouchEnd |}.

(** The tracker runs in observer mode on container [c]: its two listeners
    are the only ones for the container's scroll and touchend events. *)
Definition observer_mode (c : nat) (w : world) : Prop :=
  running c w /\
  filter (listens (Element c) "scroll") (listeners w) = [scroll_listener c] /\
  filter (listens (Element c) "touchend") (listeners w) = [touchend_listener c].

#[global] Instance observer_mode_dec (c : nat) (w : world) : Decision (observer_mode c w).
Proof. unfold observer_mode. apply _. Defined.

Definition scroll_at (c t : nat) : event :=
  {| e_time := t; e_target := Element c; e_type := "scroll" |}.
Definition touchend_at (c t : nat) : event :=
  {| e_time := t; e_target := Element c; e_type := "touchend" |}.

(** Event times in which every event follows the previous one by less
    than the debounce delay. *)
Fixpoint within_debounce (prev : nat) (times : list nat) : Prop :=
  match times with
  | [] => True
  | t :: rest =>
      (prev <= t)%nat /\ (t < prev + scrollDebounce)%nat /\ within_debounce t rest
  end.

(** Event times in order, from [prev] on. *)
Fixpoint ascending (prev : nat) (times : list nat) : Prop :=
  match times with
  | [] => True
  | t :: rest => (prev <= t)%nat /\ ascending t rest
  end.

(** The time of the last event of [t :: rest]. *)
Fixpoint last_time (t : nat) (rest : list nat) : nat :=
  match rest with
  | [] => t
  | t' :: rest => last_time t' rest
  end.

(** One recompute timer is pending: the debounce timer, due at [d]. *)
Definition debouncing (c k d : nat) (w : world) : Prop :=
  observer_mode c w /\
  recomputes (trace w) = k /\
  exists id,
    scrollTimer w = Some id /\
    pending_checks w = [{| t_id := id; t_due := d; t_callback := CbScrollCheck |}].

(** The recompute timers of the touch ends so far: those with due times
    in [D] that lie ahead are pending, in order, and one recompute has run
    for each due time that has passed. *)
Definition touched (c k : nat) (D : list nat) (w : world) : Prop :=
  observer_mode c w /\
  t_due <$> pending_checks w = filter (λ d, (now w < d)%nat) D /\
  recomputes (trace w) = (k + length (filter (λ d, (d <= now w)%nat) D))%nat.

(** ** The verdict of an observer entry *)

(** What an entry decides for its target: [Some true], the class ends
    present; [Some false], absent; [None], the entry decides nothing. *)
Definition verdict (e : entry) : option bool :=
  if isIntersecting e && Qle_bool (3 # 10) (intersectionRatio e) then Some true
  else if Qltb (intersectionRatio e) (1 # 10) then Some false
  else None.

(** The marker of element [t] after entry [e], when it was [b] before. *)
Definition settle (t : nat) (b : bool) (e : entry) : bool :=
  if decide (target e = t)
  then match verdict e with Some v => v | None => b end
  else b.

(** ** Debounced events in general *)

(** The recomputes a stream of debounced events at times [t :: rest] has
    run by time [T]: one for each event that the next one (or [T], for the
    last) follows by the debounce delay or more. *)
Fixpoint settled (t : nat) (rest : list nat) (T : nat) : nat :=
  match rest with
  | [] => if (t + scrollDebounce <=? T)%nat then 1 else 0
  | t' :: rest' =>
      ((if (t + scrollDebounce <=? t')%nat then 1 else 0) + settled t' rest' T)%nat
  end.

(** The tracker runs, [k] recomputes have run, and the debounce timer
    with callback [cb] is the only recompute timer that may be pending:
    due at [d] when [pending] is [Some d]. *)
Definition debounced (cb : callback) (c k : nat) (pending : option nat) (w : world) : Prop :=
  running c w /\
  recomputes (trace w) = k /\
  match pending with
  | None => pending_checks w = []
  | Some d =>
      exists id,
        scrollTimer w = Some id /\
        pending_checks w = [{| t_id := id; t_due := d; t_callback := cb |}]
  end.

(** Event [e] has exactly one listener among [L], and it is a debounce
    with callback [cb]. *)
Definition debounces (cb : callback) (L : list listener) (e : event) : Prop :=
  exists l,
    filter (listens (e_target e) (e_type e)) L = [l] /\
    run_handler (l_handler l) = debounce cb.

Definition fallback_scroll_listener (c : nat) : listener :=
  {| l_target := Element c; l_type := "scroll"; l_handler := HHandleScroll |}.
Definition resize_listener : listener :=
  {| l_target := Window; l_type := "resize"; l_handler := HHandleScroll |}.

(** The tracker runs in fallback mode on container [c]: [handleScroll] is
    the one listener for the container's scroll events and for the
    window's resize events. *)
Definition fallback_mode (c : nat) (w : world) : Prop :=
  running c w /\
  filter (listens (Element c) "scroll") (listeners w) = [fallback_scroll_listener c] /\
  filter (listens Window "resize") (listeners w) = [resize_listener].

#[global] Instance fallback_mode_dec (c : nat) (w : world) : Decision (fallback_mode c w).
Proof. unfold fallback_mode. apply _. Defined.

(** A scroll of the container or a resize of the window. *)
Definition scroll_or_resize (c : nat) (e : event) : Prop :=
  (e_target e = Element c /\ e_type e = "scroll") \/
  (e_target e = Window /\ e_type e = "resize").

#[global] Instance scroll_or_resize_dec (c : nat) (e : event) : Decision (scroll_or_resize c e).
Proof. unfold scroll_or_resize. apply _. Defined.

(** ** The module body at work *)

Definition ready_listener : listener :=
  {| l_target := Document; l_type := "DOMContentLoaded"; l_handler := HInit |}.
Definition load_listener : listener :=
  {| l_target := Window; l_type := "load"; l_handler := HLoad |}.

(** The script has run on document [d] and the document is ready: when
    it was still loading, the DOMContentLoaded event has come. *)
Definition boot (loading : bool) (d : list element) (io : bool) : world :=
  let w := after (main loading (page d io)) in
  if loading then dispatch Document "DOMContentLoaded" w else w.

(** ** Sample pages *)

Definition mk_element (name : string) (classes : list string) (l wd : number) : element :=
  {| localName := name; classList := classes;
     boundingClientRect := {| rect_left := l; rect_width := wd |} |}.

(** A container centred at 500 and sections centred at 100, 520 and 900;
    the last one carries the marker. *)
Definition demo_dom : list element :=
  [ mk_element "div" ["snap-container"] (of_Z 0) (of_Z 1000);
    mk_element "section" ["snap-page"] (of_Z (-400)) (of_Z 1000);
    mk_element "section" ["snap-page"] (of_Z 20) (of_Z 1000);
    mk_element "section" ["snap-page"; "is-visible"] (of_Z 400) (of_Z 1000) ].

(** Two sections at the same distance from the container's centre
    (centres 400 and 600, container centre 500). *)
Definition tie_dom : list element :=
  [ mk_element "div" ["snap-container"] (of_Z 0) (of_Z 1000);
    mk_element "section" ["snap-page"] (of_Z (-100)) (of_Z 1000);
    mk_element "section" ["snap-page"; "is-visible"] (of_Z 100) (of_Z 1000) ].

(** A document without a snap container. *)
Definition bare_dom : list element :=
  [ mk_element "section" ["snap-page"] (of_Z 0) (of_Z 1000) ].

(** The doubles [0.1], [0.4] and [0.30000000000000004], and the largest
    finite double [1.7976931348623157e308]. *)
Definition tenth : number := S754_finite false 7205759403792794 (-56).
Definition four_tenths : number := S754_finite false 7205759403792794 (-54).
Definition three_tenths_up : number := S754_finite false 5404319552844596 (-54).
Definition max_value : number := S754_finite false 9007199254740991 971.

(** A tie that only rounding makes: the container's centre is [0], the
    first section's centre is [0.30000000000000004], and the second
    section's centre [0.1 + 0.4 / 2] rounds to the same double, although
    the real number [0.1 + 0.2] is smaller. *)
Definition rounding_dom : list element :=
  [ mk_element "div" ["snap-container"] (of_Z 0) (of_Z 0);
    mk_element "section" ["snap-page"] three_tenths_up (of_Z 0);
    mk_element "section" ["snap-page"] tenth four_tenths ].

(** One marked section whose centre [left + width / 2] overflows. *)
Definition overflow_dom : list element :=
  [ mk_element "div" ["snap-container"] (of_Z 0) (of_Z 0);
    mk_element "section" ["snap-page"; "is-visible"] max_value max_value ].

(** The sample pages after the script has run on them, observer API
    present. *)
Definition demo_world : world := after (init (page demo_dom true)).
Definition tie_world : world := after (init (page tie_dom true)).

(** The sample page 60 ms after the script ran on it: the 50 ms timer
    has fired, the first and the last section are marked. *)
Definition booted_world : world :=
  default demo_world (advance 1 60 (boot false demo_dom true)).

(** The sample page after the script ran on it without the observer
    API. *)
Definition fallback_world : world := boot false demo_dom false.

(** The two pages above after the script has run on them. *)
Definition rounding_world : world := after (init (page rounding_dom true)).
Definition overflow_world : world := after (init (page overflow_dom true)).

(** An entry for the first section of [demo_dom], half in view. *)
Definition entry_half : entry :=
  {| target := 1; isIntersecting := true; intersectionRatio := 1 # 2 |}.

(** Ten scroll events within 50 ms, from 100 ms to 145 ms. *)
Definition ten_scrolls : list event :=
  map (scroll_at 0) [100; 105; 110; 115; 120; 125; 130; 135; 140; 145]%nat.

(** * Properties *)


(** ** Comparisons *)

Lemma Qltb_lt (x y : Q) : Qltb x y = true <-> (x < y)%Q.
Proof.
  unfold Qltb. rewrite negb_true_iff. split; intros H.
  - apply Qnot_le_lt. intros Hle. apply Qle_bool_iff in Hle. congruence.
  - destruct (Qle_bool y x) eqn:E; [|reflexivity].
    apply Qle_bool_iff in E. exfalso. exact (Qlt_not_le _ _ H E).
Qed.

Lemma Qltb_ge (x y : Q) : Qltb x y = false <-> (y <= x)%Q.
Proof.
  unfold Qltb. rewrite negb_false_iff. apply Qle_bool_iff.
Qed.

(** ** The order of the numbers *)

Lemma lt_number_key (a b : number) :
  lt_number a b = true <->
  is_nan a = false /\ is_nan b = false /\ key_lt (key a) (key b).
Proof.
  unfold lt_number, SFltb, key_lt.
  destruct a as [[]|[]| |[] m1 e1], b as [[]|[]| |[] m2 e2]; simpl;
    try (split; [intros; try discriminate; repeat split; lia
                | intros (? & ? & ?); try discriminate; try reflexivity; lia]).
  all: change (Pos.compare_cont Eq m1 m2) with (m1 ?= m2)%positive;
       destruct (Z.compare_spec e1 e2), (Pos.compare_spec m1 m2); simpl;
       (split; [intros; try discriminate; repeat split; lia
               | intros (? & ? & ?); try discriminate; try reflexivity; lia]).
Qed.

Lemma le_number_key (a b : number) :
  le_number a b = true <->
  is_nan a = false /\ is_nan b = false /\ key_le (key a) (key b).
Proof.
  unfold le_number, SFleb, key_le.
  destruct a as [[]|[]| |[] m1 e1], b as [[]|[]| |[] m2 e2]; simpl;
    try (split; [intros; try discriminate; repeat split; lia
                | intros (? & ? & ?); try discriminate; try reflexivity; lia]).
  all: change (Pos.compare_cont Eq m1 m2) with (m1 ?= m2)%positive;
       destruct (Z.compare_spec e1 e2), (Pos.compare_spec m1 m2); simpl;
       (split; [intros; try discriminate; repeat split; lia
               | intros (? & ? & ?); try discriminate; try reflexivity; lia]).
Qed.

Lemma lt_number_irrefl (a : number) : lt_number a a = false.
Proof.
  destruct (lt_number a a) eqn:E; [|done].
  apply lt_number_key in E as (_ & _ & E). unfold key_lt in E. lia.
Qed.

Lemma lt_number_trans (a b c : number) :
  lt_number a b = true -> lt_number b c = true -> lt_number a c = true.
Proof.
  intros (Ha & _ & Hab)%lt_number_key (_ & Hc & Hbc)%lt_number_key.
  apply lt_number_key. do 2 (split; [done|]).
  unfold key_lt in *. lia.
Qed.

Lemma le_lt_number_trans (a b c : number) :
  le_number a b = true -> lt_number b c = true -> lt_number a c = true.
Proof.
  intros (Ha & _ & Hab)%le_number_key (_ & Hc & Hbc)%lt_number_key.
  apply lt_number_key. do 2 (split; [done|]).
  unfold key_lt, key_le in *. lia.
Qed.

(** Among numbers, [<] and [<=] are the two halves of a total order. *)
Lemma lt_number_false_le (a b : number) :
  is_nan a = false -> is_nan b = false ->
  lt_number b a = false -> le_number a b = true.
Proof.
  intros Ha Hb Hlt. apply le_number_key. do 2 (split; [done|]).
  destruct (decide (key_le (key a) (key b))) as [|Hn]; [done|].
  assert (lt_number b a = true); [|congruence].
  apply lt_number_key. do 2 (split; [done|]).
  unfold key_lt, key_le in *. lia.
Qed.

Lemma le_number_false_lt (a b : number) :
  is_nan a = false -> is_nan b = false ->
  le_number b a = false -> lt_number a b = true.
Proof.
  intros Ha Hb Hle. apply lt_number_key. do 2 (split; [done|]).
  destruct (decide (key_lt (key a) (key b))) as [|Hn]; [done|].
  assert (le_number b a = true); [|congruence].
  apply le_number_key. do 2 (split; [done|]).
  unfold key_lt, key_le in *. lia.
Qed.

Lemma eq_number_le (a b : number) :
  eq_number a b = true -> le_number a b = true.
Proof.
  unfold eq_number, le_number, SFeqb, SFleb.
  by destruct (SFcompare a b) as [[]|].
Qed.

Lemma lt_Infinity_not_nan (a : number) :
  lt_number a Infinity = true -> is_nan a = false.
Proof. by intros (Ha & _)%lt_number_key. Qed.

(** ** The scan of checkVisibleSection *)

Lemma scan_fold (vc : number) (w : world) (l : list nat) :
  forall (t : list effect) (s : scan),
    fold_left (scan_step vc) l (append_trace t w, s) =
    (append_trace (t ++ map GetBoundingClientRect l) w,
     fold_left (pick (fun x => abs (sub (center (rect_of w x)) vc))) l s).
Proof.
  induction l as [|a l IH]; intros t s; cbn [fold_left map].
  - by rewrite app_nil_r.
  - replace (scan_step vc (append_trace t w, s) a)
      with (append_trace (t ++ [GetBoundingClientRect a]) w,
            pick (fun x => abs (sub (center (rect_of w x)) vc)) s a).
    + rewrite IH. by rewrite <- app_assoc.
    + unfold scan_step, pick, record, append_trace, set_trace, rect_of; simpl.
      rewrite <- app_assoc.
      by destruct (lt_number _ _).
Qed.

Lemma findClosest_eq (c : nat) (w : world) :
  findClosest c w =
  (append_trace (GetBoundingClientRect c :: map GetBoundingClientRect (sections (state w))) w,
   fold_left (pick (distance w c)) (sections (state w)) scan0).
Proof.
  unfold findClosest.
  change (record (GetBoundingClientRect c) w)
    with (append_trace [GetBoundingClientRect c] w).
  change (sections (state (append_trace [GetBoundingClientRect c] w)))
    with (sections (state w)).
  by rewrite scan_fold.
Qed.

(** What the linear scan computes.  Either no distance is below
    [Infinity] and the two locals are as they were initialised, or the
    scan ends on the first position of a distance that no other distance
    is below: nothing is [<] it, and nothing before it is [<=] it. *)
Lemma pick_fold_spec (d : nat -> number) (l : list nat) :
  match closestSection (fold_left (pick d) l scan0) with
  | None =>
      fold_left (pick d) l scan0 = scan0 /\
      (forall j y, l !! j = Some y -> lt_number (d y) Infinity = false)
  | Some x =>
      exists k : nat,
        l !! k = Some x /\
        fold_left (pick d) l scan0 = {| closestSection := Some x; minDistance := d x |} /\
        lt_number (d x) Infinity = true /\
        (forall j y, l !! j = Some y -> lt_number (d y) (d x) = false) /\
        (forall j y, (j < k)%nat -> l !! j = Some y -> le_number (d y) (d x) = false)
  end.
Proof.
  induction l as [|a l IH] using rev_ind; [done|].
  rewrite fold_left_app. cbn [fold_left].
  destruct (closestSection (fold_left (pick d) l scan0)) as [x|] eqn:Ex.
  - destruct IH as (k & Hk & Hfold & Hfin & Hmin & Hfirst).
    rewrite Hfold. unfold pick; cbn [minDistance].
    destruct (lt_number (d a) (d x)) eqn:E; cbn [closestSection].
    + exists (length l). split; [by rewrite list_lookup_middle|]. split; [done|].
      split; [by eapply lt_number_trans|].
      split.
      * intros j y [[Hj Hy]|[_ <-]]%lookup_snoc_Some; [|apply lt_number_irrefl].
        destruct (lt_number (d y) (d a)) eqn:E'; [|done].
        rewrite <- (Hmin j y Hy). symmetry. by eapply lt_number_trans.
      * intros j y Hj [[_ Hy]|[? _]]%lookup_snoc_Some; [|lia].
        destruct (le_number (d y) (d a)) eqn:E'; [|done].
        rewrite <- (Hmin j y Hy). symmetry. by eapply le_lt_number_trans.
    + exists k. split.
      { rewrite lookup_app_l; [done|]. by eapply lookup_lt_Some. }
      split; [done|]. split; [done|]. split.
      * intros j y [[Hj Hy]|[_ <-]]%lookup_snoc_Some; [by eapply Hmin|done].
      * intros j y Hj [[_ Hy]|[? _]]%lookup_snoc_Some; [by eapply Hfirst|].
        apply lookup_lt_Some in Hk. lia.
  - destruct IH as (Hfold & Hnone).
    rewrite Hfold. unfold pick, scan0; cbn [minDistance].
    destruct (lt_number (d a) Infinity) eqn:E; cbn [closestSection].
    + exists (length l). split; [by rewrite list_lookup_middle|]. split; [done|].
      split; [done|]. split.
      * intros j y [[Hj Hy]|[_ <-]]%lookup_snoc_Some; [|apply lt_number_irrefl].
        destruct (lt_number (d y) (d a)) eqn:E'; [|done].
        rewrite <- (Hnone j y Hy). symmetry. by eapply lt_number_trans.
      * intros j y Hj [[_ Hy]|[? _]]%lookup_snoc_Some; [|lia].
        destruct (le_number (d y) (d a)) eqn:E'; [|done].
        rewrite <- (Hnone j y Hy). symmetry. by eapply le_lt_number_trans.
    + split; [done|].
      intros j y [[Hj Hy]|[_ <-]]%lookup_snoc_Some; [by eapply Hnone|done].
Qed.

(** The scan selects a section exactly when some distance is below
    [Infinity]. *)
Lemma selectable_closest (w : world) (c : nat) :
  selectable w c <-> is_Some (closest w c).
Proof.
  unfold selectable, closest.
  pose proof (pick_fold_spec (distance w c) (sections (state w))) as H.
  destruct (closestSection _) as [x|].
  - destruct H as (k & Hk & _ & Hfin & _). split; [by eexists|]. intros _.
    apply Exists_exists. exists x. split; [|done].
    apply list_elem_of_lookup. by exists k.
  - destruct H as (_ & Hnone). split; [|by intros [? ?]].
    intros (y & [j Hj]%list_elem_of_lookup & Hy)%Exists_exists.
    unfold finite_distance in Hy. rewrite (Hnone j y Hj) in Hy. done.
Qed.

(** ** Class tokens *)

Lemma token_contains_true (c : string) (l : list string) :
  token_contains c l = true <-> c ∈ l.
Proof. unfold token_contains. by rewrite bool_decide_eq_true. Qed.

Lemma token_remove_absent (c : string) (l : list string) :
  token_contains c (token_remove c l) = false.
Proof.
  apply not_true_is_false. rewrite token_contains_true.
  unfold token_remove. rewrite list_elem_of_filter. by intros [? _].
Qed.

Lemma token_add_present (c : string) (l : list string) :
  token_contains c (token_add c l) = true.
Proof.
  unfold token_add. destruct (token_contains c l) eqn:E; [done|].
  apply token_contains_true, elem_of_app. right. by apply list_elem_of_singleton.
Qed.

Lemma token_remove_idem (c : string) (l : list string) :
  token_remove c (token_remove c l) = token_remove c l.
Proof.
  unfold token_remove. induction l as [|x l IH]; [done|].
  rewrite filter_cons. destruct (decide (x ≠ c)); [|done].
  rewrite filter_cons_True by done. by rewrite IH.
Qed.

Lemma token_remove_add (c : string) (l : list string) :
  token_remove c (token_add c l) = token_remove c l.
Proof.
  unfold token_add. destruct (token_contains c l); [done|].
  unfold token_remove. rewrite filter_app, filter_cons_False, filter_nil.
  - by rewrite app_nil_r.
  - by intros H.
Qed.

(** ** Updates of the document and the trace *)

Lemma upd_id (w : world) : upd (dom w) [] w = w.
Proof. destruct w; unfold upd, set_trace, set_dom; simpl. by rewrite app_nil_r. Qed.

Lemma upd_upd d1 t1 d2 t2 w : upd d2 t2 (upd d1 t1 w) = upd d2 (t1 ++ t2) w.
Proof. unfold upd, set_trace, set_dom; simpl. by rewrite <- app_assoc. Qed.

Lemma record_upd e d t w : record e (upd d t w) = upd d (t ++ [e]) w.
Proof. unfold record, upd, set_trace, set_dom; simpl. by rewrite <- app_assoc. Qed.

Lemma record_eq e w : record e w = upd (dom w) [e] w.
Proof. by destruct w. Qed.

Lemma append_trace_upd l w : append_trace l w = upd (dom w) l w.
Proof. by destruct w. Qed.

Lemma classList_remove_upd el d t w :
  classList_remove el marker (upd d t w) =
  Normal (upd (alter unmark el d) (t ++ [ClassRemove el marker]) w).
Proof. unfold classList_remove, pure. by rewrite <- record_upd. Qed.

Lemma classList_add_upd el d t w :
  classList_add el marker (upd d t w) =
  Normal (upd (alter mark el d) (t ++ [ClassAdd el marker]) w).
Proof. unfold classList_add, pure. by rewrite <- record_upd. Qed.

Lemma retrigger_upd el d t w :
  retrigger el (upd d t w) =
  Normal (upd (alter mark el (alter unmark el d)) (t ++ cycle el) w).
Proof.
  unfold retrigger, andThen. rewrite classList_remove_upd.
  unfold offsetWidth, pure.
  rewrite record_upd, classList_add_upd.
  by rewrite <- !app_assoc.
Qed.

Lemma forEach_reset_others cl (l : list nat) :
  forall d t w,
    forEach (reset_others cl) l (upd d t w) =
    Normal (upd (clear_marker (others cl l) d)
                (t ++ map (fun x => ClassRemove x marker) (others cl l)) w).
Proof.
  induction l as [|x l IH]; intros d t w; cbn [forEach].
  - unfold ret. by rewrite app_nil_r.
  - unfold andThen, reset_others, others. rewrite filter_cons.
    destruct (decide (Some x = cl)) as [E|E].
    + rewrite decide_False by (by intros H). unfold ret. apply IH.
    + rewrite decide_True by done. rewrite classList_remove_upd, IH.
      cbn [map clear_marker fold_left]. by rewrite <- app_assoc.
Qed.

Lemma checkVisibleSection_eq (w : world) (c : nat) :
  container (state w) = Some c ->
  checkVisibleSection w = Normal (upd (recompute_dom w c) (recompute_trace w c) w).
Proof.
  intros Hc. unfold checkVisibleSection. rewrite Hc.
  rewrite findClosest_eq. rewrite append_trace_upd.
  change (dom (record Recompute w)) with (dom w).
  change (sections (state (record Recompute w))) with (sections (state w)).
  change (distance (record Recompute w) c) with (distance w c).
  change (sections (state (upd _ _ _))) with (sections (state w)).
  fold (closest w c).
  rewrite (record_eq Recompute w).
  rewrite upd_upd. unfold andThen. rewrite forEach_reset_others.
  unfold recompute_dom, recompute_trace.
  destruct (closest w c) as [el|].
  - rewrite retrigger_upd. simpl. by rewrite <- ?app_assoc.
  - unfold ret. simpl. by rewrite <- ?app_assoc, ?app_nil_r.
Qed.

(** ** The document after a recompute *)

Lemma unmark_idem (e : element) : unmark (unmark e) = unmark e.
Proof. unfold unmark, with_classList; simpl. by rewrite token_remove_idem. Qed.

Lemma clear_marker_length (l : list nat) :
  forall d, length (clear_marker l d) = length d.
Proof.
  induction l as [|x l IH]; intros d; simpl; [done|].
  unfold clear_marker in IH. by rewrite IH, length_alter.
Qed.

Lemma clear_marker_lookup (l : list nat) (i : nat) :
  forall (d : list element) (e : element),
    d !! i = Some e ->
    clear_marker l d !! i = Some (if bool_decide (i ∈ l) then unmark e else e).
Proof.
  induction l as [|x l IH]; intros d e He; simpl.
  - done.
  - fold (clear_marker l (alter unmark x d)).
    destruct (decide (x = i)) as [->|Hne].
    + rewrite (IH _ (unmark e)) by (by rewrite list_lookup_alter_eq, He).
      rewrite (bool_decide_eq_true_2 (i ∈ i :: l)) by apply list_elem_of_here.
      destruct (bool_decide (i ∈ l)); [apply f_equal, unmark_idem | done].
    + rewrite (IH _ e) by (by rewrite list_lookup_alter_ne).
      destruct (decide (i ∈ l)) as [Hin|Hnin].
      * rewrite !bool_decide_eq_true_2; [done| |done]. by apply list_elem_of_further.
      * rewrite !bool_decide_eq_false_2; [done| |done].
        rewrite elem_of_cons. intuition congruence.
Qed.

Lemma recompute_dom_length (w : world) (c : nat) :
  length (recompute_dom w c) = length (dom w).
Proof.
  unfold recompute_dom. destruct (closest w c);
    by rewrite ?length_alter, clear_marker_length.
Qed.

(** Element by element: the selected section ends marked, every other
    section of the list ends unmarked, the rest is untouched. *)
Lemma recompute_dom_lookup (w : world) (c i : nat) (e : element) :
  dom w !! i = Some e ->
  recompute_dom w c !! i =
  Some (if bool_decide (closest w c = Some i) then mark (unmark e)
        else if bool_decide (i ∈ sections (state w)) then unmark e
        else e).
Proof.
  intros He. unfold recompute_dom.
  destruct (closest w c) as [s|] eqn:Hs.
  - destruct (decide (s = i)) as [->|Hne].
    + rewrite bool_decide_eq_true_2 by done.
      rewrite !list_lookup_alter_eq, (clear_marker_lookup _ _ _ e) by done.
      simpl. destruct (bool_decide _); [by rewrite unmark_idem | done].
    + rewrite bool_decide_eq_false_2 by congruence.
      rewrite !list_lookup_alter_ne by done.
      rewrite (clear_marker_lookup _ _ _ e) by done.
      f_equal. apply (f_equal (fun b : bool => if b then unmark e else e)).
      apply bool_decide_ext. unfold others.
      rewrite list_elem_of_filter. intuition congruence.
  - rewrite bool_decide_eq_false_2 by done.
    rewrite (clear_marker_lookup _ _ _ e) by done.
    f_equal. apply (f_equal (fun b : bool => if b then unmark e else e)).
    apply bool_decide_ext. unfold others.
    rewrite list_elem_of_filter. intuition congruence.
Qed.

(** ** Well-formed references *)

Lemma querySelectorAll_sections_NoDup (d : list element) :
  NoDup (querySelectorAll_sections d).
Proof. unfold querySelectorAll_sections. apply NoDup_filter, NoDup_seq. Qed.

Lemma querySelectorAll_sections_range (d : list element) (s : nat) :
  s ∈ querySelectorAll_sections d -> (s < length d)%nat.
Proof.
  unfold querySelectorAll_sections. rewrite list_elem_of_filter, elem_of_seq. lia.
Qed.

Lemma querySelector_container_range (d : list element) (c : nat) :
  querySelector_container d = Some c -> (c < length d)%nat.
Proof.
  unfold querySelector_container. intros H.
  destruct (list_find is_snap_container d) as [[i e]|] eqn:E; [|done].
  simpl in H. injection H as <-.
  apply list_find_Some in E as (He & _). by eapply lookup_lt_Some.
Qed.

(** The scan's result, with the position it was found at. *)
Lemma closest_spec (w : world) (c s : nat) :
  closest w c = Some s ->
  exists k : nat,
    sections (state w) !! k = Some s /\
    finite_distance w c s /\
    (forall j s', sections (state w) !! j = Some s' ->
                  lt_number (distance w c s') (distance w c s) = false) /\
    (forall j s', (j < k)%nat -> sections (state w) !! j = Some s' ->
                  le_number (distance w c s') (distance w c s) = false).
Proof.
  unfold closest. intros H.
  pose proof (pick_fold_spec (distance w c) (sections (state w))) as Hspec.
  rewrite H in Hspec. destruct Hspec as (k & Hk & _ & Hfin & Hmin & Hfirst).
  by exists k.
Qed.

Lemma closest_in_sections (w : world) (c s : nat) :
  closest w c = Some s -> s ∈ sections (state w).
Proof.
  intros (k & Hk & _)%closest_spec. by eapply list_elem_of_lookup_2.
Qed.

Lemma closest_is_Some (w : world) (c : nat) :
  selectable w c -> is_Some (closest w c).
Proof. apply selectable_closest. Qed.

Lemma filter_singleton (P : nat -> Prop) `{HP_dec : !forall x, Decision (P x)}
      (l : list nat) (s : nat) :
  NoDup l -> s ∈ l -> (forall x, x ∈ l -> P x <-> x = s) -> filter P l = [s].
Proof.
  induction l as [|a l IH]; intros Hnd Hin HP.
  - by apply elem_of_nil in Hin.
  - apply NoDup_cons in Hnd as [Ha Hnd].
    rewrite filter_cons.
    destruct (decide (a = s)) as [->|Hne].
    + rewrite decide_True by (apply HP; [apply list_elem_of_here | done]).
      f_equal. clear IH Hin.
      induction l as [|b l IHl]; [done|].
      rewrite filter_cons_False.
      * apply IHl.
        -- intros Hs. apply Ha. by apply list_elem_of_further.
        -- by apply NoDup_cons in Hnd as [_ ?].
        -- intros x Hx. apply HP. rewrite !elem_of_cons in *. intuition congruence.
      * intros Hb. apply Ha.
        assert (b = s) as -> by (apply HP; [|done]; rewrite !elem_of_cons; intuition congruence).
        apply list_elem_of_here.
    + rewrite decide_False.
      * apply IH; [done| |].
        -- apply elem_of_cons in Hin as [?|?]; [congruence | done].
        -- intros x Hx. apply HP. by apply list_elem_of_further.
      * intros Hp. apply Hne. apply HP; [apply list_elem_of_here | done].
Qed.

(** ** The sample pages *)

Example demo_recompute :
  closest demo_world 0 = Some 2%nat /\
  map classList (dom (after (checkVisibleSection demo_world))) =
  [["snap-container"]; ["snap-page"]; ["snap-page"; "is-visible"]; ["snap-page"]].
Proof. split; reflexivity. Qed.

Example tie_recompute :
  closest tie_world 0 = Some 1%nat /\
  map classList (dom (after (checkVisibleSection tie_world))) =
  [["snap-container"]; ["snap-page"; "is-visible"]; ["snap-page"]].
Proof. split; reflexivity. Qed.

(** The second section's centre rounds up to the first one's: the
    distances are equal as the script computes them, and the first
    section is kept. *)
Example rounding_recompute :
  center (rect_of rounding_world 2) = three_tenths_up /\
  distance rounding_world 0 2 = distance rounding_world 0 1 /\
  closest rounding_world 0 = Some 1%nat /\
  map classList (dom (after (checkVisibleSection rounding_world))) =
  [["snap-container"]; ["snap-page"; "is-visible"]; ["snap-page"]].
Proof. repeat split; reflexivity. Qed.

(** The only section's centre overflows: its distance is [Infinity],
    which is not below the initial [minDistance], so that the scan
    selects nothing and the recompute only removes the marker. *)
Example overflow_recompute :
  center (rect_of overflow_world 1) = Infinity /\
  distance overflow_world 0 1 = Infinity /\
  ~ selectable overflow_world 0 /\
  closestSection (snd (findClosest 0 overflow_world)) = None /\
  map classList (dom (after (checkVisibleSection overflow_world))) =
  [["snap-container"]; ["snap-page"]] /\
  visibleSections (getState (after (checkVisibleSection overflow_world))) = 0%nat.
Proof.
  split; [reflexivity|]. split; [reflexivity|].
  split; [exact (bool_decide_unpack (~ selectable overflow_world 0) I)|].
  repeat split; reflexivity.
Qed.

(** ** Selection *)

Lemma recompute_trace_Some (w : world) (c s : nat) :
  closest w c = Some s ->
  recompute_trace w c =
  (Recompute :: GetBoundingClientRect c ::
     map GetBoundingClientRect (sections (state w)) ++
     map (fun x => ClassRemove x marker) (others (Some s) (sections (state w)))) ++
  cycle s.
Proof.
  intros Hs. unfold recompute_trace. rewrite Hs. simpl. by rewrite <- app_assoc.
Qed.

(** C1: for every layout in which some section's distance to the
    container's centre, as the script computes it in double precision, is
    below [Infinity], the recompute selects a section whose computed
    distance is least: it is below [Infinity], no section's distance is
    [<] it, and it is [<=] every distance that is a number.  Among the
    sections at that least distance it is the first one in array order: no
    section before the selected one has a distance [<=] the selected one's
    (each is strictly farther away, if its distance is a number), and every
    section at an equal distance comes at or after it.  The selected
    section is the one whose class is added last. *)
Theorem checkVisibleSection_selects_closest (w : world) (c : nat) :
  container (state w) = Some c ->
  selectable w c ->
  exists (k s : nat) (w' : world),
    checkVisibleSection w = Normal w' /\
    closestSection (snd (findClosest c w)) = Some s /\
    sections (state w) !! k = Some s /\
    finite_distance w c s /\
    (forall j s', sections (state w) !! j = Some s' ->
                  lt_number (distance w c s') (distance w c s) = false /\
                  (is_nan (distance w c s') = false ->
                   le_number (distance w c s) (distance w c s') = true)) /\
    (forall j s', (j < k)%nat -> sections (state w) !! j = Some s' ->
                  le_number (distance w c s') (distance w c s) = false /\
                  (is_nan (distance w c s') = false ->
                   lt_number (distance w c s) (distance w c s') = true)) /\
    (forall j s', sections (state w) !! j = Some s' ->
                  eq_number (distance w c s') (distance w c s) = true -> (k <= j)%nat) /\
    last (trace w') = Some (ClassAdd s marker).
Proof.
  intros Hc Hsel.
  destruct (closest_is_Some w c Hsel) as [s Hcl].
  destruct (closest_spec w c s Hcl) as (k & Hk & Hfin & Hmin & Hfirst).
  pose proof (lt_Infinity_not_nan _ Hfin) as Hnan.
  exists k, s, (upd (recompute_dom w c) (recompute_trace w c) w).
  split; [by apply checkVisibleSection_eq|].
  split; [by rewrite findClosest_eq|].
  split; [done|]. split; [done|]. split; [|split; [|split]].
  - intros j s' Hj. split; [by eapply Hmin|].
    intros Hnan'. apply lt_number_false_le; [done..|]. by eapply Hmin.
  - intros j s' Hlt Hj. split; [by eapply Hfirst|].
    intros Hnan'. apply le_number_false_lt; [done..|]. by eapply Hfirst.
  - intros j s' Hj Heq.
    destruct (decide (k <= j)%nat) as [|Hlt]; [done|].
    apply eq_number_le in Heq. rewrite (Hfirst j s') in Heq; [done|lia|done].
  - unfold upd; simpl. rewrite (recompute_trace_Some _ _ _ Hcl).
    unfold cycle.
    change [ClassRemove s marker; OffsetWidth s; ClassAdd s marker]
      with ([ClassRemove s marker; OffsetWidth s] ++ [ClassAdd s marker]).
    by rewrite !app_assoc, last_snoc.
Qed.

Lemma checkVisibleSection_selects_closest_witness :
  exists (k s : nat) (w' : world),
    checkVisibleSection tie_world = Normal w' /\
    closestSection (snd (findClosest 0 tie_world)) = Some s /\
    sections (state tie_world) !! k = Some s /\
    finite_distance tie_world 0 s /\
    (forall j s', sections (state tie_world) !! j = Some s' ->
                  lt_number (distance tie_world 0 s') (distance tie_world 0 s) = false /\
                  (is_nan (distance tie_world 0 s') = false ->
                   le_number (distance tie_world 0 s) (distance tie_world 0 s') = true)) /\
    (forall j s', (j < k)%nat -> sections (state tie_world) !! j = Some s' ->
                  le_number (distance tie_world 0 s') (distance tie_world 0 s) = false /\
                  (is_nan (distance tie_world 0 s') = false ->
                   lt_number (distance tie_world 0 s) (distance tie_world 0 s') = true)) /\
    (forall j s', sections (state tie_world) !! j = Some s' ->
                  eq_number (distance tie_world 0 s') (distance tie_world 0 s) = true ->
                  (k <= j)%nat) /\
    last (trace w') = Some (ClassAdd s marker).
Proof.
  apply (checkVisibleSection_selects_closest tie_world 0);
    [reflexivity | exact (bool_decide_unpack (selectable tie_world 0) I)].
Defined.

(** ** Exclusivity *)

Lemma classList_contains_upd (s : nat) (d : list element) (t : list effect) (w : world) :
  classList_contains s marker (upd d t w) =
  match d !! s with
  | Some e => token_contains marker (classList e)
  | None => false
  end.
Proof. reflexivity. Qed.

(** C2: after one recompute with a container and with a section whose
    computed distance to the container's centre is below [Infinity] (so
    that there is at least one section, and the scan selects one), one
    section carries [is-visible] and every other section does not,
    whatever the classes were before; [getState] counts one visible
    section. *)
Theorem checkVisibleSection_exclusive (w : world) (c : nat) :
  wf w ->
  container (state w) = Some c ->
  selectable w c ->
  exists (w' : world) (s : nat),
    checkVisibleSection w = Normal w' /\
    sections (state w') = sections (state w) /\
    s ∈ sections (state w) /\
    classList_contains s marker w' = true /\
    (forall s', s' ∈ sections (state w) -> s' <> s ->
                classList_contains s' marker w' = false) /\
    visibleSections (getState w') = 1%nat.
Proof.
  intros [Hnd Hrange] Hc Hne. rewrite Forall_forall in Hrange.
  destruct (closest_is_Some w c Hne) as [s Hs].
  pose proof (closest_in_sections _ _ _ Hs) as Hin.
  exists (upd (recompute_dom w c) (recompute_trace w c) w), s.
  assert (Hmarked : classList_contains s marker
                      (upd (recompute_dom w c) (recompute_trace w c) w) = true).
  { rewrite classList_contains_upd.
    destruct (lookup_lt_is_Some_2 (dom w) s (Hrange s Hin)) as [e He].
    rewrite (recompute_dom_lookup _ _ _ e He), bool_decide_eq_true_2 by done.
    apply token_add_present. }
  assert (Hothers : forall s', s' ∈ sections (state w) -> s' <> s ->
            classList_contains s' marker
              (upd (recompute_dom w c) (recompute_trace w c) w) = false).
  { intros s' Hin' Hneq. rewrite classList_contains_upd.
    destruct (lookup_lt_is_Some_2 (dom w) s' (Hrange s' Hin')) as [e He].
    rewrite (recompute_dom_lookup _ _ _ e He).
    rewrite bool_decide_eq_false_2 by congruence.
    rewrite bool_decide_eq_true_2 by done.
    apply token_remove_absent. }
  split; [by apply checkVisibleSection_eq|].
  split; [done|]. split; [done|]. split; [done|]. split; [done|].
  unfold getState; cbn [visibleSections].
  change (sections (state (upd _ _ w))) with (sections (state w)).
  rewrite (filter_singleton _ _ s Hnd Hin); [done|].
  intros x Hx. split.
  - intros Hv. destruct (decide (x = s)) as [|Hneq]; [done|].
    rewrite Hothers in Hv; done.
  - by intros ->.
Qed.

Lemma checkVisibleSection_exclusive_witness :
  exists (w' : world) (s : nat),
    checkVisibleSection demo_world = Normal w' /\
    sections (state w') = sections (state demo_world) /\
    s ∈ sections (state demo_world) /\
    classList_contains s marker w' = true /\
    (forall s', s' ∈ sections (state demo_world) -> s' <> s ->
                classList_contains s' marker w' = false) /\
    visibleSections (getState w') = 1%nat.
Proof.
  apply (checkVisibleSection_exclusive demo_world 0);
    [exact (bool_decide_unpack (wf demo_world) I) | reflexivity
    | exact (bool_decide_unpack (selectable demo_world 0) I)].
Defined.

(** ** Retriggering *)

Lemma pick_fold_ext (d1 d2 : nat -> number) (l : list nat) :
  (forall x, d1 x = d2 x) ->
  forall s, fold_left (pick d1) l s = fold_left (pick d2) l s.
Proof.
  intros Hd. induction l as [|a l IH]; intros s; simpl; [done|].
  rewrite IH. unfold pick. by rewrite Hd.
Qed.

Lemma mark_rect (e : element) : boundingClientRect (mark e) = boundingClientRect e.
Proof. reflexivity. Qed.

Lemma unmark_rect (e : element) : boundingClientRect (unmark e) = boundingClientRect e.
Proof. reflexivity. Qed.

(** A recompute leaves the layout it read as it was. *)
Lemma recompute_rect_of (w : world) (c i : nat) (t : list effect) :
  rect_of (upd (recompute_dom w c) t w) i = rect_of w i.
Proof.
  unfold rect_of. change (dom (upd (recompute_dom w c) t w)) with (recompute_dom w c).
  destruct (dom w !! i) as [e|] eqn:He.
  - rewrite (recompute_dom_lookup _ _ _ e He).
    by repeat destruct (bool_decide _).
  - rewrite (proj2 (lookup_ge_None (recompute_dom w c) i)); [done|].
    rewrite recompute_dom_length. by apply lookup_ge_None.
Qed.

Lemma recompute_closest (w : world) (c : nat) (t : list effect) :
  closest (upd (recompute_dom w c) t w) c = closest w c.
Proof.
  unfold closest. change (sections (state (upd _ t w))) with (sections (state w)).
  f_equal. apply pick_fold_ext. intros x. unfold distance.
  by rewrite !recompute_rect_of.
Qed.

Lemma recompute_distance (w : world) (c y : nat) (t : list effect) :
  distance (upd (recompute_dom w c) t w) c y = distance w c y.
Proof. unfold distance. by rewrite !recompute_rect_of. Qed.

(** A recompute writes classes only: what was selectable stays so. *)
Lemma selectable_recompute (w : world) (c : nat) (t : list effect) :
  selectable w c -> selectable (upd (recompute_dom w c) t w) c.
Proof.
  unfold selectable. change (sections (state (upd _ t w))) with (sections (state w)).
  intros H. eapply Exists_impl; [exact H|]. intros y Hy. unfold finite_distance.
  by rewrite recompute_distance.
Qed.

Lemma recompute_prefix_quiet (w : world) (c s : nat) :
  Forall (fun e => ~ writes_to s e)
    (Recompute :: GetBoundingClientRect c ::
       map GetBoundingClientRect (sections (state w)) ++
       map (fun x => ClassRemove x marker) (others (Some s) (sections (state w)))).
Proof.
  repeat apply Forall_cons_2; try (by intros []).
  apply Forall_app_2.
  - apply Forall_forall. intros e He. apply list_elem_of_fmap in He as (x & -> & _).
    by intros [].
  - apply Forall_forall. intros e He. apply list_elem_of_fmap in He as (x & -> & Hx).
    unfold others in Hx. apply list_elem_of_filter in Hx as [Hx _].
    simpl. congruence.
Qed.

(** C3: every recompute that selects a section ends with the cycle
    remove, layout read, add on that section, whatever its classes were;
    nothing before the cycle touches the section's classes.  Two recomputes
    in a row on the same layout select the same section and each performs
    the cycle. *)
Theorem checkVisibleSection_retriggers (w : world) (c s : nat) :
  container (state w) = Some c ->
  closestSection (snd (findClosest c w)) = Some s ->
  exists (w1 w2 : world) (pre1 pre2 : list effect),
    checkVisibleSection w = Normal w1 /\
    trace w1 = trace w ++ pre1 ++ cycle s /\
    Forall (fun e => ~ writes_to s e) pre1 /\
    closestSection (snd (findClosest c w1)) = Some s /\
    checkVisibleSection w1 = Normal w2 /\
    trace w2 = trace w1 ++ pre2 ++ cycle s /\
    Forall (fun e => ~ writes_to s e) pre2.
Proof.
  intros Hc Hs. rewrite findClosest_eq in Hs. cbn [snd] in Hs. fold (closest w c) in Hs.
  set (w1 := upd (recompute_dom w c) (recompute_trace w c) w).
  assert (Hs1 : closest w1 c = Some s) by (unfold w1; by rewrite recompute_closest).
  assert (Hc1 : container (state w1) = Some c) by done.
  exists w1, (upd (recompute_dom w1 c) (recompute_trace w1 c) w1).
  eexists _, _.
  split; [by apply checkVisibleSection_eq|].
  split; [unfold w1, upd; simpl; by rewrite (recompute_trace_Some _ _ _ Hs)|].
  split; [apply recompute_prefix_quiet|].
  split; [by rewrite findClosest_eq|].
  split; [by apply checkVisibleSection_eq|].
  split; [unfold upd at 1; simpl; by rewrite (recompute_trace_Some _ _ _ Hs1)|].
  apply recompute_prefix_quiet.
Qed.

Lemma checkVisibleSection_retriggers_witness :
  exists (w1 w2 : world) (pre1 pre2 : list effect),
    checkVisibleSection demo_world = Normal w1 /\
    trace w1 = trace demo_world ++ pre1 ++ cycle 2 /\
    Forall (fun e => ~ writes_to 2 e) pre1 /\
    closestSection (snd (findClosest 0 w1)) = Some 2%nat /\
    checkVisibleSection w1 = Normal w2 /\
    trace w2 = trace w1 ++ pre2 ++ cycle 2 /\
    Forall (fun e => ~ writes_to 2 e) pre2.
Proof.
  apply (checkVisibleSection_retriggers demo_world 0 2); reflexivity.
Defined.

(** ** The null guard *)

Lemma checkVisibleSection_null_container_aux (w : world) :
  container (state w) = None -> checkVisibleSection w = Normal w.
Proof. intros Hc. unfold checkVisibleSection. by rewrite Hc. Qed.

(** C10: with [container] null the recompute returns at once: it
    completes normally and the world, the classes of every element
    included, is the one it was called in. *)
Theorem checkVisibleSection_null_container (w : world) :
  container (state w) = None ->
  checkVisibleSection w = Normal w /\
  run_callback CbCheckVisibleSection w = Normal w.
Proof. intros Hc. split; by apply checkVisibleSection_null_container_aux. Qed.

Lemma checkVisibleSection_null_container_witness :
  checkVisibleSection (page demo_dom true) = Normal (page demo_dom true) /\
  run_callback CbCheckVisibleSection (page demo_dom true) = Normal (page demo_dom true).
Proof. apply checkVisibleSection_null_container. reflexivity. Defined.

(** ** The observer callback *)

Lemma upd_start (w : world) : w = upd (dom w) [] w.
Proof. by rewrite upd_id. Qed.

Lemma retrigger_eq (el : nat) (w : world) :
  retrigger el w = Normal (upd (alter mark el (alter unmark el (dom w))) (cycle el) w).
Proof. rewrite (upd_start w) at 1. by rewrite retrigger_upd. Qed.

Lemma classList_remove_eq (el : nat) (w : world) :
  classList_remove el marker w =
  Normal (upd (alter unmark el (dom w)) [ClassRemove el marker] w).
Proof. rewrite (upd_start w) at 1. by rewrite classList_remove_upd. Qed.

Lemma classList_add_eq (el : nat) (w : world) :
  classList_add el marker w =
  Normal (upd (alter mark el (dom w)) [ClassAdd el marker] w).
Proof. rewrite (upd_start w) at 1. by rewrite classList_add_upd. Qed.

(** C4: one entry of an observer notification.  A ratio of at least
    0.3 retriggers the target: class removed, layout read, class added.  A
    ratio below 0.1 removes the class.  A ratio from 0.1 up to, but not
    including, 0.3 leaves the world as it is. *)
Theorem observerEntry_thresholds (e : entry) (w : world) :
  entry_consistent e ->
  ((3 # 10 <= intersectionRatio e)%Q ->
     observerEntry e w =
     Normal (upd (alter mark (target e) (alter unmark (target e) (dom w)))
                 [ClassRemove (target e) marker; OffsetWidth (target e);
                  ClassAdd (target e) marker] w)) /\
  ((intersectionRatio e < 1 # 10)%Q ->
     observerEntry e w =
     Normal (upd (alter unmark (target e) (dom w)) [ClassRemove (target e) marker] w)) /\
  ((1 # 10 <= intersectionRatio e)%Q -> (intersectionRatio e < 3 # 10)%Q ->
     observerEntry e w = Normal w).
Proof.
  intros Hcons. unfold observerEntry. repeat split.
  - intros Hhi.
    rewrite Hcons by (eapply Qlt_le_trans; [|exact Hhi]; reflexivity).
    rewrite (proj2 (Qle_bool_iff _ _) Hhi). simpl. apply retrigger_eq.
  - intros Hlo.
    assert (Qle_bool (3 # 10) (intersectionRatio e) = false) as ->.
    { apply not_true_is_false. intros H. apply Qle_bool_iff in H.
      apply (Qlt_irrefl (1 # 10)). eapply Qle_lt_trans; [|exact Hlo].
      eapply Qle_trans; [|exact H]. discriminate. }
    rewrite andb_false_r. rewrite (proj2 (Qltb_lt _ _) Hlo).
    apply classList_remove_eq.
  - intros Hge Hlt.
    assert (Qle_bool (3 # 10) (intersectionRatio e) = false) as ->.
    { apply not_true_is_false. intros H. apply Qle_bool_iff in H.
      exact (Qlt_not_le _ _ Hlt H). }
    rewrite andb_false_r. by rewrite (proj2 (Qltb_ge _ _) Hge).
Qed.

Lemma observerEntry_thresholds_witness :
  ((3 # 10 <= intersectionRatio entry_half)%Q ->
     observerEntry entry_half demo_world =
     Normal (upd (alter mark (target entry_half)
                    (alter unmark (target entry_half) (dom demo_world)))
                 [ClassRemove (target entry_half) marker; OffsetWidth (target entry_half);
                  ClassAdd (target entry_half) marker] demo_world)) /\
  ((intersectionRatio entry_half < 1 # 10)%Q ->
     observerEntry entry_half demo_world =
     Normal (upd (alter unmark (target entry_half) (dom demo_world))
                 [ClassRemove (target entry_half) marker] demo_world)) /\
  ((1 # 10 <= intersectionRatio entry_half)%Q -> (intersectionRatio entry_half < 3 # 10)%Q ->
     observerEntry entry_half demo_world = Normal demo_world).
Proof.
  apply (observerEntry_thresholds entry_half demo_world).
  exact (bool_decide_unpack (entry_consistent entry_half) I).
Defined.

Example observer_examples :
  map classList (dom (after (observerEntry entry_half demo_world))) =
    [["snap-container"]; ["snap-page"; "is-visible"]; ["snap-page"];
     ["snap-page"; "is-visible"]] /\
  map classList (dom (after (observerEntry
     {| target := 3; isIntersecting := true; intersectionRatio := 5 # 100 |} demo_world))) =
    [["snap-container"]; ["snap-page"]; ["snap-page"]; ["snap-page"]] /\
  observerEntry {| target := 3; isIntersecting := true; intersectionRatio := 2 # 10 |}
    demo_world = Normal demo_world.
Proof. repeat split; reflexivity. Qed.

(** ** What an operation may change in the document *)

Lemma same_but_marker_refl (e : element) : same_but_marker e e.
Proof. done. Qed.

Lemma same_but_marker_trans (e1 e2 e3 : element) :
  same_but_marker e1 e2 -> same_but_marker e2 e3 -> same_but_marker e1 e3.
Proof. intros (?&?&?) (?&?&?). repeat split; congruence. Qed.

Lemma same_but_marker_unmark (e : element) : same_but_marker e (unmark e).
Proof. repeat split. simpl. apply token_remove_idem. Qed.

Lemma same_but_marker_mark (e : element) : same_but_marker e (mark e).
Proof. repeat split. simpl. apply token_remove_add. Qed.

Lemma marker_only_refl (S : list nat) (d : list element) : marker_only S d d.
Proof. split; [done|]. intros i e e' H1 H2. assert (e' = e) as -> by congruence. done. Qed.

Lemma marker_only_trans (S : list nat) (d1 d2 d3 : list element) :
  marker_only S d1 d2 -> marker_only S d2 d3 -> marker_only S d1 d3.
Proof.
  intros [Hl1 H1] [Hl2 H2]. split; [congruence|].
  intros i e1 e3 He1 He3.
  destruct (lookup_lt_is_Some_2 d2 i) as [e2 He2].
  { rewrite Hl1. by eapply lookup_lt_Some. }
  destruct (H1 _ _ _ He1 He2) as [Ha Hb], (H2 _ _ _ He2 He3) as [Hc Hd].
  split; [by eapply same_but_marker_trans|].
  intros Hi. rewrite (Hd Hi). by apply Hb.
Qed.

Lemma marker_only_alter (S : list nat) (f : element -> element) (el : nat)
      (d : list element) :
  el ∈ S -> (forall e, same_but_marker e (f e)) -> marker_only S d (alter f el d).
Proof.
  intros Hel Hf. split; [apply length_alter|].
  intros i e e' He He'.
  destruct (decide (el = i)) as [->|Hne].
  - rewrite list_lookup_alter_eq, He in He'. injection He' as <-. by split.
  - rewrite list_lookup_alter_ne in He' by done.
    assert (e' = e) as -> by congruence. by split.
Qed.

Lemma marker_only_clear (S l : list nat) :
  (forall x, x ∈ l -> x ∈ S) ->
  forall d, marker_only S d (clear_marker l d).
Proof.
  induction l as [|x l IH]; intros Hsub d; simpl.
  - apply marker_only_refl.
  - eapply marker_only_trans.
    + apply (marker_only_alter S unmark x);
        [apply Hsub, list_elem_of_here | apply same_but_marker_unmark].
    + apply IH. intros y Hy. by apply Hsub, list_elem_of_further.
Qed.

Lemma marker_only_recompute (w : world) (c : nat) :
  marker_only (sections (state w)) (dom w) (recompute_dom w c).
Proof.
  unfold recompute_dom.
  assert (Hclear : marker_only (sections (state w)) (dom w)
            (clear_marker (others (closest w c) (sections (state w))) (dom w))).
  { apply marker_only_clear. intros x Hx. unfold others in Hx.
    by apply list_elem_of_filter in Hx as [_ ?]. }
  destruct (closest w c) as [s|] eqn:Hs; [|done].
  pose proof (closest_in_sections _ _ _ Hs) as Hin.
  eapply marker_only_trans; [exact Hclear|].
  eapply marker_only_trans.
  - apply (marker_only_alter _ unmark s); [done | apply same_but_marker_unmark].
  - apply (marker_only_alter _ mark s); [done | apply same_but_marker_mark].
Qed.

Lemma allowed_recompute (w : world) (c : nat) :
  Forall (allowed (sections (state w))) (recompute_trace w c).
Proof.
  unfold recompute_trace.
  repeat apply Forall_cons_2; try done.
  apply Forall_app_2; [|apply Forall_app_2].
  - apply Forall_forall. intros e He. by apply list_elem_of_fmap in He as (x & -> & _).
  - apply Forall_forall. intros e He. apply list_elem_of_fmap in He as (x & -> & Hx).
    unfold others in Hx. apply list_elem_of_filter in Hx as [_ Hx]. by split.
  - destruct (closest w c) as [s|] eqn:Hs; [|done].
    pose proof (closest_in_sections _ _ _ Hs) as Hin.
    unfold cycle. repeat apply Forall_cons_2; done.
Qed.

Lemma class_only_refl (S : list nat) (w : world) : class_only S w w.
Proof. exists (dom w), []. split; [by rewrite upd_id|]. split; [apply marker_only_refl | done]. Qed.

Lemma class_only_trans (S : list nat) (w1 w2 w3 : world) :
  class_only S w1 w2 -> class_only S w2 w3 -> class_only S w1 w3.
Proof.
  intros (d1 & t1 & -> & Hd1 & Ht1) (d2 & t2 & -> & Hd2 & Ht2).
  exists d2, (t1 ++ t2). split; [apply upd_upd|].
  split; [by eapply marker_only_trans | by apply Forall_app_2].
Qed.

Lemma checkVisibleSection_class_only (w : world) :
  exists w', checkVisibleSection w = Normal w' /\
             class_only (sections (state w)) w w'.
Proof.
  destruct (container (state w)) as [c|] eqn:Hc.
  - eexists. split; [by apply checkVisibleSection_eq|].
    eexists _, _. split; [done|].
    split; [apply marker_only_recompute | apply allowed_recompute].
  - exists w. split; [by apply checkVisibleSection_null_container_aux|].
    apply class_only_refl.
Qed.

(** ** Initialisation *)

Lemma forEach_observe (o : nat) (l : list nat) :
  forall w, exists obs, forEach (observe o) l w = Normal (set_observers obs w).
Proof.
  induction l as [|x l IH]; intros w; cbn [forEach].
  - exists (observers w). by destruct w.
  - unfold andThen, observe at 1, pure.
    match goal with
    | |- context [forEach _ l ?w0] => destruct (IH w0) as [obs Hobs]; rewrite Hobs
    end.
    by exists obs.
Qed.

Lemma setupIntersectionObserver_eq (w : world) (c : nat) :
  container (state w) = Some c ->
  exists obs,
    setupIntersectionObserver w =
    Normal (set_listeners (listeners w ++ setup_listeners true c)
              (set_scrollTimer None (set_observers obs w))).
Proof.
  intros Hc. unfold setupIntersectionObserver, newIntersectionObserver, andThen.
  match goal with
  | |- context [forEach ?f ?l ?w0] => destruct (forEach_observe (length (observers w)) l w0)
                                         as [obs Hobs]
  end.
  exists obs. rewrite Hobs.
  unfold pure, container_addEventListener, addEventListener, pure; simpl.
  rewrite Hc. simpl. rewrite Hc.
  unfold set_listeners, set_scrollTimer, set_observers; simpl.
  by rewrite <- app_assoc.
Qed.

Lemma setupScrollFallback_eq (w : world) (c : nat) :
  container (state w) = Some c ->
  exists d t,
    setupScrollFallback w =
    Normal (upd d t (set_listeners (listeners w ++ setup_listeners false c)
                       (set_scrollTimer None w))) /\
    marker_only (sections (state w)) (dom w) d /\
    Forall (allowed (sections (state w))) t.
Proof.
  intros Hc. unfold setupScrollFallback, andThen.
  unfold pure, container_addEventListener, addEventListener, pure; simpl.
  rewrite Hc. simpl.
  replace (set_listeners _ (set_listeners _ (set_scrollTimer None w)))
    with (set_listeners (listeners w ++ setup_listeners false c) (set_scrollTimer None w))
    by (unfold set_listeners, set_scrollTimer; simpl; by rewrite <- app_assoc).
  match goal with
  | |- context [checkVisibleSection ?w0] =>
      exists (recompute_dom w0 c), (recompute_trace w0 c);
      split; [by apply (checkVisibleSection_eq w0 c)|];
      split; [apply (marker_only_recompute w0 c) | apply (allowed_recompute w0 c)]
  end.
Qed.

Lemma guard_passes (c : nat) (l : list nat) :
  l <> [] ->
  negb (bool_decide (is_Some (Some c))) || (length l =? 0)%nat = false.
Proof.
  intros Hl. rewrite bool_decide_eq_true_2 by by eexists.
  destruct l; [done | reflexivity].
Qed.

(** A successful [init], field by field. *)
Lemma init_success (w : world) (c : nat) :
  isInitialized (state w) = false ->
  querySelector_container (dom w) = Some c ->
  querySelectorAll_sections (dom w) <> [] ->
  exists w1,
    init w = Normal w1 /\
    state w1 = {| isInitialized := true; container := Some c;
                  sections := querySelectorAll_sections (dom w) |} /\
    listeners w1 = listeners w ++ setup_listeners (hasIntersectionObserver w) c /\
    timers w1 = timers w ++ [{| t_id := nextTimer w; t_due := now w + 50;
                                t_callback := CbMarkFirst |}] /\
    nextTimer w1 = S (nextTimer w) /\
    now w1 = now w /\
    hasIntersectionObserver w1 = hasIntersectionObserver w /\
    scrollTimer w1 = None /\
    console w1 = console w /\
    marker_only (querySelectorAll_sections (dom w)) (dom w) (dom w1) /\
    exists t, trace w1 = trace w ++ queries ++ t /\
              Forall (allowed (querySelectorAll_sections (dom w))) t.
Proof.
  intros Hi Hc Hs. unfold init. rewrite Hi. cbv zeta.
  change (container (state (queryDocument w))) with (querySelector_container (dom w)).
  change (sections (state (queryDocument w))) with (querySelectorAll_sections (dom w)).
  change (hasIntersectionObserver (queryDocument w)) with (hasIntersectionObserver w).
  rewrite Hc, (guard_passes c _ Hs).
  assert (Hc0 : container (state (queryDocument w)) = Some c) by exact Hc.
  unfold andThen.
  destruct (hasIntersectionObserver w) eqn:Hio.
  - destruct (setupIntersectionObserver_eq _ _ Hc0) as [obs ->].
    eexists. split; [reflexivity|]. simpl. rewrite Hc.
    do 8 (split; [done|]).
    split; [apply marker_only_refl|].
    exists []. split; [|done]. unfold queries. by rewrite <- !app_assoc.
  - destruct (setupScrollFallback_eq _ _ Hc0) as (d & t & -> & Hd & Ht).
    eexists. split; [reflexivity|]. simpl. rewrite Hc.
    do 8 (split; [done|]).
    split; [exact Hd|].
    exists t. split; [|exact Ht]. unfold queries. by rewrite <- !app_assoc.
Qed.

(** A failed [init], field by field. *)
Lemma init_failure (w : world) :
  isInitialized (state w) = false ->
  querySelector_container (dom w) = None \/ querySelectorAll_sections (dom w) = [] ->
  init w = Normal (set_console (console w ++ [warning]) (queryDocument w)).
Proof.
  intros Hi Hmissing. unfold init. rewrite Hi. cbv zeta.
  change (container (state (queryDocument w))) with (querySelector_container (dom w)).
  change (sections (state (queryDocument w))) with (querySelectorAll_sections (dom w)).
  destruct Hmissing as [-> | ->].
  - rewrite bool_decide_eq_false_2 by (by intros [? ?]). reflexivity.
  - simpl. by rewrite orb_true_r.
Qed.

Lemma init_guard (w : world) :
  isInitialized (state w) = true -> init w = Normal w.
Proof. intros Hi. unfold init. by rewrite Hi. Qed.


(** C5: after a first successful [init], a second call returns at
    once with the world it was called in: the same listeners, observers and
    timers, no query in the trace, the same closure variables.  The same
    holds for any later call made while the flag is set. *)
Theorem init_idempotent (w : world) (c : nat) :
  isInitialized (state w) = false ->
  querySelector_container (dom w) = Some c ->
  querySelectorAll_sections (dom w) <> [] ->
  exists w1,
    init w = Normal w1 /\
    isInitialized (state w1) = true /\
    init w1 = Normal w1 /\
    (forall w2, isInitialized (state w2) = true -> init w2 = Normal w2).
Proof.
  intros Hi Hc Hs.
  destruct (init_success w c Hi Hc Hs) as (w1 & Hinit & Hst & _).
  exists w1. split; [done|].
  assert (isInitialized (state w1) = true) by (by rewrite Hst).
  split; [done|]. split; [by apply init_guard|]. apply init_guard.
Qed.

Lemma init_idempotent_witness :
  exists w1,
    init (page demo_dom true) = Normal w1 /\
    isInitialized (state w1) = true /\
    init w1 = Normal w1 /\
    (forall w2, isInitialized (state w2) = true -> init w2 = Normal w2).
Proof.
  apply (init_idempotent (page demo_dom true) 0); [reflexivity | reflexivity | discriminate].
Defined.

Example init_twice_listeners :
  listeners (after (init (after (init (page demo_dom true))))) = setup_listeners true 0 /\
  listeners (after (init (after (init (page demo_dom false))))) = setup_listeners false 0.
Proof. split; reflexivity. Qed.

(** C6: when the document has no snap container, or no snap page,
    [init] warns and returns normally; it adds no listener, observer or
    timer, changes no class (the document is the same, the trace holds the
    two queries only) and leaves the flag unset, so that a later [init] on
    a document that has both succeeds. *)
Theorem init_missing_dom (w : world) :
  isInitialized (state w) = false ->
  querySelector_container (dom w) = None \/ querySelectorAll_sections (dom w) = [] ->
  exists w1,
    init w = Normal w1 /\
    console w1 = console w ++ [warning] /\
    listeners w1 = listeners w /\
    observers w1 = observers w /\
    timers w1 = timers w /\
    dom w1 = dom w /\
    trace w1 = trace w ++ queries /\
    isInitialized (state w1) = false /\
    (forall (d : list element) (c : nat),
        querySelector_container d = Some c ->
        querySelectorAll_sections d <> [] ->
        exists w2, init (set_dom d w1) = Normal w2 /\ isInitialized (state w2) = true).
Proof.
  intros Hi Hmissing.
  exists (set_console (console w ++ [warning]) (queryDocument w)).
  split; [by apply init_failure|].
  do 5 (split; [done|]).
  split; [unfold queries; simpl; by rewrite <- app_assoc|].
  split; [done|].
  intros d c Hc Hs.
  destruct (init_success (set_dom d (set_console (console w ++ [warning]) (queryDocument w))) c)
    as (w2 & Hinit & Hst & _); [done..|].
  exists w2. split; [done|]. by rewrite Hst.
Qed.

Lemma init_missing_dom_witness :
  exists w1,
    init (page bare_dom true) = Normal w1 /\
    console w1 = console (page bare_dom true) ++ [warning] /\
    listeners w1 = listeners (page bare_dom true) /\
    observers w1 = observers (page bare_dom true) /\
    timers w1 = timers (page bare_dom true) /\
    dom w1 = dom (page bare_dom true) /\
    trace w1 = trace (page bare_dom true) ++ queries /\
    isInitialized (state w1) = false /\
    (forall (d : list element) (c : nat),
        querySelector_container d = Some c ->
        querySelectorAll_sections d <> [] ->
        exists w2, init (set_dom d w1) = Normal w2 /\ isInitialized (state w2) = true).
Proof.
  apply (init_missing_dom (page bare_dom true)); [reflexivity | left; reflexivity].
Defined.



(** The section under the container's centre in [demo_dom] is the second
    one and the third one carries the marker, yet 50 ms after [init] the
    first one is marked. *)
Example first_marked_after_50ms :
  option_map (fun w => (now w, map classList (dom w), timers w))
             (advance 1 50 demo_world) =
  Some (50%nat,
        [["snap-container"]; ["snap-page"; "is-visible"]; ["snap-page"];
         ["snap-page"; "is-visible"]],
        []).
Proof. reflexivity. Qed.

(** The references [init] stores are well formed, and stay so under
    every operation that changes classes only. *)
Lemma init_wf (w : world) (c : nat) :
  isInitialized (state w) = false ->
  querySelector_container (dom w) = Some c ->
  querySelectorAll_sections (dom w) <> [] ->
  exists w1, init w = Normal w1 /\ wf w1.
Proof.
  intros Hi Hc Hs.
  destruct (init_success w c Hi Hc Hs)
    as (w1 & Hinit & Hst & _ & _ & _ & _ & _ & _ & _ & [Hlen _] & _).
  exists w1. split; [done|]. unfold wf. rewrite Hst, Hlen. simpl. split.
  - apply querySelectorAll_sections_NoDup.
  - apply Forall_forall. apply querySelectorAll_sections_range.
Qed.

Lemma class_only_wf (S : list nat) (w w' : world) :
  class_only S w w' -> wf w -> wf w'.
Proof.
  intros (d & t & -> & [Hlen _] & _) Hwf. unfold wf in *. simpl. by rewrite Hlen.
Qed.

(** The load-event fallback: the script starts on a document without a
    snap container and warns; the document then gains one; the load event
    comes, and 100 ms later [init] succeeds.  The recompute queued for
    200 ms then marks the centred section. *)
Example load_fallback :
  let w0 := after (main false (page bare_dom true)) in
  let w1 := dispatch Window "load" (set_dom demo_dom w0) in
  (console w0, isInitialized (state w0), listeners w0) =
    ([warning], false,
     [{| l_target := Window; l_type := "load"; l_handler := HLoad |}]) /\
  option_map (fun w => (isInitialized (state w), map t_due (timers w)))
             (advance 1 100 w1) =
    Some (true, [200; 150]%nat) /\
  option_map (fun w => (now w, map classList (dom w), timers w))
             (advance 3 200 w1) =
    Some (200%nat,
          [["snap-container"]; ["snap-page"]; ["snap-page"; "is-visible"]; ["snap-page"]],
          []).
Proof. repeat split; reflexivity. Qed.

(** ** The frame of every operation *)

Lemma retrigger_class_only (S : list nat) (el : nat) (w : world) :
  el ∈ S ->
  exists w', retrigger el w = Normal w' /\ class_only S w w'.
Proof.
  intros Hel. eexists. split; [apply retrigger_eq|].
  eexists _, _. split; [done|]. split.
  - eapply marker_only_trans.
    + apply (marker_only_alter S unmark el); [done | apply same_but_marker_unmark].
    + apply (marker_only_alter S mark el); [done | apply same_but_marker_mark].
  - unfold cycle. repeat apply Forall_cons_2; done.
Qed.

Lemma classList_remove_class_only (S : list nat) (el : nat) (w : world) :
  el ∈ S ->
  exists w', classList_remove el marker w = Normal w' /\ class_only S w w'.
Proof.
  intros Hel. eexists. split; [apply classList_remove_eq|].
  eexists _, _. split; [done|]. split.
  - apply (marker_only_alter S unmark el); [done | apply same_but_marker_unmark].
  - repeat apply Forall_cons_2; done.
Qed.

Lemma classList_add_class_only (S : list nat) (el : nat) (w : world) :
  el ∈ S ->
  exists w', classList_add el marker w = Normal w' /\ class_only S w w'.
Proof.
  intros Hel. eexists. split; [apply classList_add_eq|].
  eexists _, _. split; [done|]. split.
  - apply (marker_only_alter S mark el); [done | apply same_but_marker_mark].
  - repeat apply Forall_cons_2; done.
Qed.

Lemma observerEntry_class_only (S : list nat) (e : entry) (w : world) :
  target e ∈ S ->
  exists w', observerEntry e w = Normal w' /\ class_only S w w'.
Proof.
  intros Hel. unfold observerEntry.
  destruct (isIntersecting e && Qle_bool (3 # 10) (intersectionRatio e)).
  - by apply retrigger_class_only.
  - destruct (Qltb (intersectionRatio e) (1 # 10)).
    + by apply classList_remove_class_only.
    + exists w. split; [done | apply class_only_refl].
Qed.

Lemma observerCallback_class_only (S : list nat) (entries : list entry) :
  Forall (fun e => target e ∈ S) entries ->
  forall w, exists w', observerCallback entries w = Normal w' /\ class_only S w w'.
Proof.
  unfold observerCallback.
  induction 1 as [|e es He Hes IH]; intros w; cbn [forEach].
  - exists w. split; [done | apply class_only_refl].
  - destruct (observerEntry_class_only S e w He) as (w1 & H1 & Hc1).
    destruct (IH w1) as (w2 & H2 & Hc2).
    exists w2. unfold andThen. rewrite H1. split; [done|].
    by eapply class_only_trans.
Qed.

Lemma markFirst_class_only (w : world) :
  exists w', markFirst w = Normal w' /\ class_only (sections (state w)) w w'.
Proof.
  unfold markFirst. destruct (sections (state w) !! 0%nat) as [el|] eqn:Hel.
  - apply classList_add_class_only. by eapply list_elem_of_lookup_2.
  - exists w. split; [done | apply class_only_refl].
Qed.

(** The document and the trace across [init]. *)
Lemma init_document (w : world) :
  exists w' t,
    init w = Normal w' /\
    marker_only (sections (state w')) (dom w) (dom w') /\
    trace w' = trace w ++ t /\
    Forall (allowed (sections (state w'))) t /\
    now w' = now w /\
    hasIntersectionObserver w' = hasIntersectionObserver w.
Proof.
  destruct (isInitialized (state w)) eqn:Hi.
  - exists w, []. split; [by apply init_guard|].
    split; [apply marker_only_refl|]. by rewrite app_nil_r.
  - destruct (querySelector_container (dom w)) as [c|] eqn:Hc.
    + destruct (decide (querySelectorAll_sections (dom w) = [])) as [Hs|Hs].
      * eexists _, queries. split; [apply init_failure; auto|].
        split; [apply marker_only_refl|]. simpl.
        split; [by rewrite <- app_assoc|]. split; [|done].
        unfold queries. repeat apply Forall_cons_2; done.
      * destruct (init_success w c Hi Hc Hs)
          as (w1 & Hinit & Hst & _ & _ & _ & Hnow & Hio & _ & _ & Hd & t & Ht & Hall).
        exists w1, (queries ++ t). rewrite Hst. simpl.
        do 3 (split; [done|]). split; [|done].
        repeat apply Forall_cons_2; done.
    + eexists _, queries. split; [apply init_failure; auto|].
      split; [apply marker_only_refl|]. simpl.
      split; [by rewrite <- app_assoc|]. split; [|done].
      unfold queries. repeat apply Forall_cons_2; done.
Qed.

(** C9, as amended: in the document every operation changes nothing
    but the presence of [is-visible] on elements of the section list: same
    elements, same names, same layout, same other classes, and every class
    write in the trace is a write of the marker to a section.  The
    recompute, the observer callback (on entries for observed sections) and
    the 50 ms callback change nothing else in the world; [init] keeps the
    document within the same frame, and what it writes besides are its own
    variables, listeners, observers, timers and the console. *)
Theorem operations_write_marker_only :
  (forall w, exists w',
      checkVisibleSection w = Normal w' /\ class_only (sections (state w)) w w') /\
  (forall entries w,
      Forall (fun e => target e ∈ sections (state w)) entries ->
      exists w', observerCallback entries w = Normal w' /\
                 class_only (sections (state w)) w w') /\
  (forall w, exists w',
      markFirst w = Normal w' /\ class_only (sections (state w)) w w') /\
  (forall w, exists w' t,
      init w = Normal w' /\
      marker_only (sections (state w')) (dom w) (dom w') /\
      trace w' = trace w ++ t /\
      Forall (allowed (sections (state w'))) t /\
      now w' = now w /\
      hasIntersectionObserver w' = hasIntersectionObserver w).
Proof.
  split; [apply checkVisibleSection_class_only|].
  split; [intros entries w H; by apply observerCallback_class_only|].
  split; [apply markFirst_class_only | apply init_document].
Qed.

(** C9, as stated, fails for [init]: on the sample page it leaves a
    world that differs from the one it was called in by more than classes:
    two listeners, a timer, and the closure variables. *)
Lemma init_writes_beyond_classes :
  listeners (after (init (page demo_dom true))) = setup_listeners true 0 /\
  listeners (page demo_dom true) = [] /\
  length (timers (after (init (page demo_dom true)))) = 1%nat /\
  timers (page demo_dom true) = [] /\
  ~ class_only (sections (state (after (init (page demo_dom true)))))
      (page demo_dom true) (after (init (page demo_dom true))).
Proof.
  do 4 (split; [reflexivity|]).
  intros (d & t & H & _). apply (f_equal listeners) in H. discriminate H.
Qed.

(** ** Timers *)

Lemma recomputes_app (t1 t2 : list effect) :
  recomputes (t1 ++ t2) = (recomputes t1 + recomputes t2)%nat.
Proof. unfold recomputes. by rewrite filter_app, length_app. Qed.

Lemma recomputes_none (t : list effect) :
  Forall (λ e, e <> Recompute) t -> recomputes t = 0%nat.
Proof.
  unfold recomputes. induction 1 as [|e t He _ IH]; [done|].
  by rewrite filter_cons_False.
Qed.

Lemma recomputes_recompute_trace (w : world) (c : nat) :
  recomputes (recompute_trace w c) = 1%nat.
Proof.
  unfold recompute_trace.
  change (Recompute :: GetBoundingClientRect c :: ?l) with ([Recompute] ++ [GetBoundingClientRect c] ++ l).
  rewrite !recomputes_app.
  change (recomputes [Recompute]) with 1%nat.
  rewrite (recomputes_none [GetBoundingClientRect c]) by (repeat constructor; done).
  rewrite (recomputes_none (map _ _)).
  2:{ apply Forall_forall. intros e He. by apply list_elem_of_fmap in He as (x & -> & _). }
  rewrite (recomputes_none (map _ _)).
  2:{ apply Forall_forall. intros e He. by apply list_elem_of_fmap in He as (x & -> & _). }
  rewrite recomputes_none; [reflexivity|].
  destruct (closest w c); [|done]. unfold cycle. repeat constructor; done.
Qed.

Lemma earliest_elem (l : list timer) (x : timer) :
  earliest l = Some x -> x ∈ l.
Proof.
  revert x. induction l as [|a l IH]; intros x; simpl; [done|].
  destruct (earliest l) as [y|].
  - destruct (t_due y <? t_due a)%nat; intros [= <-].
    + apply list_elem_of_further. by apply IH.
    + apply list_elem_of_here.
  - intros [= <-]. apply list_elem_of_here.
Qed.

Lemma earliest_min (l : list timer) (x : timer) :
  earliest l = Some x -> Forall (λ y, (t_due x <= t_due y)%nat) l.
Proof.
  revert x. induction l as [|a l IH]; intros x; simpl; [done|].
  destruct (earliest l) as [y|] eqn:Hy.
  - specialize (IH y eq_refl).
    destruct (t_due y <? t_due a)%nat eqn:E; intros [= <-].
    + apply Nat.ltb_lt in E. constructor; [lia | done].
    + apply Nat.ltb_ge in E. constructor; [lia|].
      eapply Forall_impl; [exact IH|]. simpl. intros; lia.
  - intros [= <-]. destruct l as [|b l]; [by repeat constructor|].
    simpl in Hy. destruct (earliest l); [destruct (_ <? _)%nat|]; done.
Qed.

Lemma earliest_None (l : list timer) : earliest l = None -> l = [].
Proof.
  destruct l as [|a l]; [done|]. simpl.
  destruct (earliest l); [destruct (_ <? _)%nat|]; done.
Qed.

Lemma due_timer_Some (T : nat) (w : world) (x : timer) :
  due_timer T w = Some x -> x ∈ timers w /\ (t_due x <= T)%nat.
Proof.
  unfold due_timer. destruct (earliest (timers w)) as [y|] eqn:Hy; [|done].
  destruct (t_due y <=? T)%nat eqn:E; [|done]. intros [= <-].
  split; [by apply earliest_elem | by apply Nat.leb_le].
Qed.

Lemma due_timer_None (T : nat) (w : world) :
  due_timer T w = None -> Forall (λ y, (T < t_due y)%nat) (timers w).
Proof.
  unfold due_timer. destruct (earliest (timers w)) as [y|] eqn:Hy.
  - destruct (t_due y <=? T)%nat eqn:E; [done|]. intros _.
    apply Nat.leb_gt in E.
    eapply Forall_impl; [by apply earliest_min|]. simpl. intros; lia.
  - intros _. by rewrite (earliest_None _ Hy).
Qed.

Lemma filter_all {A} (P : A -> Prop) `{HP_dec : !forall x, Decision (P x)} (l : list A) :
  Forall P l -> filter P l = l.
Proof.
  induction 1 as [|a l Ha _ IH]; [done|]. by rewrite filter_cons_True, IH.
Qed.

Lemma filter_none {A} (P : A -> Prop) `{HP_dec : !forall x, Decision (P x)} (l : list A) :
  Forall (λ x, ~ P x) l -> filter P l = [].
Proof.
  induction 1 as [|a l Ha _ IH]; [done|]. by rewrite filter_cons_False.
Qed.

(** Clearing the handle of a pending timer removes that timer and no other. *)
Lemma count_without (R : timer -> Prop) `{HR_dec : !forall x, Decision (R x)}
      (l : list timer) (x : timer) :
  NoDup (t_id <$> l) -> x ∈ l ->
  length (filter R l) =
  ((if decide (R x) then 1 else 0) +
   length (filter R (filter (λ y, t_id y ≠ t_id x) l)))%nat.
Proof.
  induction l as [|a l IH]; intros Hnd Hx.
  - by apply elem_of_nil in Hx.
  - rewrite fmap_cons in Hnd. apply NoDup_cons in Hnd as [Ha Hnd].
    destruct (decide (a = x)) as [->|Hne].
    + rewrite (filter_cons_False (λ y, t_id y ≠ t_id x) x) by (intros H; by apply H).
      rewrite (filter_all (λ y, t_id y ≠ t_id x) l).
      * rewrite filter_cons. by destruct (decide (R x)).
      * apply Forall_forall. intros y Hy Heq. apply Ha.
        rewrite <- Heq. by apply list_elem_of_fmap_2.
    + apply elem_of_cons in Hx as [->|Hx]; [done|].
      assert (t_id a ≠ t_id x).
      { intros Heq. apply Ha. rewrite Heq. by apply list_elem_of_fmap_2. }
      rewrite (filter_cons_True (λ y, t_id y ≠ t_id x)) by done.
      rewrite !(filter_cons R). specialize (IH Hnd Hx).
      destruct (decide (R a)), (decide (R x)); simpl in *; lia.
Qed.

Lemma filter_without (P : timer -> Prop) `{HP_dec : !forall x, Decision (P x)}
      (l : list timer) (x : timer) :
  NoDup (t_id <$> l) -> x ∈ l -> ~ P x ->
  filter P (filter (λ y, t_id y ≠ t_id x) l) = filter P l.
Proof.
  induction l as [|a l IH]; intros Hnd Hx HPx; [done|].
  rewrite fmap_cons in Hnd. apply NoDup_cons in Hnd as [Ha Hnd].
  destruct (decide (a = x)) as [->|Hne].
  - rewrite (filter_cons_False (λ y, t_id y ≠ t_id x) x) by (intros H; by apply H).
    rewrite (filter_cons_False P x) by done.
    rewrite (filter_all (λ y, t_id y ≠ t_id x) l); [done|].
    apply Forall_forall. intros y Hy Heq. apply Ha.
    rewrite <- Heq. by apply list_elem_of_fmap_2.
  - apply elem_of_cons in Hx as [->|Hx]; [done|].
    assert (t_id a ≠ t_id x).
    { intros Heq. apply Ha. rewrite Heq. by apply list_elem_of_fmap_2. }
    rewrite (filter_cons_True (λ y, t_id y ≠ t_id x)) by done.
    rewrite !(filter_cons P). by rewrite (IH Hnd Hx HPx).
Qed.

Lemma NoDup_ids_filter (P : timer -> Prop) `{HP_dec : !forall x, Decision (P x)}
      (l : list timer) :
  NoDup (t_id <$> l) -> NoDup (t_id <$> filter P l).
Proof.
  intros H. eapply sublist_NoDup; [exact H|].
  by apply fmap_sublist, sublist_filter.
Qed.

(** A timer firing while the tracker runs: the timer leaves the queue,
    the clock reaches its due time, and its callback changes the document
    and the trace only; it is a recompute exactly when the timer is a
    recompute timer. *)
Lemma fire_running (c : nat) (w : world) (x : timer) :
  running c w ->
  exists d t,
    fire x w = upd d t (clearTimeout (Some (t_id x))
                          (set_now (Nat.max (now w) (t_due x)) w)) /\
    recomputes t = if decide (is_check x) then 1%nat else 0%nat.
Proof.
  intros (Hi & Hc & _). unfold fire.
  set (w1 := clearTimeout _ _).
  assert (Hi1 : isInitialized (state w1) = true) by exact Hi.
  assert (Hc1 : container (state w1) = Some c) by exact Hc.
  destruct (t_callback x) eqn:Hcb; simpl.
  - exists (dom w1), []. rewrite init_guard, upd_id by done.
    split; [done|]. rewrite decide_False; [done|].
    unfold is_check. rewrite Hcb. by intros [|].
  - eexists _, _. rewrite (checkVisibleSection_eq w1 c Hc1). split; [done|].
    rewrite recomputes_recompute_trace, decide_True; [done|].
    unfold is_check. rewrite Hcb. by left.
  - eexists _, _. rewrite (checkVisibleSection_eq w1 c Hc1). split; [done|].
    rewrite recomputes_recompute_trace, decide_True; [done|].
    unfold is_check. rewrite Hcb. by right.
  - assert (Hno : ~ is_check x) by (unfold is_check; rewrite Hcb; by intros [|]).
    rewrite decide_False by done.
    unfold markFirst. destruct (sections (state w1) !! 0%nat) as [el|].
    + eexists _, _. rewrite classList_add_eq. by split.
    + exists (dom w1), []. by rewrite upd_id.
Qed.

(** The clock running to time [T] while the tracker runs: the timers due
    by [T] fire and leave the queue, the others stay; the trace gains one
    recompute per recompute timer that was due; nothing is scheduled. *)
Lemma advance_running (c T : nat) :
  forall (fuel : nat) (w : world),
    running c w ->
    (length (timers w) <= fuel)%nat ->
    exists w',
      advance fuel T w = Some w' /\
      running c w' /\
      timers w' = filter (λ x, (T < t_due x)%nat) (timers w) /\
      recomputes (trace w') =
        (recomputes (trace w) +
         length (filter (λ x, is_check x /\ (t_due x <= T)%nat) (timers w)))%nat /\
      scrollTimer w' = scrollTimer w /\
      nextTimer w' = nextTimer w /\
      listeners w' = listeners w /\
      state w' = state w /\
      now w' = Nat.max (now w) T.
Proof.
  induction fuel as [|fuel IH]; intros w Hrun Hlen.
  - assert (timers w = []) as Hnil by (destruct (timers w); [done | simpl in Hlen; lia]).
    exists (set_now (Nat.max (now w) T) w).
    unfold advance, due_timer. rewrite Hnil. simpl.
    split; [done|]. split; [exact Hrun|]. rewrite Hnil. simpl.
    repeat split; done.
  - cbn [advance]. destruct (due_timer T w) as [x|] eqn:Hdue.
    + apply due_timer_Some in Hdue as [Hx HxT].
      destruct Hrun as (Hi & Hc & Hnd & Hids).
      destruct (fire_running c w x) as (d & t & -> & Ht); [done|].
      set (w2 := upd d t _).
      assert (Htm2 : timers w2 = filter (λ y, t_id y ≠ t_id x) (timers w)) by done.
      destruct (IH w2) as (w' & Hadv & Hrun' & Htm & Hrec & Hst & Hnt & Hls & Hs & Hnow).
      { split; [done|]. split; [done|]. rewrite Htm2. split.
        - by apply NoDup_ids_filter.
        - apply Forall_forall. intros y Hy. apply list_elem_of_filter in Hy as [_ Hy].
          rewrite Forall_forall in Hids. by apply Hids. }
      { rewrite Htm2.
        assert (length (filter (λ y, t_id y ≠ t_id x) (timers w)) < length (timers w))%nat.
        { apply (length_filter_lt _ _ x); [done|]. intros H. by apply H. }
        lia. }
      exists w'. split; [done|]. split; [done|].
      split.
      { rewrite Htm, Htm2. apply filter_without; [done | done | lia]. }
      split.
      { rewrite Hrec.
        change (trace w2) with (trace w ++ t). rewrite recomputes_app, Ht, Htm2.
        rewrite (count_without (λ y, is_check y /\ (t_due y <= T)%nat) (timers w) x) by done.
        destruct (decide (is_check x)) as [Hck|Hck].
        - rewrite decide_True by done. lia.
        - rewrite decide_False by (by intros [? _]). lia. }
      repeat split; try done.
      rewrite Hnow. change (now w2) with (Nat.max (now w) (t_due x)). lia.
    + apply due_timer_None in Hdue.
      exists (set_now (Nat.max (now w) T) w).
      split; [done|]. split; [exact Hrun|].
      split; [simpl; by rewrite filter_all|].
      split.
      { rewrite filter_none; [simpl; lia|].
        eapply Forall_impl; [exact Hdue|]. simpl. intros y Hy [_ ?]. lia. }
      done.
Qed.

(** ** Events in observer mode *)

Lemma timers_clearTimeout (handle : option nat) (w : world) :
  timers (clearTimeout handle w) = without handle (timers w).
Proof. by destruct handle. Qed.

Lemma without_length (handle : option nat) (l : list timer) :
  (length (without handle l) <= length l)%nat.
Proof. destruct handle; simpl; [apply length_filter | done]. Qed.

Lemma without_ids (handle : option nat) (l : list timer) (n : nat) :
  NoDup (t_id <$> l) -> Forall (λ x, (t_id x < n)%nat) l ->
  NoDup (t_id <$> without handle l) /\ Forall (λ x, (t_id x < n)%nat) (without handle l).
Proof.
  intros Hnd Hids. destruct handle as [i|]; simpl; [|done]. split.
  - by apply NoDup_ids_filter.
  - apply Forall_forall. intros y Hy. apply list_elem_of_filter in Hy as [_ Hy].
    rewrite Forall_forall in Hids. by apply Hids.
Qed.

Lemma pending_checks_without (handle : option nat) (l : list timer) :
  filter is_check (without handle l) = without handle (filter is_check l).
Proof.
  destruct handle as [i|]; simpl; [|done].
  rewrite !list_filter_filter. apply list_filter_iff. intros x. tauto.
Qed.

(** Scheduling a timer on a running tracker. *)
Lemma running_schedule (c : nat) (w : world) (handle : option nat) (s : option nat)
      (cb : callback) (delay : nat) :
  running c w ->
  running c (set_scrollTimer s (snd (setTimeout cb delay (clearTimeout handle w)))).
Proof.
  intros (Hi & Hc & Hnd & Hids).
  split; [by destruct handle|]. split; [by destruct handle|].
  destruct (without_ids handle _ _ Hnd Hids) as [Hnd' Hids'].
  assert (Hnext : nextTimer (clearTimeout handle w) = nextTimer w) by (by destruct handle).
  simpl. rewrite timers_clearTimeout, Hnext. split.
  - rewrite fmap_app. apply NoDup_app. split; [done|]. split; [|by apply NoDup_singleton].
    intros i Hi1 Hi2. apply list_elem_of_singleton in Hi2. simpl in Hi2. subst i.
    apply list_elem_of_fmap in Hi1 as (y & Heq & Hy).
    rewrite Forall_forall in Hids'. specialize (Hids' y Hy). lia.
  - apply Forall_app_2.
    + eapply Forall_impl; [exact Hids'|]. simpl. intros; lia.
    + repeat constructor.
Qed.

(** A scroll event: the pending debounce timer, if any, is cancelled and
    a new one is set, due [scrollDebounce] ms from now. *)
Lemma dispatch_scroll (c : nat) (w : world) :
  observer_mode c w ->
  exists w',
    dispatch (Element c) "scroll" w = w' /\
    observer_mode c w' /\
    timers w' = without (scrollTimer w) (timers w) ++
                [{| t_id := nextTimer w; t_due := now w + scrollDebounce;
                    t_callback := CbScrollCheck |}] /\
    scrollTimer w' = Some (nextTimer w) /\
    trace w' = trace w /\
    now w' = now w.
Proof.
  intros (Hrun & Hscroll & Htouch).
  exists (set_scrollTimer (Some (nextTimer (clearTimeout (scrollTimer w) w)))
            (snd (setTimeout CbScrollCheck scrollDebounce (clearTimeout (scrollTimer w) w)))).
  split; [unfold dispatch; by rewrite Hscroll|].
  split.
  { split; [by apply running_schedule|]. by destruct (scrollTimer w). }
  simpl. rewrite timers_clearTimeout.
  by destruct (scrollTimer w).
Qed.

(** A touchend event: a recompute timer is set, due 200 ms from now;
    nothing is cancelled. *)
Lemma dispatch_touchend (c : nat) (w : world) :
  observer_mode c w ->
  exists w',
    dispatch (Element c) "touchend" w = w' /\
    observer_mode c w' /\
    timers w' = timers w ++
                [{| t_id := nextTimer w; t_due := now w + 200;
                    t_callback := CbCheckVisibleSection |}] /\
    scrollTimer w' = scrollTimer w /\
    trace w' = trace w /\
    now w' = now w.
Proof.
  intros (Hrun & Hscroll & Htouch).
  exists (snd (setTimeout CbCheckVisibleSection 200 w)).
  split; [unfold dispatch; by rewrite Htouch|].
  split; [|done].
  split; [|done].
  pose proof (running_schedule c w None (scrollTimer w) CbCheckVisibleSection 200 Hrun) as H.
  destruct H as (Hi & Hc & Hnd & Hids). by repeat split.
Qed.

(** The clock running in observer mode, in terms of the pending
    recompute timers. *)
Lemma advance_observer_mode (c T fuel : nat) (w : world) :
  observer_mode c w ->
  (length (timers w) <= fuel)%nat ->
  exists w',
    advance fuel T w = Some w' /\
    observer_mode c w' /\
    pending_checks w' = filter (λ x, (T < t_due x)%nat) (pending_checks w) /\
    recomputes (trace w') =
      (recomputes (trace w) +
       length (filter (λ x, (t_due x <= T)%nat) (pending_checks w)))%nat /\
    (length (timers w') <= length (timers w))%nat /\
    scrollTimer w' = scrollTimer w /\
    now w' = Nat.max (now w) T.
Proof.
  intros (Hrun & Hscroll & Htouch) Hlen.
  destruct (advance_running c T fuel w Hrun Hlen)
    as (w' & Hadv & Hrun' & Htm & Hrec & Hst & Hnt & Hls & Hs & Hnow).
  exists w'. split; [done|].
  split; [split; [done|]; by rewrite Hls|].
  unfold pending_checks. split.
  { rewrite Htm, !list_filter_filter. apply list_filter_iff. intros x. tauto. }
  split.
  { rewrite Hrec. f_equal. f_equal. rewrite list_filter_filter.
    apply list_filter_iff. intros x. tauto. }
  split; [rewrite Htm; apply length_filter|]. done.
Qed.

(** ** Debouncing *)

Lemma pending_scroll (c : nat) (w w' : world) :
  timers w' = without (scrollTimer w) (timers w) ++
              [{| t_id := nextTimer w; t_due := now w + scrollDebounce;
                  t_callback := CbScrollCheck |}] ->
  pending_checks w' =
  without (scrollTimer w) (pending_checks w) ++
  [{| t_id := nextTimer w; t_due := now w + scrollDebounce; t_callback := CbScrollCheck |}].
Proof.
  intros Htm. unfold pending_checks.
  by rewrite Htm, filter_app, pending_checks_without.
Qed.

(** The first scroll event of a burst. *)
Lemma scroll_arms (c : nat) (w : world) :
  observer_mode c w ->
  pending_checks w = [] ->
  debouncing c (recomputes (trace w)) (now w + scrollDebounce)
             (dispatch (Element c) "scroll" w) /\
  now (dispatch (Element c) "scroll" w) = now w /\
  (length (timers (dispatch (Element c) "scroll" w)) <= S (length (timers w)))%nat.
Proof.
  intros Hobs Hnone.
  destruct (dispatch_scroll c w Hobs) as (w' & -> & Hobs' & Htm & Hst & Htr & Hnow).
  split; [|split; [done|]].
  - split; [done|]. split; [by rewrite Htr|].
    exists (nextTimer w). split; [done|].
    rewrite (pending_scroll c w w' Htm), Hnone.
    by destruct (scrollTimer w).
  - rewrite Htm, length_app. simpl.
    pose proof (without_length (scrollTimer w) (timers w)). lia.
Qed.

(** A further scroll event while the debounce timer is pending: the
    pending timer is cancelled and replaced. *)
Lemma scroll_rearms (c k d : nat) (w : world) :
  debouncing c k d w ->
  debouncing c k (now w + scrollDebounce) (dispatch (Element c) "scroll" w) /\
  now (dispatch (Element c) "scroll" w) = now w /\
  (length (timers (dispatch (Element c) "scroll" w)) <= length (timers w))%nat.
Proof.
  intros (Hobs & Hk & id & Hid & Hpending).
  destruct (dispatch_scroll c w Hobs) as (w' & -> & Hobs' & Htm & Hst & Htr & Hnow).
  split; [|split; [done|]].
  - split; [done|]. split; [by rewrite Htr|].
    exists (nextTimer w). split; [done|].
    rewrite (pending_scroll c w w' Htm), Hpending, Hid. simpl.
    rewrite filter_cons_False by (simpl; by intros H). done.
  - rewrite Htm, length_app, Hid. simpl.
    assert ({| t_id := id; t_due := d; t_callback := CbScrollCheck |} ∈ timers w) as Hin.
    { assert (Hin : {| t_id := id; t_due := d; t_callback := CbScrollCheck |}
                      ∈ pending_checks w)
        by (rewrite Hpending; apply list_elem_of_here).
      unfold pending_checks in Hin. by apply list_elem_of_filter in Hin as [_ ?]. }
    pose proof (length_filter_lt (λ x, t_id x ≠ id) (timers w) _ Hin) as Hlt.
    simpl in Hlt. specialize (Hlt (fun H => H eq_refl)). lia.
Qed.

(** The clock running to a time short of the debounce timer's due time. *)
Lemma debouncing_waits (c k d T fuel : nat) (w : world) :
  debouncing c k d w ->
  (T < d)%nat ->
  (length (timers w) <= fuel)%nat ->
  exists w',
    advance fuel T w = Some w' /\
    debouncing c k d w' /\
    now w' = Nat.max (now w) T /\
    (length (timers w') <= length (timers w))%nat.
Proof.
  intros (Hobs & Hk & id & Hid & Hpending) HT Hlen.
  destruct (advance_observer_mode c T fuel w Hobs Hlen)
    as (w' & Hadv & Hobs' & Hp & Hrec & Hlen' & Hst & Hnow).
  exists w'. split; [done|]. rewrite Hpending in Hp, Hrec.
  split; [|by split].
  split; [done|]. split.
  - rewrite Hrec, filter_cons_False by (simpl; lia). simpl. lia.
  - exists id. split; [congruence|].
    rewrite Hp, filter_cons_True by (simpl; lia). done.
Qed.

(** The clock running past the debounce timer's due time: the recompute
    runs, once. *)
Lemma debouncing_fires (c k d T fuel : nat) (w : world) :
  debouncing c k d w ->
  (length (timers w) <= fuel)%nat ->
  exists w',
    advance fuel T w = Some w' /\
    recomputes (trace w') = (k + if (d <=? T)%nat then 1 else 0)%nat /\
    pending_checks w' = if (d <=? T)%nat then [] else pending_checks w.
Proof.
  intros (Hobs & Hk & id & Hid & Hpending) Hlen.
  destruct (advance_observer_mode c T fuel w Hobs Hlen)
    as (w' & Hadv & Hobs' & Hp & Hrec & Hlen' & Hst & Hnow).
  exists w'. split; [done|]. rewrite Hpending in Hp, Hrec. rewrite Hpending.
  destruct (d <=? T)%nat eqn:E.
  - apply Nat.leb_le in E. split.
    + rewrite Hrec, filter_cons_True by (simpl; lia). simpl. lia.
    + rewrite Hp, filter_cons_False by (simpl; lia). done.
  - apply Nat.leb_gt in E. split.
    + rewrite Hrec, filter_cons_False by (simpl; lia). simpl. lia.
    + rewrite Hp, filter_cons_True by (simpl; lia). done.
Qed.

(** A burst of scroll events keeps exactly one debounce timer pending and
    runs no recompute. *)
Lemma play_burst (c fuel k : nat) (rest : list nat) :
  forall (t : nat) (w : world),
    debouncing c k (t + scrollDebounce) w ->
    now w = t ->
    within_debounce t rest ->
    (length (timers w) <= fuel)%nat ->
    exists w',
      play fuel (map (scroll_at c) rest) w = Some w' /\
      debouncing c k (last_time t rest + scrollDebounce) w' /\
      now w' = last_time t rest /\
      (length (timers w') <= fuel)%nat.
Proof.
  induction rest as [|t' rest IH]; intros t w Hdeb Hnow Hwithin Hlen.
  - exists w. split; [done|]. split; [exact Hdeb|]. split; [exact Hnow | exact Hlen].
  - destruct Hwithin as (Hle & Hlt & Hwithin).
    cbn [map play scroll_at e_time e_target e_type last_time].
    destruct (debouncing_waits c k _ t' fuel w Hdeb Hlt Hlen)
      as (w1 & -> & Hdeb1 & Hnow1 & Hlen1).
    destruct (scroll_rearms c k _ w1 Hdeb1) as (Hdeb2 & Hnow2 & Hlen2).
    assert (Ht' : now w1 = t') by lia. rewrite Ht' in *.
    apply (IH t'); [done | done | done | lia].
Qed.

(** ** Touch ends *)

Lemma filter_fmap_commute {A B} (f : A -> B) (P : B -> Prop)
      `{HP_dec : !forall x, Decision (P x)} (l : list A) :
  filter P (f <$> l) = f <$> filter (λ x, P (f x)) l.
Proof.
  induction l as [|a l IH]; [done|].
  rewrite fmap_cons, !filter_cons. simpl.
  destruct (decide (P (f a))); by rewrite IH.
Qed.

Lemma count_upto (D : list nat) (t T : nat) :
  (t <= T)%nat ->
  length (filter (λ d, (d <= T)%nat) D) =
  (length (filter (λ d, (d <= t)%nat) D) +
   length (filter (λ d, (d <= T)%nat) (filter (λ d, (t < d)%nat) D)))%nat.
Proof.
  intros HtT. induction D as [|d D IH]; [done|].
  rewrite !(filter_cons _ d D).
  destruct (decide (d <= T)%nat), (decide (d <= t)%nat), (decide (t < d)%nat);
    try lia; rewrite ?filter_cons_True, ?filter_cons_False by lia; simpl; lia.
Qed.

Lemma touched_advance (c k T fuel : nat) (D : list nat) (w : world) :
  touched c k D w ->
  (now w <= T)%nat ->
  (length (timers w) <= fuel)%nat ->
  exists w',
    advance fuel T w = Some w' /\
    touched c k D w' /\
    now w' = T /\
    (length (timers w') <= length (timers w))%nat.
Proof.
  intros (Hobs & Hdues & Hrec) HT Hlen.
  destruct (advance_observer_mode c T fuel w Hobs Hlen)
    as (w' & Hadv & Hobs' & Hp & Hrec' & Hlen' & Hst & Hnow).
  assert (HnowT : now w' = T) by lia.
  exists w'. split; [done|]. split; [|by split].
  split; [done|]. rewrite HnowT. split.
  - rewrite Hp, <- (filter_fmap_commute t_due (λ d, (T < d)%nat)), Hdues.
    rewrite list_filter_filter. apply list_filter_iff. intros d. lia.
  - rewrite Hrec', Hrec, (count_upto D (now w) T HT), <- Hdues.
    rewrite (filter_fmap_commute t_due (λ d, (d <= T)%nat)), length_fmap. lia.
Qed.

Lemma touched_touchend (c k : nat) (D : list nat) (w : world) :
  touched c k D w ->
  touched c k (D ++ [now w + 200]) (dispatch (Element c) "touchend" w) /\
  now (dispatch (Element c) "touchend" w) = now w /\
  length (timers (dispatch (Element c) "touchend" w)) = S (length (timers w)).
Proof.
  intros (Hobs & Hdues & Hrec).
  destruct (dispatch_touchend c w Hobs) as (w' & -> & Hobs' & Htm & Hst & Htr & Hnow).
  split; [|split; [done|]].
  - split; [done|]. rewrite Hnow, Htr. split.
    + unfold pending_checks in *. rewrite Htm, !filter_app, fmap_app, Hdues.
      rewrite filter_cons_True by (by left).
      rewrite (filter_cons_True (λ d, (now w < d)%nat)) by lia. done.
    + rewrite Hrec, filter_app, length_app.
      rewrite (filter_cons_False (λ d, (d <= now w)%nat)) by lia. simpl. lia.
  - rewrite Htm, length_app. simpl. lia.
Qed.

Lemma play_touchends (c k fuel : nat) (us : list nat) :
  forall (D : list nat) (w : world),
    touched c k D w ->
    ascending (now w) us ->
    (length (timers w) + length us <= fuel)%nat ->
    exists w',
      play fuel (map (touchend_at c) us) w = Some w' /\
      touched c k (D ++ map (λ u, u + 200)%nat us) w' /\
      now w' = last_time (now w) us /\
      (length (timers w') <= fuel)%nat.
Proof.
  induction us as [|u us IH]; intros D w Htouched Hasc Hlen.
  - exists w. split; [done|]. rewrite app_nil_r. simpl in *.
    split; [done|]. split; [done | lia].
  - destruct Hasc as [Hle Hasc]. simpl in Hlen.
    cbn [map play touchend_at e_time e_target e_type last_time].
    destruct (touched_advance c k u fuel D w Htouched Hle)
      as (w1 & -> & Htouched1 & Hnow1 & Hlen1); [lia|].
    destruct (touched_touchend c k D w1 Htouched1) as (Htouched2 & Hnow2 & Hlen2).
    rewrite Hnow1 in *.
    destruct (IH (D ++ [u + 200]) (dispatch (Element c) "touchend" w1))
      as (w' & Hplay & Htouched' & Hnow' & Hlen'); [done | by rewrite Hnow2 | lia |].
    exists w'. split; [done|]. rewrite <- app_assoc in Htouched'.
    split; [done|]. split; [by rewrite Hnow', Hnow2 | done].
Qed.

(** [init] on a page whose container has no listeners yet, with the
    observer API present, starts observer mode. *)
Lemma init_observer_mode (w : world) (c : nat) :
  isInitialized (state w) = false ->
  hasIntersectionObserver w = true ->
  querySelector_container (dom w) = Some c ->
  querySelectorAll_sections (dom w) <> [] ->
  Forall (λ l, l_target l ≠ Element c) (listeners w) ->
  NoDup (t_id <$> timers w) ->
  Forall (λ x, (t_id x < nextTimer w)%nat) (timers w) ->
  exists w1,
    init w = Normal w1 /\
    observer_mode c w1 /\
    pending_checks w1 = pending_checks w.
Proof.
  intros Hi Hio Hc Hs Hls Hnd Hids.
  destruct (init_success w c Hi Hc Hs)
    as (w1 & Hinit & Hst & Hl & Htm & Hnt & _).
  exists w1. split; [done|].
  assert (Hnone : forall ty, filter (listens (Element c) ty) (listeners w) = []).
  { intros ty. apply filter_none. eapply Forall_impl; [exact Hls|].
    simpl. intros l Hl' [? _]. done. }
  split; [split; [|split]|].
  - unfold running. rewrite Hst, Htm, Hnt. repeat split; try done.
    + rewrite fmap_app. apply NoDup_app. split; [done|]. split; [|by apply NoDup_singleton].
      intros i Hi1 Hi2. apply list_elem_of_singleton in Hi2. simpl in Hi2. subst i.
      apply list_elem_of_fmap in Hi1 as (y & Heq & Hy).
      rewrite Forall_forall in Hids. specialize (Hids y Hy). lia.
    + apply Forall_app_2.
      * eapply Forall_impl; [exact Hids|]. simpl. intros; lia.
      * repeat constructor.
  - rewrite Hl, Hio, filter_app, Hnone. simpl.
    rewrite filter_cons_True by done. rewrite filter_cons_False; [done|].
    by intros [_ ?].
  - rewrite Hl, Hio, filter_app, Hnone. simpl.
    rewrite filter_cons_False by (by intros [_ ?]). by rewrite filter_cons_True.
  - unfold pending_checks. rewrite Htm, filter_app.
    rewrite filter_cons_False; [by rewrite app_nil_r|]. by intros [|].
Qed.

(** C7: in observer mode, with no recompute timer pending, and with
    [scrollDebounce] = 100 ms.  A burst of scroll events, each less than
    the debounce delay after the one before, runs no recompute while it
    lasts and exactly one afterwards, when the clock reaches the time of
    the last event plus the delay, and not before.  Touch ends are not
    collapsed: each one runs its own recompute, once the clock reaches its
    time plus 200 ms. *)
Theorem scroll_and_touchend_debounce (c : nat) (w : world) :
  observer_mode c w ->
  pending_checks w = [] ->
  scrollDebounce = 100%nat /\
  (forall (t : nat) (rest : list nat) (T fuel : nat),
      (now w <= t)%nat ->
      within_debounce t rest ->
      (last_time t rest <= T)%nat ->
      (length (timers w) < fuel)%nat ->
      exists w1 w2,
        play fuel (map (scroll_at c) (t :: rest)) w = Some w1 /\
        recomputes (trace w1) = recomputes (trace w) /\
        advance fuel T w1 = Some w2 /\
        recomputes (trace w2) =
          (recomputes (trace w) +
           if (last_time t rest + scrollDebounce <=? T)%nat then 1 else 0)%nat) /\
  (forall (us : list nat) (T fuel : nat),
      ascending (now w) us ->
      (last_time (now w) us <= T)%nat ->
      (length (timers w) + length us <= fuel)%nat ->
      exists w1 w2,
        play fuel (map (touchend_at c) us) w = Some w1 /\
        advance fuel T w1 = Some w2 /\
        recomputes (trace w2) =
          (recomputes (trace w) + length (filter (λ u, (u + 200 <= T)%nat) us))%nat).
Proof.
  intros Hobs Hnone. split; [done|]. split.
  - intros t rest T fuel Ht Hwithin HT Hfuel.
    cbn [map play scroll_at e_time e_target e_type].
    assert (Htouched : touched c (recomputes (trace w)) [] w).
    { split; [done|]. unfold pending_checks in *. rewrite Hnone. simpl. by split; [|lia]. }
    destruct (advance_observer_mode c t fuel w Hobs) as
        (w0 & -> & Hobs0 & Hp0 & Hrec0 & Hlen0 & _ & Hnow0); [lia|].
    rewrite Hnone in Hp0, Hrec0. simpl in Hp0, Hrec0.
    destruct (scroll_arms c w0 Hobs0 Hp0) as (Hdeb & Hnow1 & Hlen1).
    assert (Hnow0' : now w0 = t) by lia. rewrite Hnow0' in *.
    replace (recomputes (trace w0)) with (recomputes (trace w)) in Hdeb by lia.
    destruct (play_burst c fuel _ rest t _ Hdeb Hnow1 Hwithin)
      as (w1 & Hplay & Hdeb1 & Hnow' & Hlen'); [lia|].
    destruct (debouncing_fires c _ _ T fuel w1 Hdeb1 Hlen') as (w2 & Hadv & Hrec2 & _).
    exists w1, w2. split; [done|].
    split; [by destruct Hdeb1 as (_ & ? & _)|]. by split.
  - intros us T fuel Hasc HT Hfuel.
    assert (Htouched : touched c (recomputes (trace w)) [] w).
    { split; [done|]. unfold pending_checks in *. rewrite Hnone. simpl. by split; [|lia]. }
    destruct (play_touchends c _ fuel us [] w Htouched Hasc Hfuel)
      as (w1 & Hplay & Htouched1 & Hnow1 & Hlen1).
    destruct (touched_advance c _ T fuel _ w1 Htouched1)
      as (w2 & Hadv & (_ & _ & Hrec2) & Hnow2 & _); [lia | done |].
    exists w1, w2. split; [done|]. split; [done|].
    rewrite Hrec2, Hnow2. simpl. f_equal.
    by rewrite (filter_fmap_commute (λ u, u + 200)%nat (λ d, (d <= T)%nat)), length_fmap.
Qed.

Lemma scroll_and_touchend_debounce_witness :
  scrollDebounce = 100%nat /\
  (forall (t : nat) (rest : list nat) (T fuel : nat),
      (now demo_world <= t)%nat ->
      within_debounce t rest ->
      (last_time t rest <= T)%nat ->
      (length (timers demo_world) < fuel)%nat ->
      exists w1 w2,
        play fuel (map (scroll_at 0) (t :: rest)) demo_world = Some w1 /\
        recomputes (trace w1) = recomputes (trace demo_world) /\
        advance fuel T w1 = Some w2 /\
        recomputes (trace w2) =
          (recomputes (trace demo_world) +
           if (last_time t rest + scrollDebounce <=? T)%nat then 1 else 0)%nat) /\
  (forall (us : list nat) (T fuel : nat),
      ascending (now demo_world) us ->
      (last_time (now demo_world) us <= T)%nat ->
      (length (timers demo_world) + length us <= fuel)%nat ->
      exists w1 w2,
        play fuel (map (touchend_at 0) us) demo_world = Some w1 /\
        advance fuel T w1 = Some w2 /\
        recomputes (trace w2) =
          (recomputes (trace demo_world) +
           length (filter (λ u, (u + 200 <= T)%nat) us))%nat).
Proof.
  apply (scroll_and_touchend_debounce 0 demo_world);
    [exact (bool_decide_unpack (observer_mode 0 demo_world) I) | reflexivity].
Defined.

Example ten_scrolls_one_recompute :
  (w ← play 2 ten_scrolls demo_world; w' ← advance 2 244 w; Some (recomputes (trace w')))
    = Some 0%nat /\
  (w ← play 2 ten_scrolls demo_world; w' ← advance 2 245 w; Some (recomputes (trace w')))
    = Some 1%nat /\
  (w ← play 2 ten_scrolls demo_world; w' ← advance 2 1000 w; Some (recomputes (trace w')))
    = Some 1%nat.
Proof. repeat split; reflexivity. Qed.

(** Two touch ends, at 100 ms and 150 ms: a recompute at 300 ms and
    another at 350 ms. *)
Example two_touchends_two_recomputes :
  let touches := map (touchend_at 0) [100; 150]%nat in
  (w ← play 3 touches demo_world; w' ← advance 3 299 w; Some (recomputes (trace w')))
    = Some 0%nat /\
  (w ← play 3 touches demo_world; w' ← advance 3 300 w; Some (recomputes (trace w')))
    = Some 1%nat /\
  (w ← play 3 touches demo_world; w' ← advance 3 350 w; Some (recomputes (trace w')))
    = Some 2%nat.
Proof. repeat split; reflexivity. Qed.


(** * Further properties *)

(** ** No uncaught exception *)

Lemma observerEntry_normal (e : entry) (w : world) :
  exists w', observerEntry e w = Normal w'.
Proof.
  unfold observerEntry.
  destruct (isIntersecting e && Qle_bool (3 # 10) (intersectionRatio e)).
  - eexists. apply retrigger_eq.
  - destruct (Qltb (intersectionRatio e) (1 # 10)).
    + eexists. apply classList_remove_eq.
    + by exists w.
Qed.

Lemma observerCallback_normal (entries : list entry) :
  forall w, exists w', observerCallback entries w = Normal w'.
Proof.
  unfold observerCallback. induction entries as [|e es IH]; intros w; cbn [forEach].
  - by exists w.
  - destruct (observerEntry_normal e w) as [w1 H1].
    destruct (IH w1) as [w2 H2]. exists w2. unfold andThen. by rewrite H1.
Qed.

Lemma init_normal (w : world) : exists w', init w = Normal w'.
Proof. destruct (init_document w) as (w' & _ & H & _). by exists w'. Qed.

Lemma run_callback_normal (cb : callback) (w : world) :
  exists w', run_callback cb w = Normal w'.
Proof.
  destruct cb; simpl.
  - apply init_normal.
  - destruct (checkVisibleSection_class_only w) as (w' & H & _). by exists w'.
  - destruct (checkVisibleSection_class_only w) as (w' & H & _). by exists w'.
  - destruct (markFirst_class_only w) as (w' & H & _). by exists w'.
Qed.

Lemma run_handler_normal (h : handler) (w : world) :
  exists w', run_handler h w = Normal w'.
Proof.
  destruct h; simpl; try (eexists; reflexivity). apply init_normal.
Qed.

(** X1: nothing the script runs ends in an uncaught exception,
    whatever the document and whenever it runs: the module body, every
    listener, every timer callback and the observer callback complete
    normally.  The two setup functions do throw when [container] is null;
    they are reached through the guard of [init] only. *)
Theorem script_never_throws :
  (forall loading w, exists w', main loading w = Normal w') /\
  (forall h w, exists w', run_handler h w = Normal w') /\
  (forall cb w, exists w', run_callback cb w = Normal w') /\
  (forall entries w, exists w', observerCallback entries w = Normal w') /\
  (forall w, container (state w) = None ->
             (exists w', setupIntersectionObserver w = Throw w') /\
             (exists w', setupScrollFallback w = Throw w')).
Proof.
  split.
  { intros loading w. unfold main, andThen. destruct loading.
    - eexists. reflexivity.
    - destruct (init_normal w) as [w' ->]. eexists. reflexivity. }
  split; [exact run_handler_normal|].
  split; [exact run_callback_normal|].
  split; [intros entries w; apply observerCallback_normal|].
  intros w Hc. split.
  - unfold setupIntersectionObserver, newIntersectionObserver, andThen.
    match goal with
    | |- context [forEach ?f ?l ?w0] =>
        destruct (forEach_observe (length (observers w)) l w0) as [obs Hobs]
    end.
    rewrite Hobs. unfold pure, container_addEventListener; simpl. rewrite Hc.
    eexists. reflexivity.
  - unfold setupScrollFallback, andThen, pure, container_addEventListener; simpl.
    rewrite Hc. eexists. reflexivity.
Qed.

(** ** Recomputing twice *)

Lemma unmark_mark (e : element) : unmark (mark e) = unmark e.
Proof. unfold unmark, mark, with_classList; simpl. by rewrite token_remove_add. Qed.

Lemma recompute_dom_idem (w : world) (c : nat) (t : list effect) :
  recompute_dom (upd (recompute_dom w c) t w) c = recompute_dom w c.
Proof.
  apply list_eq. intros i.
  destruct (dom w !! i) as [e|] eqn:He.
  - pose proof (recompute_dom_lookup w c i e He) as H1.
    rewrite (recompute_dom_lookup (upd (recompute_dom w c) t w) c i _ H1), H1.
    rewrite recompute_closest.
    change (sections (state (upd (recompute_dom w c) t w))) with (sections (state w)).
    destruct (bool_decide (closest w c = Some i)).
    + by rewrite unmark_mark, unmark_idem.
    + destruct (bool_decide (i ∈ sections (state w))); [by rewrite unmark_idem | done].
  - assert (Hge : (length (dom w) <= i)%nat) by by apply lookup_ge_None.
    rewrite !(proj2 (lookup_ge_None _ i)); [done| |].
    + by rewrite recompute_dom_length.
    + rewrite recompute_dom_length. change (dom (upd _ _ _)) with (recompute_dom w c).
      by rewrite recompute_dom_length.
Qed.

(** X2: a recompute right after a recompute leaves the document as
    the first one left it: same elements, same classes in the same order.
    (The trace still shows the second remove, layout read and add.) *)
Theorem checkVisibleSection_twice_same_document (w : world) :
  dom (after (checkVisibleSection (after (checkVisibleSection w)))) =
  dom (after (checkVisibleSection w)).
Proof.
  destruct (container (state w)) as [c|] eqn:Hc.
  - rewrite (checkVisibleSection_eq w c Hc). cbn [after].
    rewrite (checkVisibleSection_eq _ c) by exact Hc. cbn [after].
    apply recompute_dom_idem.
  - rewrite (checkVisibleSection_null_container_aux w Hc). cbn [after].
    by rewrite (checkVisibleSection_null_container_aux w Hc).
Qed.

(** ** The delayed activation of the first section *)

Lemma classList_contains_alter_mark (el s : nat) (d : list element) (t : list effect)
      (w : world) :
  classList_contains s marker (upd d t w) = true ->
  classList_contains s marker (upd (alter mark el d) t w) = true.
Proof.
  rewrite !classList_contains_upd.
  destruct (decide (el = s)) as [->|Hne].
  - rewrite list_lookup_alter_eq. destruct (d !! s); [|done]. intros _.
    apply token_add_present.
  - by rewrite list_lookup_alter_ne.
Qed.

Lemma two_members {A} (l : list A) (x y : A) :
  x ∈ l -> y ∈ l -> x <> y -> (2 <= length l)%nat.
Proof.
  intros Hx Hy Hne. destruct l as [|a [|b l]]; simpl.
  - by apply elem_of_nil in Hx.
  - apply list_elem_of_singleton in Hx, Hy. congruence.
  - lia.
Qed.

(** X3: the 50 ms callback adds the marker to the first section and
    removes it nowhere: every element marked before is marked after.  So
    when another section carries the marker as the timer fires, two
    sections are visible afterwards. *)
Theorem markFirst_adds_without_clearing (w : world) (first s : nat) :
  wf w ->
  sections (state w) !! 0%nat = Some first ->
  s ∈ sections (state w) ->
  s <> first ->
  classList_contains s marker w = true ->
  exists w',
    markFirst w = Normal w' /\
    (forall x, classList_contains x marker w = true ->
               classList_contains x marker w' = true) /\
    classList_contains first marker w' = true /\
    (2 <= visibleSections (getState w'))%nat.
Proof.
  intros [_ Hrange] Hfirst Hs Hne Hmarked. rewrite Forall_forall in Hrange.
  assert (Hin : first ∈ sections (state w)) by by eapply list_elem_of_lookup_2.
  exists (upd (alter mark first (dom w)) [ClassAdd first marker] w).
  assert (Hkeep : forall x, classList_contains x marker w = true ->
            classList_contains x marker
              (upd (alter mark first (dom w)) [ClassAdd first marker] w) = true).
  { intros x Hx. apply classList_contains_alter_mark. by rewrite classList_contains_upd. }
  assert (Hf : classList_contains first marker
            (upd (alter mark first (dom w)) [ClassAdd first marker] w) = true).
  { rewrite classList_contains_upd, list_lookup_alter_eq.
    destruct (lookup_lt_is_Some_2 (dom w) first (Hrange _ Hin)) as [e ->].
    apply token_add_present. }
  split; [unfold markFirst; rewrite Hfirst; apply classList_add_eq|].
  split; [done|]. split; [done|].
  unfold getState; cbn [visibleSections].
  change (sections (state (upd _ _ w))) with (sections (state w)).
  apply (two_members _ first s); [| |congruence].
  - apply list_elem_of_filter. by split.
  - apply list_elem_of_filter. split; [by apply Hkeep | done].
Qed.

Lemma markFirst_adds_without_clearing_witness :
  exists w',
    markFirst demo_world = Normal w' /\
    (forall x, classList_contains x marker demo_world = true ->
               classList_contains x marker w' = true) /\
    classList_contains 1 marker w' = true /\
    (2 <= visibleSections (getState w'))%nat.
Proof.
  apply (markFirst_adds_without_clearing demo_world 1 3);
    [exact (bool_decide_unpack (wf demo_world) I) | reflexivity
    | exact (bool_decide_unpack (3 ∈ sections (state demo_world)) I)
    | discriminate | reflexivity].
Defined.

(** ** A batch of observer entries *)

Lemma dom_upd (d : list element) (t : list effect) (w : world) : dom (upd d t w) = d.
Proof. reflexivity. Qed.

Lemma observerEntry_settle (e : entry) (w : world) (t : nat) :
  exists w1,
    observerEntry e w = Normal w1 /\
    length (dom w1) = length (dom w) /\
    (forall b, ((t < length (dom w))%nat -> classList_contains t marker w = b) ->
               (t < length (dom w))%nat ->
               classList_contains t marker w1 = settle t b e).
Proof.
  unfold observerEntry, settle, verdict.
  destruct (isIntersecting e && Qle_bool (3 # 10) (intersectionRatio e)).
  - eexists. split; [apply retrigger_eq|]. split; [by rewrite dom_upd, !length_alter|].
    intros b Hb Ht. rewrite classList_contains_upd.
    destruct (decide (target e = t)) as [->|Hne].
    + rewrite !list_lookup_alter_eq.
      destruct (lookup_lt_is_Some_2 (dom w) t Ht) as [x ->]. apply token_add_present.
    + rewrite !list_lookup_alter_ne by done. by apply Hb.
  - destruct (Qltb (intersectionRatio e) (1 # 10)).
    + eexists. split; [apply classList_remove_eq|]. split; [by rewrite dom_upd, length_alter|].
      intros b Hb Ht. rewrite classList_contains_upd.
      destruct (decide (target e = t)) as [->|Hne].
      * rewrite list_lookup_alter_eq.
        destruct (lookup_lt_is_Some_2 (dom w) t Ht) as [x ->]. apply token_remove_absent.
      * rewrite list_lookup_alter_ne by done. by apply Hb.
    + exists w. split; [done|]. split; [done|].
      intros b Hb Ht. rewrite (Hb Ht). by destruct (decide _).
Qed.

(** X4: the observer callback treats the entries of a batch in
    order, and for each element the last entry that decides wins: the
    element ends marked when that entry has ratio >= 0.3 (and intersects),
    unmarked when it has ratio < 0.1, and as it was when no entry for it
    decides.  Nothing relates the outcomes of different elements: a batch
    may leave several sections marked, or none. *)
Theorem observerCallback_last_verdict (entries : list entry) (w : world) (t : nat) :
  (t < length (dom w))%nat ->
  exists w',
    observerCallback entries w = Normal w' /\
    classList_contains t marker w' =
      fold_left (settle t) entries (classList_contains t marker w).
Proof.
  unfold observerCallback. revert w.
  induction entries as [|e es IH]; intros w Ht; cbn [forEach fold_left].
  - by exists w.
  - destruct (observerEntry_settle e w t) as (w1 & H1 & Hlen & Hs).
    destruct (IH w1) as (w2 & H2 & Hc2); [by rewrite Hlen|].
    exists w2. unfold andThen. rewrite H1. split; [done|].
    rewrite Hc2. f_equal. by apply Hs.
Qed.

Lemma observerCallback_last_verdict_witness :
  exists w',
    observerCallback
      [entry_half;
       {| target := 3; isIntersecting := true; intersectionRatio := 0 |};
       {| target := 1; isIntersecting := true; intersectionRatio := 2 # 10 |}]
      demo_world = Normal w' /\
    classList_contains 1 marker w' =
      fold_left (settle 1)
        [entry_half;
         {| target := 3; isIntersecting := true; intersectionRatio := 0 |};
         {| target := 1; isIntersecting := true; intersectionRatio := 2 # 10 |}]
        (classList_contains 1 marker demo_world).
Proof.
  apply (observerCallback_last_verdict _ demo_world 1). simpl. lia.
Defined.

(** ** A recompute after a failed init *)

(** X5: a failed [init] has already stored what it found: [container]
    and [sections] hold the results of the two queries.  A recompute that
    follows changes no class.  When the container was missing it returns
    at the guard; when only the sections were missing it passes the guard,
    reads the container's rectangle and finds nothing to select. *)
Theorem recompute_after_failed_init (w : world) :
  isInitialized (state w) = false ->
  querySelector_container (dom w) = None \/ querySelectorAll_sections (dom w) = [] ->
  exists w1 w2,
    init w = Normal w1 /\
    container (state w1) = querySelector_container (dom w) /\
    sections (state w1) = querySelectorAll_sections (dom w) /\
    checkVisibleSection w1 = Normal w2 /\
    dom w2 = dom w /\
    isInitialized (state w2) = false /\
    trace w2 = trace w ++ queries ++
               match querySelector_container (dom w) with
               | Some c => [Recompute; GetBoundingClientRect c]
               | None => []
               end.
Proof.
  intros Hi Hmissing.
  set (w1 := set_console (console w ++ [warning]) (queryDocument w)).
  assert (Hinit : init w = Normal w1) by by apply init_failure.
  assert (Htr : trace w1 = trace w ++ queries)
    by (unfold queries; simpl; by rewrite <- app_assoc).
  destruct (querySelector_container (dom w)) as [c|] eqn:Hc.
  - destruct Hmissing as [?|Hs]; [done|].
    assert (Hc1 : container (state w1) = Some c) by exact Hc.
    assert (Hs1 : sections (state w1) = []) by exact Hs.
    exists w1, (upd (recompute_dom w1 c) (recompute_trace w1 c) w1).
    split; [done|]. split; [done|]. split; [by rewrite Hs1, Hs|].
    split; [by apply checkVisibleSection_eq|].
    unfold recompute_dom, recompute_trace, closest. rewrite Hs1. simpl.
    split; [done|]. split; [exact Hi|].
    by rewrite <- !app_assoc.
  - exists w1, w1. split; [done|]. split; [exact Hc|]. split; [done|].
    split; [by apply checkVisibleSection_null_container_aux|].
    split; [done|]. split; [exact Hi|]. by rewrite app_nil_r.
Qed.

Lemma recompute_after_failed_init_witness :
  exists w1 w2,
    init (page bare_dom true) = Normal w1 /\
    container (state w1) = querySelector_container (dom (page bare_dom true)) /\
    sections (state w1) = querySelectorAll_sections (dom (page bare_dom true)) /\
    checkVisibleSection w1 = Normal w2 /\
    dom w2 = dom (page bare_dom true) /\
    isInitialized (state w2) = false /\
    trace w2 = trace (page bare_dom true) ++ queries ++
               match querySelector_container (dom (page bare_dom true)) with
               | Some c => [Recompute; GetBoundingClientRect c]
               | None => []
               end.
Proof.
  apply (recompute_after_failed_init (page bare_dom true)); [reflexivity | left; reflexivity].
Defined.

(** ** The tracker once initialised *)

Lemma run_callback_frozen (cb : callback) (w : world) :
  isInitialized (state w) = true ->
  exists d t,
    run_callback cb w = Normal (upd d t w) /\
    marker_only (sections (state w)) (dom w) d.
Proof.
  intros Hi. destruct cb; simpl.
  - exists (dom w), []. rewrite upd_id. split; [by apply init_guard | apply marker_only_refl].
  - destruct (checkVisibleSection_class_only w) as (w' & H & d & t & -> & Hd & _). eauto.
  - destruct (checkVisibleSection_class_only w) as (w' & H & d & t & -> & Hd & _). eauto.
  - destruct (markFirst_class_only w) as (w' & H & d & t & -> & Hd & _). eauto.
Qed.

Lemma run_handler_frozen (h : handler) (w : world) :
  isInitialized (state w) = true ->
  exists w',
    run_handler h w = Normal w' /\
    state w' = state w /\
    listeners w' = listeners w /\
    observers w' = observers w /\
    dom w' = dom w /\
    (length (timers w') <= length (timers w) + 2)%nat.
Proof.
  intros Hi. destruct h; simpl.
  - exists w. rewrite init_guard by done. repeat split; try done. lia.
  - eexists. split; [reflexivity|]. simpl. repeat split; try done.
    rewrite !length_app. simpl. lia.
  - eexists. split; [reflexivity|]. unfold debounce, pure. simpl.
    rewrite timers_clearTimeout. destruct (scrollTimer w); simpl;
      repeat split; try done; rewrite length_app; simpl;
      [pose proof (length_filter (λ t, t_id t ≠ n) (timers w))|]; lia.
  - eexists. split; [reflexivity|]. simpl. repeat split; try done.
    rewrite length_app. simpl. lia.
  - eexists. split; [reflexivity|]. unfold debounce, pure. simpl.
    rewrite timers_clearTimeout. destruct (scrollTimer w); simpl;
      repeat split; try done; rewrite length_app; simpl;
      [pose proof (length_filter (λ t, t_id t ≠ n) (timers w))|]; lia.
Qed.

Lemma handlers_frozen (ls : list listener) :
  forall w,
    isInitialized (state w) = true ->
    let w' := fold_left (fun w l => after (run_handler (l_handler l) w)) ls w in
    state w' = state w /\
    listeners w' = listeners w /\
    observers w' = observers w /\
    dom w' = dom w /\
    (length (timers w') <= length (timers w) + 2 * length ls)%nat.
Proof.
  induction ls as [|l ls IH]; intros w Hi; simpl.
  - repeat split; try done. lia.
  - destruct (run_handler_frozen (l_handler l) w Hi) as (w1 & -> & Hst & Hl & Ho & Hd & Hlen).
    cbn [after].
    destruct (IH w1) as (Hst' & Hl' & Ho' & Hd' & Hlen'); [by rewrite Hst|].
    simpl in *. repeat split; try congruence. lia.
Qed.

Lemma dispatch_frozen (t : eventTarget) (ty : string) (w : world) :
  isInitialized (state w) = true ->
  state (dispatch t ty w) = state w /\
  listeners (dispatch t ty w) = listeners w /\
  observers (dispatch t ty w) = observers w /\
  dom (dispatch t ty w) = dom w /\
  (length (timers (dispatch t ty w)) <= length (timers w) + 2 * length (listeners w))%nat.
Proof.
  intros Hi. unfold dispatch.
  destruct (handlers_frozen (filter (listens t ty) (listeners w)) w Hi)
    as (Hst & Hl & Ho & Hd & Hlen).
  simpl in *. repeat split; try done.
  pose proof (length_filter (listens t ty) (listeners w)). lia.
Qed.

Lemma advance_frozen (T : nat) :
  forall (fuel : nat) (w : world),
    isInitialized (state w) = true ->
    (length (timers w) <= fuel)%nat ->
    exists w',
      advance fuel T w = Some w' /\
      state w' = state w /\
      listeners w' = listeners w /\
      observers w' = observers w /\
      marker_only (sections (state w)) (dom w) (dom w') /\
      (length (timers w') <= length (timers w))%nat.
Proof.
  induction fuel as [|fuel IH]; intros w Hi Hlen; cbn [advance].
  - assert (timers w = []) as Hnil by (destruct (timers w); [done | simpl in Hlen; lia]).
    unfold due_timer. rewrite Hnil. simpl. eexists. split; [reflexivity|]. simpl.
    rewrite Hnil. do 3 (split; [done|]). split; [apply marker_only_refl | done].
  - destruct (due_timer T w) as [x|] eqn:Hdue.
    + apply due_timer_Some in Hdue as [Hx _]. unfold fire.
      set (w1 := clearTimeout (Some (t_id x)) (set_now (Nat.max (now w) (t_due x)) w)).
      destruct (run_callback_frozen (t_callback x) w1) as (d & t & -> & Hd); [done|].
      cbn [after].
      assert (Hlt : (length (timers (upd d t w1)) < length (timers w))%nat).
      { change (timers (upd d t w1)) with (filter (λ y, t_id y ≠ t_id x) (timers w)).
        apply (length_filter_lt _ _ x); [done|]. intros H. by apply H. }
      destruct (IH (upd d t w1)) as (w' & Hadv & Hst & Hl & Ho & Hd' & Hlen');
        [done | lia |].
      exists w'. split; [done|]. do 3 (split; [done|]).
      split; [eapply marker_only_trans; [exact Hd | exact Hd'] | lia].
    + eexists. split; [reflexivity|]. simpl. do 3 (split; [done|]).
      split; [apply marker_only_refl | done].
Qed.

Lemma play_frozen (fuel : nat) (events : list event) :
  forall w,
    isInitialized (state w) = true ->
    (length (timers w) + 2 * length (listeners w) * length events <= fuel)%nat ->
    exists w',
      play fuel events w = Some w' /\
      state w' = state w /\
      listeners w' = listeners w /\
      observers w' = observers w /\
      marker_only (sections (state w)) (dom w) (dom w').
Proof.
  induction events as [|e events IH]; intros w Hi Hfuel; cbn [play].
  - exists w. do 4 (split; [done|]). apply marker_only_refl.
  - simpl in Hfuel. rewrite Nat.mul_succ_r in Hfuel.
    destruct (advance_frozen (e_time e) fuel w Hi) as (w1 & -> & Hst & Hl & Ho & Hd & Hlen);
      [lia|].
    assert (Hi1 : isInitialized (state w1) = true) by (by rewrite Hst).
    destruct (dispatch_frozen (e_target e) (e_type e) w1 Hi1) as (Hst2 & Hl2 & Ho2 & Hd2 & Hlen2).
    destruct (IH (dispatch (e_target e) (e_type e) w1)) as (w' & Hplay & Hst' & Hl' & Ho' & Hd').
    { by rewrite Hst2. }
    { rewrite Hl2, Hl. rewrite Hl in Hlen2. lia. }
    exists w'. split; [done|]. do 3 (split; [congruence|]).
    eapply marker_only_trans; [exact Hd|].
    rewrite Hst2, Hd2, Hst in Hd'. exact Hd'.
Qed.

(** X6: once [init] has succeeded nothing the event loop brings
    changes the tracker: through any schedule of events and timers the
    closure variables, the listeners and the observers stay as they are,
    and the document changes by the marker class on sections only.  The
    section list is the one queried at [init]; later changes of the
    document do not reach it.  The schedule runs to its end with fuel for
    the pending timers and two more per listener and event. *)
Theorem initialized_tracker_is_frozen (w : world) (events : list event) (fuel : nat) :
  isInitialized (state w) = true ->
  (length (timers w) + 2 * length (listeners w) * length events <= fuel)%nat ->
  exists w',
    play fuel events w = Some w' /\
    state w' = state w /\
    listeners w' = listeners w /\
    observers w' = observers w /\
    marker_only (sections (state w)) (dom w) (dom w').
Proof. apply play_frozen. Qed.

Lemma initialized_tracker_is_frozen_witness :
  exists w',
    play 60 (ten_scrolls ++ [touchend_at 0 400; {| e_time := 500; e_target := Window;
                                                   e_type := "load" |}])
         demo_world = Some w' /\
    state w' = state demo_world /\
    listeners w' = listeners demo_world /\
    observers w' = observers demo_world /\
    marker_only (sections (state demo_world)) (dom demo_world) (dom w').
Proof.
  apply (initialized_tracker_is_frozen demo_world); [reflexivity | vm_compute; lia].
Defined.

(** ** The module body *)

Lemma boot_eq (loading io : bool) (d : list element) :
  exists w0,
    isInitialized (state w0) = false /\
    dom w0 = d /\
    hasIntersectionObserver w0 = io /\
    timers w0 = [] /\ nextTimer w0 = 1%nat /\ now w0 = 0%nat /\
    listeners w0 = (if loading then [ready_listener; load_listener] else []) /\
    forall w1, init w0 = Normal w1 ->
      boot loading d io =
      if loading then w1 else set_listeners (listeners w1 ++ [load_listener]) w1.
Proof.
  destruct loading.
  - exists (set_listeners [ready_listener; load_listener] (page d io)).
    repeat split. intros w1 Hinit.
    unfold boot, main, andThen, addEventListener, pure. cbn [after].
    unfold dispatch. cbn [listeners set_listeners page app].
    change (filter _ _) with [ready_listener]. cbn [fold_left ready_listener l_handler run_handler].
    fold ready_listener load_listener.
    change (set_listeners _ (set_listeners _ (page d io)))
      with (set_listeners [ready_listener; load_listener] (page d io)).
    by rewrite Hinit.
  - exists (page d io). repeat split. intros w1 Hinit.
    unfold boot, main, andThen. rewrite Hinit. reflexivity.
Qed.

(** X7: the module body on a document that has the container and
    the sections.  Whether the document was still loading (init runs at
    DOMContentLoaded) or not (init runs at once), the tracker ends
    initialised with the mode's two listeners registered once, next to the
    load listener, and the 50 ms timer queued.  Whatever comes later, the
    load event and its second [init] included, leaves the listeners and
    the closure variables as they are. *)
Theorem boot_initialises_once (loading io : bool) (d : list element) (c : nat) :
  querySelector_container d = Some c ->
  querySelectorAll_sections d <> [] ->
  state (boot loading d io) =
    {| isInitialized := true; container := Some c;
       sections := querySelectorAll_sections d |} /\
  listeners (boot loading d io) =
    (if loading
     then [ready_listener; load_listener] ++ setup_listeners io c
     else setup_listeners io c ++ [load_listener]) /\
  timers (boot loading d io) =
    [{| t_id := 1; t_due := 50; t_callback := CbMarkFirst |}] /\
  (forall (events : list event) (fuel : nat),
      (1 + 8 * length events <= fuel)%nat ->
      exists w',
        play fuel events (boot loading d io) = Some w' /\
        state w' = state (boot loading d io) /\
        listeners w' = listeners (boot loading d io)).
Proof.
  intros Hc Hs.
  destruct (boot_eq loading io d)
    as (w0 & Hi & Hd & Hio & Htm & Hnt & Hnow & Hl & Hboot).
  destruct (init_success w0 c Hi) as (w1 & Hinit & Hst & Hl1 & Htm1 & _);
    [by rewrite Hd | by rewrite Hd |].
  rewrite (Hboot w1 Hinit). rewrite Hd in Hst. rewrite Hl, Hio in Hl1.
  rewrite Htm, Hnt, Hnow in Htm1.
  assert (Hfacts :
    state (if loading then w1 else set_listeners (listeners w1 ++ [load_listener]) w1) =
      {| isInitialized := true; container := Some c;
         sections := querySelectorAll_sections d |} /\
    listeners (if loading then w1 else set_listeners (listeners w1 ++ [load_listener]) w1) =
      (if loading
       then [ready_listener; load_listener] ++ setup_listeners io c
       else setup_listeners io c ++ [load_listener]) /\
    timers (if loading then w1 else set_listeners (listeners w1 ++ [load_listener]) w1) =
      [{| t_id := 1; t_due := 50; t_callback := CbMarkFirst |}]).
  { destruct loading; simpl; rewrite ?Hl1; by repeat split. }
  destruct Hfacts as (Hst' & Hl' & Htm').
  do 3 (split; [done|]).
  intros events fuel Hfuel.
  destruct (play_frozen fuel events
              (if loading then w1 else set_listeners (listeners w1 ++ [load_listener]) w1))
    as (w' & Hplay & Hst2 & Hl2 & _).
  { by rewrite Hst'. }
  { rewrite Htm', Hl'. destruct loading, io; simpl; lia. }
  exists w'. by repeat split.
Qed.

Lemma boot_initialises_once_witness :
  state (boot true demo_dom false) =
    {| isInitialized := true; container := Some 0%nat;
       sections := querySelectorAll_sections demo_dom |} /\
  listeners (boot true demo_dom false) =
    [ready_listener; load_listener] ++ setup_listeners false 0 /\
  timers (boot true demo_dom false) =
    [{| t_id := 1; t_due := 50; t_callback := CbMarkFirst |}] /\
  (forall (events : list event) (fuel : nat),
      (1 + 8 * length events <= fuel)%nat ->
      exists w',
        play fuel events (boot true demo_dom false) = Some w' /\
        state w' = state (boot true demo_dom false) /\
        listeners w' = listeners (boot true demo_dom false)).
Proof.
  apply (boot_initialises_once true false demo_dom 0); [reflexivity | discriminate].
Defined.

(** ** Initialisation, by detection mode *)

(** After a recompute on well-formed references, exactly one section is
    marked: the selected one. *)
Lemma recompute_exclusive (w : world) (c : nat) (t : list effect) :
  wf w ->
  selectable w c ->
  exists s,
    closest w c = Some s /\
    s ∈ sections (state w) /\
    classList_contains s marker (upd (recompute_dom w c) t w) = true /\
    (forall s', s' ∈ sections (state w) -> s' <> s ->
                classList_contains s' marker (upd (recompute_dom w c) t w) = false) /\
    length (filter (λ x, classList_contains x marker (upd (recompute_dom w c) t w) = true)
                   (sections (state w))) = 1%nat.
Proof.
  intros [Hnd Hrange] Hne. rewrite Forall_forall in Hrange.
  destruct (closest_is_Some w c Hne) as [s Hs].
  pose proof (closest_in_sections _ _ _ Hs) as Hin.
  exists s.
  assert (Hmarked : classList_contains s marker (upd (recompute_dom w c) t w) = true).
  { rewrite classList_contains_upd.
    destruct (lookup_lt_is_Some_2 (dom w) s (Hrange s Hin)) as [e He].
    rewrite (recompute_dom_lookup _ _ _ e He), bool_decide_eq_true_2 by done.
    apply token_add_present. }
  assert (Hothers : forall s', s' ∈ sections (state w) -> s' <> s ->
            classList_contains s' marker (upd (recompute_dom w c) t w) = false).
  { intros s' Hin' Hneq. rewrite classList_contains_upd.
    destruct (lookup_lt_is_Some_2 (dom w) s' (Hrange s' Hin')) as [e He].
    rewrite (recompute_dom_lookup _ _ _ e He).
    rewrite bool_decide_eq_false_2 by congruence.
    rewrite bool_decide_eq_true_2 by done.
    apply token_remove_absent. }
  do 4 (split; [done|]).
  rewrite (filter_singleton _ _ s Hnd Hin); [done|].
  intros x Hx. split.
  - intros Hv. destruct (decide (x = s)) as [|Hneq]; [done|].
    rewrite Hothers in Hv; done.
  - by intros ->.
Qed.

Lemma setupScrollFallback_check (w : world) (c : nat) :
  container (state w) = Some c ->
  setupScrollFallback w =
  checkVisibleSection
    (set_listeners (listeners w ++ setup_listeners false c) (set_scrollTimer None w)).
Proof.
  intros Hc. unfold setupScrollFallback, andThen.
  unfold pure, container_addEventListener, addEventListener, pure; simpl.
  rewrite Hc. simpl.
  replace (set_listeners _ (set_listeners _ (set_scrollTimer None w)))
    with (set_listeners (listeners w ++ setup_listeners false c) (set_scrollTimer None w))
    by (unfold set_listeners, set_scrollTimer; simpl; by rewrite <- app_assoc).
  done.
Qed.

(** The world in which the fallback's immediate recompute runs. *)
Lemma init_fallback_eq (w : world) (c : nat) :
  isInitialized (state w) = false ->
  hasIntersectionObserver w = false ->
  querySelector_container (dom w) = Some c ->
  querySelectorAll_sections (dom w) <> [] ->
  exists w0,
    dom w0 = dom w /\
    state w0 = {| isInitialized := false; container := Some c;
                  sections := querySelectorAll_sections (dom w) |} /\
    trace w0 = trace w ++ queries /\
    init w =
    Normal (set_isInitialized true
              (snd (setTimeout CbMarkFirst 50
                      (upd (recompute_dom w0 c) (recompute_trace w0 c) w0)))).
Proof.
  intros Hi Hio Hc Hs.
  exists (set_listeners (listeners (queryDocument w) ++ setup_listeners false c)
            (set_scrollTimer None (queryDocument w))).
  split; [done|]. split; [simpl; by rewrite Hi, Hc|].
  split; [unfold queries; simpl; by rewrite <- app_assoc|].
  unfold init. rewrite Hi. cbv zeta.
  change (container (state (queryDocument w))) with (querySelector_container (dom w)).
  change (sections (state (queryDocument w))) with (querySelectorAll_sections (dom w)).
  change (hasIntersectionObserver (queryDocument w)) with (hasIntersectionObserver w).
  rewrite Hc, (guard_passes c _ Hs), Hio.
  assert (Hc0 : container (state (queryDocument w)) = Some c) by exact Hc.
  unfold andThen. rewrite (setupScrollFallback_check _ c Hc0).
  rewrite (checkVisibleSection_eq _ c) by exact Hc0. reflexivity.
Qed.

Lemma init_observer_document (w : world) (c : nat) :
  isInitialized (state w) = false ->
  hasIntersectionObserver w = true ->
  querySelector_container (dom w) = Some c ->
  querySelectorAll_sections (dom w) <> [] ->
  exists w1, init w = Normal w1 /\ dom w1 = dom w /\ trace w1 = trace w ++ queries.
Proof.
  intros Hi Hio Hc Hs. unfold init. rewrite Hi. cbv zeta.
  change (container (state (queryDocument w))) with (querySelector_container (dom w)).
  change (sections (state (queryDocument w))) with (querySelectorAll_sections (dom w)).
  change (hasIntersectionObserver (queryDocument w)) with (hasIntersectionObserver w).
  rewrite Hc, (guard_passes c _ Hs), Hio.
  assert (Hc0 : container (state (queryDocument w)) = Some c) by exact Hc.
  unfold andThen.
  destruct (setupIntersectionObserver_eq _ _ Hc0) as [obs ->].
  eexists. split; [reflexivity|]. simpl. split; [done|].
  unfold queries. by rewrite <- app_assoc.
Qed.

Lemma recomputes_queries : recomputes queries = 0%nat.
Proof. reflexivity. Qed.

(** X8: what a successful [init] does to the document depends on the
    detection mode.  With the observer API it touches no class and runs no
    recompute.  Without it, the fallback setup recomputes at once; if some
    section's computed distance to the container's centre is below
    [Infinity], then when [init] returns exactly one section is marked, one
    at the least computed distance: no section's distance is [<] its
    distance, which is [<=] every distance that is a number. *)
Theorem init_by_mode (w : world) (c : nat) :
  isInitialized (state w) = false ->
  querySelector_container (dom w) = Some c ->
  querySelectorAll_sections (dom w) <> [] ->
  exists w1,
    init w = Normal w1 /\
    if hasIntersectionObserver w
    then dom w1 = dom w /\ recomputes (trace w1) = recomputes (trace w)
    else
      recomputes (trace w1) = (recomputes (trace w) + 1)%nat /\
      (Exists (finite_distance w c) (querySelectorAll_sections (dom w)) ->
       visibleSections (getState w1) = 1%nat /\
       exists s,
         s ∈ sections (state w1) /\
         classList_contains s marker w1 = true /\
         (forall s', s' ∈ sections (state w1) -> s' <> s ->
                     classList_contains s' marker w1 = false) /\
         finite_distance w c s /\
         (forall s', s' ∈ sections (state w1) ->
                     lt_number (distance w c s') (distance w c s) = false /\
                     (is_nan (distance w c s') = false ->
                      le_number (distance w c s) (distance w c s') = true))).
Proof.
  intros Hi Hc Hs. destruct (hasIntersectionObserver w) eqn:Hio.
  - destruct (init_observer_document w c Hi Hio Hc Hs) as (w1 & Hinit & Hd & Htr).
    exists w1. split; [done|]. split; [done|].
    rewrite Htr, recomputes_app, recomputes_queries. lia.
  - destruct (init_fallback_eq w c Hi Hio Hc Hs) as (w0 & Hd0 & Hst0 & Htr0 & Hinit).
    eexists. split; [exact Hinit|].
    assert (Hsec : sections (state w0) = querySelectorAll_sections (dom w))
      by (by rewrite Hst0).
    assert (Hwf : wf w0).
    { unfold wf. rewrite Hsec, Hd0. split.
      - apply querySelectorAll_sections_NoDup.
      - apply Forall_forall. apply querySelectorAll_sections_range. }
    assert (Hdist : forall y, distance w0 c y = distance w c y).
    { intros y. unfold distance, rect_of. by rewrite Hd0. }
    split.
    { change (trace (set_isInitialized true _)) with (trace w0 ++ recompute_trace w0 c).
      rewrite Htr0, !recomputes_app, recomputes_recompute_trace, recomputes_queries.
      lia. }
    intros Hfin.
    assert (Hsel : selectable w0 c).
    { unfold selectable. rewrite Hsec. eapply Exists_impl; [exact Hfin|].
      intros y Hy. unfold finite_distance. by rewrite Hdist. }
    destruct (recompute_exclusive w0 c (recompute_trace w0 c) Hwf Hsel)
      as (s & Hcl & Hin & Hm & Ho & Hone).
    split; [exact Hone|].
    destruct (closest_spec w0 c s Hcl) as (k & Hk & Hfs & Hmin & _).
    unfold finite_distance in Hfs. rewrite Hdist in Hfs.
    exists s. split; [exact Hin|]. split; [exact Hm|]. split; [exact Ho|].
    split; [exact Hfs|].
    intros s' Hs'. change (sections (state (set_isInitialized true _)))
      with (sections (state w0)) in Hs'.
    apply list_elem_of_lookup_1 in Hs' as [j Hj].
    pose proof (Hmin j s' Hj) as Hlt. rewrite !Hdist in Hlt.
    split; [exact Hlt|].
    intros Hnan. apply lt_number_false_le; [|done..].
    by apply lt_Infinity_not_nan.
Qed.

Lemma init_by_mode_witness :
  exists w1,
    init (page demo_dom false) = Normal w1 /\
    if hasIntersectionObserver (page demo_dom false)
    then dom w1 = dom (page demo_dom false) /\
         recomputes (trace w1) = recomputes (trace (page demo_dom false))
    else
      recomputes (trace w1) = (recomputes (trace (page demo_dom false)) + 1)%nat /\
      (Exists (finite_distance (page demo_dom false) 0)
              (querySelectorAll_sections (dom (page demo_dom false))) ->
       visibleSections (getState w1) = 1%nat /\
       exists s,
         s ∈ sections (state w1) /\
         classList_contains s marker w1 = true /\
         (forall s', s' ∈ sections (state w1) -> s' <> s ->
                     classList_contains s' marker w1 = false) /\
         finite_distance (page demo_dom false) 0 s /\
         (forall s', s' ∈ sections (state w1) ->
                     lt_number (distance (page demo_dom false) 0 s')
                               (distance (page demo_dom false) 0 s) = false /\
                     (is_nan (distance (page demo_dom false) 0 s') = false ->
                      le_number (distance (page demo_dom false) 0 s)
                                (distance (page demo_dom false) 0 s') = true))).
Proof.
  apply (init_by_mode (page demo_dom false) 0); [reflexivity | reflexivity | discriminate].
Defined.

(** The sample page satisfies the condition of the fallback branch. *)
Example demo_page_finite :
  Exists (finite_distance (page demo_dom false) 0)
         (querySelectorAll_sections (dom (page demo_dom false))).
Proof. apply Exists_cons_hd. reflexivity. Qed.

(** ** Timers that recompute *)

Lemma running_fired (c : nat) (w : world) (x : timer) (d : list element) (t : list effect) :
  running c w ->
  running c (upd d t (clearTimeout (Some (t_id x))
                        (set_now (Nat.max (now w) (t_due x)) w))).
Proof.
  intros (Hi & Hc & Hnd & Hids). split; [done|]. split; [done|]. simpl. split.
  - by apply NoDup_ids_filter.
  - apply Forall_forall. intros y Hy. apply list_elem_of_filter in Hy as [_ Hy].
    rewrite Forall_forall in Hids. by apply Hids.
Qed.

Lemma same_id_same_timer (l : list timer) (x y : timer) :
  NoDup (t_id <$> l) -> x ∈ l -> y ∈ l -> t_id x = t_id y -> x = y.
Proof.
  induction l as [|a l IH]; intros Hnd Hx Hy Heq.
  - by apply elem_of_nil in Hx.
  - rewrite fmap_cons in Hnd. apply NoDup_cons in Hnd as [Ha Hnd].
    apply elem_of_cons in Hx as [->|Hx], Hy as [->|Hy]; [done | | |by apply IH].
    + exfalso. apply Ha. rewrite Heq. by apply list_elem_of_fmap_2.
    + exfalso. apply Ha. rewrite <- Heq. by apply list_elem_of_fmap_2.
Qed.

(** The clock running over a queue without first-section timers: once a
    recompute timer has fired, or if it held before, exactly one section
    is marked at the end. *)
Lemma advance_exclusive (c T : nat) :
  forall (fuel : nat) (w : world),
    running c w ->
    wf w ->
    selectable w c ->
    Forall (λ x, t_callback x ≠ CbMarkFirst) (timers w) ->
    (length (timers w) <= fuel)%nat ->
    exists w',
      advance fuel T w = Some w' /\
      state w' = state w /\
      (Exists (λ x, is_check x /\ (t_due x <= T)%nat) (timers w) \/
       visibleSections (getState w) = 1%nat ->
       visibleSections (getState w') = 1%nat).
Proof.
  induction fuel as [|fuel IH]; intros w Hrun Hwf Hne Hnomark Hlen; cbn [advance].
  - assert (timers w = []) as Hnil by (destruct (timers w); [done | simpl in Hlen; lia]).
    unfold due_timer. rewrite Hnil. simpl. eexists. split; [reflexivity|].
    split; [done|]. intros [Hex|Hone]; [by apply Exists_nil in Hex | exact Hone].
  - destruct (due_timer T w) as [x|] eqn:Hdue.
    + apply due_timer_Some in Hdue as [Hx HxT].
      pose proof Hrun as (Hi & Hc & Hnd & Hids).
      unfold fire.
      set (w1 := clearTimeout (Some (t_id x)) (set_now (Nat.max (now w) (t_due x)) w)).
      assert (Hrun1 : forall d t, running c (upd d t w1))
        by (intros d t; by apply running_fired).
      assert (Hlt : (length (timers w1) < length (timers w))%nat).
      { apply (length_filter_lt _ _ x); [done|]. intros H. by apply H. }
      assert (Hnomark1 : Forall (λ y, t_callback y ≠ CbMarkFirst) (timers w1)).
      { apply Forall_forall. intros y Hy. apply list_elem_of_filter in Hy as [_ Hy].
        rewrite Forall_forall in Hnomark. by apply Hnomark. }
      destruct (t_callback x) eqn:Hcb.
      * (* init, a no-op *)
        cbn [run_callback]. rewrite (init_guard w1) by exact Hi. cbn [after].
        destruct (IH w1) as (w' & Hadv & Hst & Himp); try done.
        { rewrite <- (upd_id w1). apply Hrun1. }
        { lia. }
        exists w'. split; [done|]. split; [done|].
        intros [Hex|Hone]; apply Himp; [left | by right].
        apply Exists_exists in Hex as (y & Hy & Hck & HyT).
        apply Exists_exists. exists y. split; [|done].
        apply list_elem_of_filter. split; [|done].
        intros Heq. assert (y = x) as -> by by eapply same_id_same_timer.
        unfold is_check in Hck. rewrite Hcb in Hck. by destruct Hck.
      * (* a recompute *)
        cbn [run_callback]. rewrite (checkVisibleSection_eq w1 c) by exact Hc. cbn [after].
        destruct (recompute_exclusive w1 c (recompute_trace w1 c) Hwf Hne)
          as (s & _ & _ & _ & _ & Hone).
        destruct (IH (upd (recompute_dom w1 c) (recompute_trace w1 c) w1))
          as (w' & Hadv & Hst & Himp); try done.
        { destruct Hwf as [? ?]. split; [done|]. simpl. by rewrite recompute_dom_length. }
        { by apply selectable_recompute. }
        { change (timers (upd _ _ w1)) with (timers w1). lia. }
        exists w'. split; [done|]. split; [done|]. intros _. apply Himp. by right.
      * (* the debounced recompute *)
        cbn [run_callback]. rewrite (checkVisibleSection_eq w1 c) by exact Hc. cbn [after].
        destruct (recompute_exclusive w1 c (recompute_trace w1 c) Hwf Hne)
          as (s & _ & _ & _ & _ & Hone).
        destruct (IH (upd (recompute_dom w1 c) (recompute_trace w1 c) w1))
          as (w' & Hadv & Hst & Himp); try done.
        { destruct Hwf as [? ?]. split; [done|]. simpl. by rewrite recompute_dom_length. }
        { by apply selectable_recompute. }
        { change (timers (upd _ _ w1)) with (timers w1). lia. }
        exists w'. split; [done|]. split; [done|]. intros _. apply Himp. by right.
      * rewrite Forall_forall in Hnomark. by destruct (Hnomark x Hx).
    + apply due_timer_None in Hdue. eexists. split; [reflexivity|]. split; [done|].
      intros [Hex|Hone]; [|exact Hone].
      apply Exists_exists in Hex as (y & Hy & _ & HyT).
      rewrite Forall_forall in Hdue. specialize (Hdue y Hy). lia.
Qed.

(** X9: when the clock passes the due time of a pending recompute
    timer, no first-section timer is pending, and some section's computed
    distance to the container's centre is below [Infinity], exactly one
    section is marked afterwards, whatever the observer callback or the
    50 ms timer had left before. *)
Theorem recompute_timer_restores_exclusivity (c T fuel : nat) (w : world) :
  running c w ->
  wf w ->
  selectable w c ->
  Forall (λ x, t_callback x ≠ CbMarkFirst) (timers w) ->
  Exists (λ x, is_check x /\ (t_due x <= T)%nat) (timers w) ->
  (length (timers w) <= fuel)%nat ->
  exists w',
    advance fuel T w = Some w' /\
    visibleSections (getState w') = 1%nat.
Proof.
  intros Hrun Hwf Hne Hnomark Hex Hlen.
  destruct (advance_exclusive c T fuel w Hrun Hwf Hne Hnomark Hlen) as (w' & Hadv & _ & Himp).
  exists w'. split; [done|]. apply Himp. by left.
Qed.

Lemma recompute_timer_restores_exclusivity_witness :
  exists w',
    advance 1 160 (dispatch (Element 0) "scroll" booted_world) = Some w' /\
    visibleSections (getState w') = 1%nat.
Proof.
  apply (recompute_timer_restores_exclusivity 0 160 1
           (dispatch (Element 0) "scroll" booted_world)).
  - exact (bool_decide_unpack
             (running 0 (dispatch (Element 0) "scroll" booted_world)) I).
  - exact (bool_decide_unpack (wf (dispatch (Element 0) "scroll" booted_world)) I).
  - exact (bool_decide_unpack
             (selectable (dispatch (Element 0) "scroll" booted_world) 0) I).
  - exact (bool_decide_unpack
             (Forall (λ x, t_callback x ≠ CbMarkFirst)
                     (timers (dispatch (Element 0) "scroll" booted_world))) I).
  - exact (bool_decide_unpack
             (Exists (λ x, is_check x /\ (t_due x <= 160)%nat)
                     (timers (dispatch (Element 0) "scroll" booted_world))) I).
  - vm_compute. lia.
Defined.

(** X10: the load handler.  On a running tracker with no first-section
    timer pending and with a section whose computed distance to the
    container's centre is below [Infinity], 200 ms after the load event
    exactly one section is marked: the retry of [init] at 100 ms does
    nothing, the recompute at 200 ms settles the classes. *)
Theorem load_settles_the_classes (c fuel : nat) (w : world) :
  running c w ->
  wf w ->
  selectable w c ->
  Forall (λ x, t_callback x ≠ CbMarkFirst) (timers w) ->
  filter (listens Window "load") (listeners w) = [load_listener] ->
  (length (timers w) + 2 <= fuel)%nat ->
  exists w',
    advance fuel (now w + 200) (dispatch Window "load" w) = Some w' /\
    state w' = state w /\
    visibleSections (getState w') = 1%nat.
Proof.
  intros Hrun Hwf Hne Hnomark Hload Hlen.
  unfold dispatch. rewrite Hload. cbn [fold_left load_listener l_handler run_handler].
  unfold andThen, pure. cbn [after].
  set (wl := snd (setTimeout CbCheckVisibleSection 200 (snd (setTimeout CbInit 100 w)))).
  assert (Htm : timers wl = timers w ++
            [{| t_id := nextTimer w; t_due := now w + 100; t_callback := CbInit |};
             {| t_id := S (nextTimer w); t_due := now w + 200;
                t_callback := CbCheckVisibleSection |}])
    by (simpl; by rewrite <- app_assoc).
  destruct Hrun as (Hi & Hc & Hnd & Hids).
  destruct (advance_exclusive c (now w + 200) fuel wl) as (w' & Hadv & Hst & Himp).
  - split; [done|]. split; [done|]. rewrite Htm. split.
    + rewrite fmap_app. apply NoDup_app. split; [done|]. split.
      * intros i Hi1 Hi2. apply list_elem_of_fmap in Hi1 as (y & -> & Hy).
        rewrite Forall_forall in Hids. specialize (Hids y Hy).
        simpl in Hi2. rewrite !elem_of_cons in Hi2.
        destruct Hi2 as [?|[?|Hnil]]; [lia | lia | by apply elem_of_nil in Hnil].
      * simpl. apply NoDup_cons. split; [|apply NoDup_singleton].
        rewrite list_elem_of_singleton. lia.
    + apply Forall_app_2.
      * eapply Forall_impl; [exact Hids|]. simpl. intros; lia.
      * repeat constructor; simpl; lia.
  - exact Hwf.
  - exact Hne.
  - rewrite Htm. apply Forall_app_2; [done|]. by repeat constructor.
  - rewrite Htm, length_app. simpl. lia.
  - exists w'. split; [done|]. split; [done|]. apply Himp. left.
    rewrite Htm. apply Exists_app. right. apply Exists_cons. right.
    apply Exists_cons. left. split; [by left | simpl; lia].
Qed.

Lemma load_settles_the_classes_witness :
  exists w',
    advance 2 (now booted_world + 200) (dispatch Window "load" booted_world) = Some w' /\
    state w' = state booted_world /\
    visibleSections (getState w') = 1%nat.
Proof.
  apply (load_settles_the_classes 0 2 booted_world).
  - exact (bool_decide_unpack (running 0 booted_world) I).
  - exact (bool_decide_unpack (wf booted_world) I).
  - exact (bool_decide_unpack (selectable booted_world 0) I).
  - exact (bool_decide_unpack
             (Forall (λ x, t_callback x ≠ CbMarkFirst) (timers booted_world)) I).
  - reflexivity.
  - vm_compute. lia.
Defined.

Example booted_world_has_two_visible :
  visibleSections (getState booted_world) = 2%nat /\ timers booted_world = [].
Proof. split; reflexivity. Qed.

(** ** Debounced events, however they are spaced *)

Lemma advance_running_checks (c T fuel : nat) (w : world) :
  running c w ->
  (length (timers w) <= fuel)%nat ->
  exists w',
    advance fuel T w = Some w' /\
    running c w' /\
    timers w' = filter (λ x, (T < t_due x)%nat) (timers w) /\
    pending_checks w' = filter (λ x, (T < t_due x)%nat) (pending_checks w) /\
    recomputes (trace w') =
      (recomputes (trace w) +
       length (filter (λ x, (t_due x <= T)%nat) (pending_checks w)))%nat /\
    scrollTimer w' = scrollTimer w /\
    listeners w' = listeners w /\
    now w' = Nat.max (now w) T.
Proof.
  intros Hrun Hlen.
  destruct (advance_running c T fuel w Hrun Hlen)
    as (w' & Hadv & Hrun' & Htm & Hrec & Hst & Hnt & Hls & Hs & Hnow).
  exists w'. do 3 (split; [done|]).
  unfold pending_checks. split.
  { rewrite Htm, !list_filter_filter. apply list_filter_iff. intros x. tauto. }
  split; [|done].
  rewrite Hrec. f_equal. f_equal. rewrite list_filter_filter.
  apply list_filter_iff. intros x. tauto.
Qed.

(** One debounced event: whatever was pending is cancelled, and one timer
    is pending afterwards, due [scrollDebounce] ms from now. *)
Lemma debounce_step (cb : callback) (c k : nat) (p : option nat) (w : world) :
  cb = CbCheckVisibleSection \/ cb = CbScrollCheck ->
  debounced cb c k p w ->
  debounced cb c k (Some (now w + scrollDebounce)) (after (debounce cb w)) /\
  now (after (debounce cb w)) = now w /\
  listeners (after (debounce cb w)) = listeners w /\
  (length (timers (after (debounce cb w))) <=
   match p with
   | None => S (length (timers w))
   | Some _ => length (timers w)
   end)%nat.
Proof.
  intros Hcb (Hrun & Hk & Hp).
  assert (Heq : after (debounce cb w) =
                set_scrollTimer (Some (nextTimer w))
                  (snd (setTimeout cb scrollDebounce (clearTimeout (scrollTimer w) w)))).
  { unfold debounce, pure. cbn [after]. by destruct (scrollTimer w). }
  assert (Htm : timers (after (debounce cb w)) =
                without (scrollTimer w) (timers w) ++
                [{| t_id := nextTimer w; t_due := now w + scrollDebounce;
                    t_callback := cb |}]).
  { rewrite Heq. simpl. rewrite timers_clearTimeout. by destruct (scrollTimer w). }
  assert (Hpc : pending_checks (after (debounce cb w)) =
                without (scrollTimer w) (pending_checks w) ++
                [{| t_id := nextTimer w; t_due := now w + scrollDebounce;
                    t_callback := cb |}]).
  { unfold pending_checks. rewrite Htm, filter_app, pending_checks_without.
    f_equal. rewrite filter_cons_True; [done|]. exact Hcb. }
  split; [|split; [|split]].
  - split; [rewrite Heq; by apply running_schedule|].
    split; [rewrite Heq, <- Hk; by destruct (scrollTimer w)|].
    exists (nextTimer w). split; [by rewrite Heq|].
    rewrite Hpc. destruct p as [d|].
    + destruct Hp as (id & Hid & Hpend). rewrite Hpend, Hid. simpl.
      rewrite filter_cons_False by (simpl; by intros H). done.
    + rewrite Hp. by destruct (scrollTimer w).
  - rewrite Heq. by destruct (scrollTimer w).
  - rewrite Heq. by destruct (scrollTimer w).
  - rewrite Htm, length_app. simpl. destruct p as [d|].
    + destruct Hp as (id & Hid & Hpend). rewrite Hid. simpl.
      assert ({| t_id := id; t_due := d; t_callback := cb |} ∈ timers w) as Hin.
      { assert (Hin : {| t_id := id; t_due := d; t_callback := cb |} ∈ pending_checks w)
          by (rewrite Hpend; apply list_elem_of_here).
        unfold pending_checks in Hin. by apply list_elem_of_filter in Hin as [_ ?]. }
      pose proof (length_filter_lt (λ x, t_id x ≠ id) (timers w) _ Hin) as Hlt.
      simpl in Hlt. specialize (Hlt (fun H => H eq_refl)). lia.
    + pose proof (without_length (scrollTimer w) (timers w)). lia.
Qed.

(** The clock running over a debounced tracker: the pending timer fires
    when its due time is reached, and runs one recompute. *)
Lemma debounced_advance (cb : callback) (c k T fuel : nat) (p : option nat) (w : world) :
  debounced cb c k p w ->
  (length (timers w) <= fuel)%nat ->
  exists w',
    advance fuel T w = Some w' /\
    now w' = Nat.max (now w) T /\
    listeners w' = listeners w /\
    match p with
    | Some d =>
        if (d <=? T)%nat
        then debounced cb c (S k) None w' /\ (S (length (timers w')) <= length (timers w))%nat
        else debounced cb c k (Some d) w' /\ (length (timers w') <= length (timers w))%nat
    | None => debounced cb c k None w' /\ (length (timers w') <= length (timers w))%nat
    end.
Proof.
  intros (Hrun & Hk & Hp) Hlen.
  destruct (advance_running_checks c T fuel w Hrun Hlen)
    as (w' & Hadv & Hrun' & Htm & Hpc & Hrec & Hst & Hls & Hnow).
  exists w'. do 3 (split; [done|]).
  destruct p as [d|].
  - destruct Hp as (id & Hid & Hpend). rewrite Hpend in Hpc, Hrec.
    assert (Hin : {| t_id := id; t_due := d; t_callback := cb |} ∈ timers w).
    { assert (Hin : {| t_id := id; t_due := d; t_callback := cb |} ∈ pending_checks w)
        by (rewrite Hpend; apply list_elem_of_here).
      unfold pending_checks in Hin. by apply list_elem_of_filter in Hin as [_ ?]. }
    destruct (d <=? T)%nat eqn:E.
    + apply Nat.leb_le in E. split.
      * split; [done|]. split.
        -- rewrite Hrec, filter_cons_True by (simpl; lia). simpl. lia.
        -- rewrite Hpc, filter_cons_False by (simpl; lia). done.
      * rewrite Htm.
        pose proof (length_filter_lt (λ x, (T < t_due x)%nat) (timers w) _ Hin) as Hlt.
        simpl in Hlt. specialize (Hlt ltac:(lia)). lia.
    + apply Nat.leb_gt in E. split.
      * split; [done|]. split.
        -- rewrite Hrec, filter_cons_False by (simpl; lia). simpl. lia.
        -- exists id. split; [congruence|].
           rewrite Hpc, filter_cons_True by (simpl; lia). done.
      * rewrite Htm. apply length_filter.
  - rewrite Hp in Hpc, Hrec. split.
    + split; [done|]. split; [simpl in Hrec; lia | done].
    + rewrite Htm. apply length_filter.
Qed.

Lemma dispatch_debounces (cb : callback) (e : event) (w : world) :
  debounces cb (listeners w) e ->
  dispatch (e_target e) (e_type e) w = after (debounce cb w).
Proof.
  intros (l & Hl & Hrun). unfold dispatch. rewrite Hl. simpl. by rewrite Hrun.
Qed.

(** A stream of debounced events, from the moment the first one has been
    handled. *)
Lemma play_settles (cb : callback) (c T fuel : nat) (L : list listener) (rest : list event) :
  cb = CbCheckVisibleSection \/ cb = CbScrollCheck ->
  forall (t k : nat) (w : world),
    debounced cb c k (Some (t + scrollDebounce)) w ->
    now w = t ->
    listeners w = L ->
    Forall (debounces cb L) rest ->
    ascending t (map e_time rest) ->
    (last_time t (map e_time rest) <= T)%nat ->
    (length (timers w) <= fuel)%nat ->
    exists w1 w2,
      play fuel rest w = Some w1 /\
      advance fuel T w1 = Some w2 /\
      recomputes (trace w2) = (k + settled t (map e_time rest) T)%nat.
Proof.
  intros Hcb. induction rest as [|e rest IH]; intros t k w Hdeb Hnow HL Hall Hasc HT Hlen.
  - simpl in *. exists w.
    destruct (debounced_advance cb c k T fuel _ w Hdeb Hlen) as (w2 & Hadv & _ & _ & Hres).
    exists w2. split; [done|]. split; [done|].
    destruct (t + scrollDebounce <=? T)%nat.
    + destruct Hres as [(_ & Hk & _) _]. lia.
    + destruct Hres as [(_ & Hk & _) _]. lia.
  - apply Forall_cons in Hall as [He Hall]. destruct Hasc as [Hle Hasc].
    cbn [map play last_time settled] in *.
    destruct (debounced_advance cb c k (e_time e) fuel _ w Hdeb Hlen)
      as (w1 & -> & Hnow1 & HL1 & Hres).
    assert (Hnow1' : now w1 = e_time e) by lia.
    rewrite (dispatch_debounces cb e w1) by (by rewrite HL1, HL).
    destruct (t + scrollDebounce <=? e_time e)%nat.
    + destruct Hres as [Hdeb1 Hlen1].
      destruct (debounce_step cb c (S k) None w1 Hcb Hdeb1) as (Hdeb2 & Hnow2 & HL2 & Hlen2).
      rewrite Hnow1' in Hdeb2.
      destruct (IH (e_time e) (S k) (after (debounce cb w1)))
        as (w' & w2 & Hplay & Hadv & Hrec); try done; [congruence | congruence | lia |].
      exists w', w2. split; [done|]. split; [done|]. lia.
    + destruct Hres as [Hdeb1 Hlen1].
      destruct (debounce_step cb c k (Some (t + scrollDebounce)) w1 Hcb Hdeb1)
        as (Hdeb2 & Hnow2 & HL2 & Hlen2).
      rewrite Hnow1' in Hdeb2.
      destruct (IH (e_time e) k (after (debounce cb w1)))
        as (w' & w2 & Hplay & Hadv & Hrec); try done; [congruence | congruence | lia |].
      exists w', w2. split; [done|]. split; [done|]. lia.
Qed.

(** The same, from an idle tracker. *)
Lemma play_debounced (cb : callback) (c T fuel : nat) (e : event) (rest : list event)
      (w : world) :
  cb = CbCheckVisibleSection \/ cb = CbScrollCheck ->
  running c w ->
  pending_checks w = [] ->
  Forall (debounces cb (listeners w)) (e :: rest) ->
  (now w <= e_time e)%nat ->
  ascending (e_time e) (map e_time rest) ->
  (last_time (e_time e) (map e_time rest) <= T)%nat ->
  (length (timers w) < fuel)%nat ->
  exists w1 w2,
    play fuel (e :: rest) w = Some w1 /\
    advance fuel T w1 = Some w2 /\
    recomputes (trace w2) =
      (recomputes (trace w) + settled (e_time e) (map e_time rest) T)%nat.
Proof.
  intros Hcb Hrun Hnone Hall Hnow Hasc HT Hfuel.
  apply Forall_cons in Hall as [He Hall]. cbn [play].
  assert (Hidle : debounced cb c (recomputes (trace w)) None w)
    by (split; [exact Hrun|]; split; [reflexivity | exact Hnone]).
  destruct (debounced_advance cb c _ (e_time e) fuel None w Hidle)
    as (w0 & -> & Hnow0 & HL0 & Hdeb0 & Hlen0); [lia|].
  assert (Hnow0' : now w0 = e_time e) by lia.
  rewrite (dispatch_debounces cb e w0) by (by rewrite HL0).
  destruct (debounce_step cb c _ None w0 Hcb Hdeb0) as (Hdeb1 & Hnow1 & HL1 & Hlen1).
  rewrite Hnow0' in Hdeb1.
  apply (play_settles cb c T fuel (listeners w) rest Hcb (e_time e) _ _ Hdeb1);
    try done; [congruence | congruence | lia].
Qed.

Lemma scroll_times (c : nat) (times : list nat) :
  map e_time (map (scroll_at c) times) = times.
Proof. induction times as [|t times IH]; [done|]. simpl. by rewrite IH. Qed.

(** X11: observer mode, scroll events at any spacing.  With no
    recompute timer pending at the start, the scroll events at times
    [t :: rest] have run, by any time [T] after the last one, one recompute
    for each event that is followed by 100 ms or more without another
    scroll: a pause of the debounce delay between two events lets the
    pending recompute run, a shorter one cancels it. *)
Theorem scroll_debounce_settles (c : nat) (w : world) (t : nat) (rest : list nat)
        (T fuel : nat) :
  observer_mode c w ->
  pending_checks w = [] ->
  (now w <= t)%nat ->
  ascending t rest ->
  (last_time t rest <= T)%nat ->
  (length (timers w) < fuel)%nat ->
  exists w1 w2,
    play fuel (map (scroll_at c) (t :: rest)) w = Some w1 /\
    advance fuel T w1 = Some w2 /\
    recomputes (trace w2) = (recomputes (trace w) + settled t rest T)%nat.
Proof.
  intros (Hrun & Hscroll & _) Hnone Hnow Hasc HT Hfuel.
  destruct (play_debounced CbScrollCheck c T fuel (scroll_at c t) (map (scroll_at c) rest) w)
    as (w1 & w2 & Hplay & Hadv & Hrec); try done.
  - by right.
  - apply Forall_forall. intros e He.
    assert (e_target e = Element c /\ e_type e = "scroll") as [Ht Hty].
    { apply elem_of_cons in He as [->|He]; [done|].
      by apply list_elem_of_fmap in He as (x & -> & _). }
    exists (scroll_listener c). rewrite Ht, Hty. by split.
  - by rewrite scroll_times.
  - by rewrite scroll_times.
  - exists w1, w2. split; [done|]. split; [done|]. by rewrite scroll_times in Hrec.
Qed.

Lemma scroll_debounce_settles_witness :
  exists w1 w2,
    play 3 (map (scroll_at 0) [100; 150; 300]%nat) demo_world = Some w1 /\
    advance 3 500 w1 = Some w2 /\
    recomputes (trace w2) =
      (recomputes (trace demo_world) + settled 100 [150; 300]%nat 500)%nat.
Proof.
  apply (scroll_debounce_settles 0 demo_world 100 [150; 300]%nat 500 3).
  - exact (bool_decide_unpack (observer_mode 0 demo_world) I).
  - reflexivity.
  - simpl. lia.
  - simpl. lia.
  - simpl. lia.
  - simpl. lia.
Defined.

Example scrolls_apart :
  settled 100 [150; 300]%nat 500 = 2%nat /\
  settled 100 [150; 300]%nat 399 = 1%nat /\
  settled 100 [105; 110]%nat 500 = 1%nat /\
  settled 100 [200; 300]%nat 400 = 3%nat.
Proof. repeat split; reflexivity. Qed.

(** X12: fallback mode.  The container's scroll events and the
    window's resize events share one debounce timer: a stream of such
    events, mixed in any way, has run by time [T] one recompute for each
    event that is followed by 100 ms or more without another scroll or
    resize. *)
Theorem fallback_debounce_settles (c : nat) (w : world) (e : event) (rest : list event)
        (T fuel : nat) :
  fallback_mode c w ->
  pending_checks w = [] ->
  Forall (scroll_or_resize c) (e :: rest) ->
  (now w <= e_time e)%nat ->
  ascending (e_time e) (map e_time rest) ->
  (last_time (e_time e) (map e_time rest) <= T)%nat ->
  (length (timers w) < fuel)%nat ->
  exists w1 w2,
    play fuel (e :: rest) w = Some w1 /\
    advance fuel T w1 = Some w2 /\
    recomputes (trace w2) =
      (recomputes (trace w) + settled (e_time e) (map e_time rest) T)%nat.
Proof.
  intros (Hrun & Hscroll & Hresize) Hnone Hall Hnow Hasc HT Hfuel.
  apply (play_debounced CbCheckVisibleSection c T fuel e rest w); try done.
  - by left.
  - eapply Forall_impl; [exact Hall|]. simpl.
    intros x [[Ht Hty]|[Ht Hty]]; unfold debounces; rewrite Ht, Hty.
    + exists (fallback_scroll_listener c). by split.
    + exists resize_listener. by split.
Qed.

Lemma fallback_debounce_settles_witness :
  exists w1 w2,
    play 3 [scroll_at 0 100;
            {| e_time := 150; e_target := Window; e_type := "resize" |};
            scroll_at 0 400] fallback_world = Some w1 /\
    advance 3 600 w1 = Some w2 /\
    recomputes (trace w2) =
      (recomputes (trace fallback_world) +
       settled 100 (map e_time
                      [{| e_time := 150; e_target := Window; e_type := "resize" |};
                       scroll_at 0 400]) 600)%nat.
Proof.
  apply (fallback_debounce_settles 0 fallback_world (scroll_at 0 100)
           [{| e_time := 150; e_target := Window; e_type := "resize" |}; scroll_at 0 400]
           600 3).
  - exact (bool_decide_unpack (fallback_mode 0 fallback_world) I).
  - reflexivity.
  - exact (bool_decide_unpack
             (Forall (scroll_or_resize 0)
                [scroll_at 0 100;
                 {| e_time := 150; e_target := Window; e_type := "resize" |};
                 scroll_at 0 400]) I).
  - simpl. lia.
  - simpl. lia.
  - simpl. lia.
  - simpl. lia.
Defined.

(** A scroll at 100 ms, a resize at 150 ms and a scroll at 400 ms in
    fallback mode: the resize cancels the first scroll's timer; with the
    recompute of the setup, three recomputes by 600 ms. *)
Example fallback_mixed_events :
  (w ← play 3 [scroll_at 0 100;
               {| e_time := 150; e_target := Window; e_type := "resize" |};
               scroll_at 0 400] fallback_world;
   w' ← advance 3 600 w; Some (recomputes (trace w'))) = Some 3%nat /\
  recomputes (trace fallback_world) = 1%nat.
Proof. split; reflexivity. Qed.

(** [init] on a page whose container and window have no listeners yet,
    without the observer API, starts fallback mode. *)
Lemma init_fallback_mode (w : world) (c : nat) :
  isInitialized (state w) = false ->
  hasIntersectionObserver w = false ->
  querySelector_container (dom w) = Some c ->
  querySelectorAll_sections (dom w) <> [] ->
  Forall (λ l, l_target l ≠ Element c /\ l_target l ≠ Window) (listeners w) ->
  NoDup (t_id <$> timers w) ->
  Forall (λ x, (t_id x < nextTimer w)%nat) (timers w) ->
  exists w1,
    init w = Normal w1 /\
    fallback_mode c w1 /\
    pending_checks w1 = pending_checks w.
Proof.
  intros Hi Hio Hc Hs Hls Hnd Hids.
  destruct (init_success w c Hi Hc Hs)
    as (w1 & Hinit & Hst & Hl & Htm & Hnt & _).
  exists w1. split; [done|].
  assert (Hnone : forall tg ty, tg = Element c \/ tg = Window ->
            filter (listens tg ty) (listeners w) = []).
  { intros tg ty Htg. apply filter_none. eapply Forall_impl; [exact Hls|].
    simpl. intros l [H1 H2] [Hl' _]. destruct Htg; congruence. }
  split; [split; [|split]|].
  - unfold running. rewrite Hst, Htm, Hnt. repeat split; try done.
    + rewrite fmap_app. apply NoDup_app. split; [done|]. split; [|by apply NoDup_singleton].
      intros i Hi1 Hi2. apply list_elem_of_singleton in Hi2. simpl in Hi2. subst i.
      apply list_elem_of_fmap in Hi1 as (y & Heq & Hy).
      rewrite Forall_forall in Hids. specialize (Hids y Hy). lia.
    + apply Forall_app_2.
      * eapply Forall_impl; [exact Hids|]. simpl. intros; lia.
      * repeat constructor.
  - rewrite Hl, Hio, filter_app, Hnone by (by left). simpl.
    rewrite filter_cons_True by done. rewrite filter_cons_False; [done|].
    by intros [? _].
  - rewrite Hl, Hio, filter_app, Hnone by (by right). simpl.
    rewrite filter_cons_False by (by intros [? _]). by rewrite filter_cons_True.
  - unfold pending_checks. rewrite Htm, filter_app.
    rewrite filter_cons_False; [by rewrite app_nil_r|]. by intros [|].
Qed.

(** ** A recompute that selects nothing *)

Lemma others_None (l : list nat) : others None l = l.
Proof.
  unfold others. induction l as [|a l IH]; [done|].
  rewrite filter_cons_True by done. by rewrite IH.
Qed.

(** X13: when no section's computed distance to the container's centre
    is below [Infinity] (a centre has overflowed, or a coordinate is not a
    number), a recompute selects nothing.  It completes normally, reads
    the rectangles, removes the marker from every section and adds it to
    none: afterwards no section is marked and [getState] counts no visible
    section. *)
Theorem checkVisibleSection_selects_nothing (w : world) (c : nat) :
  wf w ->
  container (state w) = Some c ->
  ~ selectable w c ->
  exists w',
    checkVisibleSection w = Normal w' /\
    closestSection (snd (findClosest c w)) = None /\
    trace w' =
      trace w ++ Recompute :: GetBoundingClientRect c ::
        map GetBoundingClientRect (sections (state w)) ++
        map (fun x => ClassRemove x marker) (sections (state w)) /\
    (forall s, s ∈ sections (state w) -> classList_contains s marker w' = false) /\
    visibleSections (getState w') = 0%nat.
Proof.
  intros [Hnd Hrange] Hc Hsel. rewrite Forall_forall in Hrange.
  assert (Hcl : closest w c = None).
  { destruct (closest w c) as [s|] eqn:E; [|done].
    destruct Hsel. apply selectable_closest. rewrite E. by eexists. }
  exists (upd (recompute_dom w c) (recompute_trace w c) w).
  assert (Hnone : forall s, s ∈ sections (state w) ->
            classList_contains s marker
              (upd (recompute_dom w c) (recompute_trace w c) w) = false).
  { intros s Hin. rewrite classList_contains_upd.
    destruct (lookup_lt_is_Some_2 (dom w) s (Hrange s Hin)) as [e He].
    rewrite (recompute_dom_lookup _ _ _ e He), Hcl.
    rewrite bool_decide_eq_false_2 by done.
    rewrite bool_decide_eq_true_2 by done.
    apply token_remove_absent. }
  split; [by apply checkVisibleSection_eq|].
  split; [by rewrite findClosest_eq|].
  split.
  { unfold upd, recompute_trace; simpl. by rewrite Hcl, others_None, app_nil_r. }
  split; [exact Hnone|].
  unfold getState; cbn [visibleSections].
  change (sections (state (upd _ _ w))) with (sections (state w)).
  rewrite filter_none; [done|].
  apply Forall_forall. intros s Hin. by rewrite (Hnone s Hin).
Qed.

Lemma checkVisibleSection_selects_nothing_witness :
  exists w',
    checkVisibleSection overflow_world = Normal w' /\
    closestSection (snd (findClosest 0 overflow_world)) = None /\
    trace w' =
      trace overflow_world ++ Recompute :: GetBoundingClientRect 0 ::
        map GetBoundingClientRect (sections (state overflow_world)) ++
        map (fun x => ClassRemove x marker) (sections (state overflow_world)) /\
    (forall s, s ∈ sections (state overflow_world) ->
               classList_contains s marker w' = false) /\
    visibleSections (getState w') = 0%nat.
Proof.
  apply (checkVisibleSection_selects_nothing overflow_world 0).
  - exact (bool_decide_unpack (wf overflow_world) I).
  - reflexivity.
  - exact (bool_decide_unpack (~ selectable overflow_world 0) I).
Defined.
